(** * getter: an image store and render service (espegro/getter, getter.go)

    A shallow embedding of [getter.go] and of the parts of the Go standard
    library and of [nfnt/resize] that its two handlers call, followed by the
    properties of the upload and render pipelines.

    Conventions.
    - A Go [string] is a sequence of bytes: [string] of the standard library
      ([ascii] is one byte).  A [[]byte] is a [list byte].
    - [int] and [uint] are the 64-bit types; they are integers of [Z] with
      the wrap-around written where the source relies on it.
    - [float64] is IEEE 754 binary64 as specified by [SpecFloat]
      ([prec = 53], [emax = 1024]).
    - The file system under the save directory is a finite map from paths
      to files.
    - What the service only calls and never defines (the JPEG codec, the
      Lanczos kernel, the bitmap font, the time formatter) is gathered in the
      record [Platform]. *)

From Stdlib Require Import ZArith List String Ascii Strings.Byte Bool Lia SpecFloat.
From Stdlib Require Import Reals Lra.
From stdpp Require Import gmap strings.

Local Open Scope string_scope.
Local Open Scope Z_scope.

(** ** Strings *)

Module Str.

(** The code of a byte. *)
Definition code (c : ascii) : Z := Z.of_N (N_of_ascii c).

(** [len(s)] *)
Definition len (s : string) : Z := Z.of_nat (String.length s).

(** [s == ""] *)
Definition is_empty (s : string) : bool :=
  match s with EmptyString => true | String _ _ => false end.

(** [strings.HasPrefix(s, p)], returning the rest of [s] after [p]. *)
Fixpoint strip_prefix (p s : string) : option string :=
  match p, s with
  | EmptyString, _ => Some s
  | String a p', String b s' => if Ascii.eqb a b then strip_prefix p' s' else None
  | String _ _, EmptyString => None
  end.

(** The part of [s] before the first occurrence of [sep], or the whole of
    [s]: element 0 of [strings.Split(s, sep)] for a non-empty [sep]. *)
Fixpoint split_first (sep s : string) : string :=
  match strip_prefix sep s with
  | Some _ => EmptyString
  | None =>
      match s with
      | EmptyString => EmptyString
      | String c s' => String c (split_first sep s')
      end
  end.

End Str.

(** ** strconv *)

Module Strconv.

Inductive NumError := ErrSyntax | ErrRange.

Inductive result (A : Type) :=
| Ok (a : A)
| Err (e : NumError).
Arguments Ok {A} a.
Arguments Err {A} e.

Definition is_ok {A} (r : result A) : bool :=
  match r with Ok _ => true | Err _ => false end.

Definition maxUint64 : Z := 2 ^ 64 - 1.

(** [lower(c)]: [c | ('x' - 'X')]. *)
Definition lower (c : Z) : Z := Z.lor c 32.

(** The digit value of a byte in [ParseUint]'s loop (base not 0, so an
    underscore is not a digit). *)
Definition digit_val (c : Z) : option Z :=
  if (48 <=? c) && (c <=? 57) then Some (c - 48)
  else if (97 <=? lower c) && (lower c <=? 122) then Some (lower c - 97 + 10)
  else None.

(** The loop of [ParseUint] over the bytes of [s], from the accumulator
    [n]. *)
Fixpoint parse_loop (base cutoff maxVal : Z) (s : string) (n : Z) : result Z :=
  match s with
  | EmptyString => Ok n
  | String c s' =>
      match digit_val (Str.code c) with
      | None => Err ErrSyntax
      | Some d =>
          if base <=? d then Err ErrSyntax
          else if cutoff <=? n then Err ErrRange
          else
            let n0 := n * base in
            let n1 := (n0 + d) mod 2 ^ 64 in
            if (n1 <? n0) || (maxVal <? n1) then Err ErrRange
            else parse_loop base cutoff maxVal s' n1
      end
  end.

(** [strconv.ParseUint(s, base, bitSize)] for [2 <= base <= 36] and
    [1 <= bitSize <= 64]. *)
Definition ParseUint (s : string) (base bitSize : Z) : result Z :=
  if Str.is_empty s then Err ErrSyntax
  else
    let cutoff := maxUint64 / base + 1 in
    let maxVal := 2 ^ bitSize - 1 in
    parse_loop base cutoff maxVal s 0.

(** [strconv.ParseInt(s, 10, 0)] on a 64-bit platform. *)
Definition ParseInt10 (s : string) : result Z :=
  match s with
  | EmptyString => Err ErrSyntax
  | String c s' =>
      let neg := Ascii.eqb c "-" in
      let body := if Ascii.eqb c "+" || neg then s' else s in
      match ParseUint body 10 64 with
      | Err ErrSyntax => Err ErrSyntax
      | Err ErrRange => Err ErrRange
      | Ok un =>
          let cutoff := 2 ^ 63 in
          if negb neg && (cutoff <=? un) then Err ErrRange
          else if neg && (cutoff <? un) then Err ErrRange
          else Ok (if neg then - un else un)
      end
  end.

(** The loop of the fast path of [Atoi]. *)
Fixpoint atoi_fast_loop (s : string) (n : Z) : result Z :=
  match s with
  | EmptyString => Ok n
  | String ch s' =>
      let d := (Str.code ch - 48) mod 256 in
      if 9 <? d then Err ErrSyntax else atoi_fast_loop s' (n * 10 + d)
  end.

(** [strconv.Atoi(s)] on a 64-bit platform: the fast path for strings of
    fewer than 19 bytes, [ParseInt] for the others. *)
Definition Atoi (s : string) : result Z :=
  let sLen := Str.len s in
  if (0 <? sLen) && (sLen <? 19) then
    match s with
    | EmptyString => Err ErrSyntax
    | String c s' =>
        let signed := Ascii.eqb c "-" || Ascii.eqb c "+" in
        let body := if signed then s' else s in
        if signed && (Str.len body <? 1) then Err ErrSyntax
        else
          match atoi_fast_loop body 0 with
          | Err e => Err e
          | Ok n => Ok (if Ascii.eqb c "-" then - n else n)
          end
    end
  else ParseInt10 s.

End Strconv.

(** ** regexp *)

Module Regexp.

(** The fragment of the syntax of [regexp] that the service uses: classes
    of bytes given by ranges, concatenation, alternation and repetition;
    [^] and [$] (without the [m] flag: begin and end of text) are the two
    flags of a pattern. *)
Inductive regex :=
| Eps
| Never
| Class (ranges : list (ascii * ascii))
| Cat (r1 r2 : regex)
| Alt (r1 r2 : regex)
| Star (r : regex)
| Plus (r : regex).

Record pattern := {
  beginText : bool;
  body : regex;
  endText : bool
}.

Definition in_range (c : ascii) (lohi : ascii * ascii) : bool :=
  (Str.code (fst lohi) <=? Str.code c) && (Str.code c <=? Str.code (snd lohi)).

Definition in_class (ranges : list (ascii * ascii)) (c : ascii) : bool :=
  existsb (in_range c) ranges.

Fixpoint nullable (r : regex) : bool :=
  match r with
  | Eps => true
  | Never => false
  | Class _ => false
  | Cat r1 r2 => nullable r1 && nullable r2
  | Alt r1 r2 => nullable r1 || nullable r2
  | Star _ => true
  | Plus r => nullable r
  end.

(** The derivative of [r] by the byte [c]. *)
Fixpoint deriv (c : ascii) (r : regex) : regex :=
  match r with
  | Eps => Never
  | Never => Never
  | Class rs => if in_class rs c then Eps else Never
  | Cat r1 r2 =>
      if nullable r1 then Alt (Cat (deriv c r1) r2) (deriv c r2)
      else Cat (deriv c r1) r2
  | Alt r1 r2 => Alt (deriv c r1) (deriv c r2)
  | Star r1 => Cat (deriv c r1) (Star r1)
  | Plus r1 => Cat (deriv c r1) (Star r1)
  end.

(** [r] matches the whole of [s]. *)
Fixpoint full_match (r : regex) (s : string) : bool :=
  match s with
  | EmptyString => nullable r
  | String c s' => full_match (deriv c r) s'
  end.

(** [r] matches a prefix of [s]. *)
Fixpoint prefix_match (r : regex) (s : string) : bool :=
  nullable r ||
  match s with
  | EmptyString => false
  | String c s' => prefix_match (deriv c r) s'
  end.

Definition match_here (p : pattern) (s : string) : bool :=
  if endText p then full_match (body p) s else prefix_match (body p) s.

(** A match of [p] starting at some position of [s]. *)
Fixpoint match_from (p : pattern) (s : string) : bool :=
  match_here p s ||
  match s with
  | EmptyString => false
  | String _ s' => match_from p s'
  end.

(** [Regexp.MatchString]: does [s] contain a match of [p]? *)
Definition MatchString (p : pattern) (s : string) : bool :=
  if beginText p then match_here p s else match_from p s.

End Regexp.

(** ** getter.go: the filename validator *)

(** The class [[a-zA-Z0-9-]]. *)
Definition filenameClass : list (ascii * ascii) :=
  [("a", "z"); ("A", "Z"); ("0", "9"); ("-", "-")]%char.

(** [var validFilename = regexp.MustCompile(`^[a-zA-Z0-9-]+$`)] *)
Definition validFilename : Regexp.pattern :=
  {| Regexp.beginText := true;
     Regexp.body := Regexp.Plus (Regexp.Class filenameClass);
     Regexp.endText := true |}.

(** ** image/color and image *)

Module Color.

(** [color.RGBA]; every field is a [uint8]. *)
Record RGBA := { R : Z; G : Z; B : Z; A : Z }.

(** The conversion [uint8(v)] of an unsigned integer. *)
Definition uint8 (v : Z) : Z := v mod 256.

(** [color.RGBA{}] *)
Definition zero : RGBA := {| R := 0; G := 0; B := 0; A := 0 |}.

End Color.

Module Image.

Record Point := { X : Z; Y : Z }.

Record Rectangle := { Min : Point; Max : Point }.

(** [image.ZR] *)
Definition ZR : Rectangle :=
  {| Min := {| X := 0; Y := 0 |}; Max := {| X := 0; Y := 0 |} |}.

(** [image.Rect(x0, y0, x1, y1)] *)
Definition Rect (x0 y0 x1 y1 : Z) : Rectangle :=
  let '(x0, x1) := if x1 <? x0 then (x1, x0) else (x0, x1) in
  let '(y0, y1) := if y1 <? y0 then (y1, y0) else (y0, y1) in
  {| Min := {| X := x0; Y := y0 |}; Max := {| X := x1; Y := y1 |} |}.

Definition Dx (r : Rectangle) : Z := X (Max r) - X (Min r).
Definition Dy (r : Rectangle) : Z := Y (Max r) - Y (Min r).

(** [r.Empty()] *)
Definition Empty (r : Rectangle) : bool :=
  (X (Max r) <=? X (Min r)) || (Y (Max r) <=? Y (Min r)).

(** [r.Intersect(s)] *)
Definition Intersect (r s : Rectangle) : Rectangle :=
  let minx := if X (Min r) <? X (Min s) then X (Min s) else X (Min r) in
  let miny := if Y (Min r) <? Y (Min s) then Y (Min s) else Y (Min r) in
  let maxx := if X (Max s) <? X (Max r) then X (Max s) else X (Max r) in
  let maxy := if Y (Max s) <? Y (Max r) then Y (Max s) else Y (Max r) in
  let r' := {| Min := {| X := minx; Y := miny |};
               Max := {| X := maxx; Y := maxy |} |} in
  if Empty r' then ZR else r'.

(** The rectangle that [Intersect] tests for emptiness, with the
    maximum and minimum of the coordinates. *)
Definition meet (r s : Rectangle) : Rectangle :=
  {| Min := {| X := Z.max (X (Min r)) (X (Min s));
               Y := Z.max (Y (Min r)) (Y (Min s)) |};
     Max := {| X := Z.min (X (Max r)) (X (Max s));
               Y := Z.min (Y (Max r)) (Y (Max s)) |} |}.

(** [p.Sub(q)] *)
Definition Sub (p q : Point) : Point :=
  {| X := X p - X q; Y := Y p - Y q |}.

(** [r.Add(p)] *)
Definition Add (r : Rectangle) (p : Point) : Rectangle :=
  {| Min := {| X := X (Min r) + X p; Y := Y (Min r) + Y p |};
     Max := {| X := X (Max r) + X p; Y := Y (Max r) + Y p |} |}.

(** [p.In(r)] *)
Definition In (p : Point) (r : Rectangle) : bool :=
  (X (Min r) <=? X p) && (X p <? X (Max r)) &&
  (Y (Min r) <=? Y p) && (Y p <? Y (Max r)).

(** The interface [image.Image], with the colour of [At] already
    converted to [color.RGBA]. *)
Record Image := {
  Bounds : Rectangle;
  At : Z -> Z -> Color.RGBA
}.

(** [p.SubImage(r)], the same for every raster type that the JPEG decoder
    returns: the bounds are intersected with those of [p], the pixels are
    shared, and an empty intersection gives an empty image. *)
Definition SubImage (p : Image) (r : Rectangle) : Image :=
  let r' := Intersect r (Bounds p) in
  if Empty r' then {| Bounds := ZR; At := fun _ _ => Color.zero |}
  else {| Bounds := r';
          At := fun x y =>
            if In {| X := x; Y := y |} r' then At p x y else Color.zero |}.

(** [image.NewRGBA(r)] *)
Definition NewRGBA (r : Rectangle) : Image :=
  {| Bounds := r; At := fun _ _ => Color.zero |}.

End Image.

(** ** float64 *)

Module Float64.

Definition prec : Z := 53.
Definition emax : Z := 1024.

Definition float64 := spec_float.

(** The conversion [float64(n)] of an integer: round to nearest even. *)
Definition of_int (n : Z) : float64 := binary_normalize prec emax n 0 false.

Definition div : float64 -> float64 -> float64 := SFdiv prec emax.
Definition mul : float64 -> float64 -> float64 := SFmul prec emax.
Definition add : float64 -> float64 -> float64 := SFadd prec emax.

(** The constant [0.7] as a [float64]. *)
Definition c0_7 : float64 := S754_finite false 6305039478318694 (-53).

(** The integer part of a finite value (rounding toward zero). *)
Definition trunc (f : float64) : option Z :=
  match f with
  | S754_zero _ => Some 0
  | S754_finite s m e =>
      let a := if 0 <=? e then Zpos m * 2 ^ e else Zpos m / 2 ^ (- e) in
      Some (if s then - a else a)
  | S754_infinity _ => None
  | S754_nan => None
  end.

(** The conversion [uint(f)].  Where the integer part is not a [uint]
    the result depends on the implementation: [unrep f]. *)
Definition to_uint (unrep : float64 -> Z) (f : float64) : Z :=
  match trunc f with
  | Some t => if (0 <=? t) && (t <? 2 ^ 64) then t else unrep f
  | None => unrep f
  end.

End Float64.

(** The conversion [int(u)] of a [uint]. *)
Definition int_of_uint (u : Z) : Z := if u <? 2 ^ 63 then u else u - 2 ^ 64.

(** ** What the service calls and does not define *)

Definition Time := Z.

Record Platform := {
  (** [image.Decode] and [jpeg.Decode] on the bytes of a file (JPEG is the
      only registered format); [None] is a decoding error. *)
  jpeg_Decode : list byte -> option Image.Image;
  (** The colour at [(x, y)] of the [width] by [height] resampling of an
      image with the [resize.Lanczos3] kernel. *)
  lanczos3 : Image.Image -> Z -> Z -> Z -> Z -> Color.RGBA;
  (** Does a glyph of [basicfont.Face7x13] cover the pixel [(px, py)] when
      the text is drawn from the dot [(dotx, doty)] (26.6 fixed point)? *)
  glyph_mask : string -> Z -> Z -> Z -> Z -> bool;
  (** [t.Format("2006-01-02 15:04:05")] *)
  time_Format : Time -> string;
  (** [uint(f)] of a value without a [uint] integer part. *)
  uint_unrep : Float64.float64 -> Z
}.

(** ** github.com/nfnt/resize *)

Module Resize.
Import Float64.

(** [calcFactors(width, height, oldWidth, oldHeight)] *)
Definition calcFactors (width height : Z) (oldWidth oldHeight : float64)
  : float64 * float64 :=
  if width =? 0 then
    if height =? 0 then (of_int 1, of_int 1)
    else
      let scaleY := div oldHeight (of_int height) in
      (scaleY, scaleY)
  else
    let scaleX := div oldWidth (of_int width) in
    if height =? 0 then (scaleX, scaleX)
    else (scaleX, div oldHeight (of_int height)).

(** The width and height that [resize.Resize] works with: a zero
    [width] or [height] is computed from the aspect ratio. *)
Definition target (P : Platform) (width height : Z) (img : Image.Image)
  : Z * Z :=
  let b := Image.Bounds img in
  let '(scaleX, scaleY) :=
    calcFactors width height (of_int (Image.Dx b)) (of_int (Image.Dy b)) in
  let width :=
    if width =? 0
    then to_uint (uint_unrep P) (add c0_7 (div (of_int (Image.Dx b)) scaleX))
    else width in
  let height :=
    if height =? 0
    then to_uint (uint_unrep P) (add c0_7 (div (of_int (Image.Dy b)) scaleY))
    else height in
  (width, height).

(** [resize.Resize(width, height, img, resize.Lanczos3)] *)
Definition Resize (P : Platform) (width height : Z) (img : Image.Image)
  : Image.Image :=
  let b := Image.Bounds img in
  let '(width, height) := target P width height img in
  if (int_of_uint width =? Image.Dx b) && (int_of_uint height =? Image.Dy b)
  then img
  else if (Image.Dx b <=? 0) || (Image.Dy b <=? 0) then img
  else
    {| Image.Bounds :=
         Image.Rect 0 0 (int_of_uint width) (int_of_uint height);
       Image.At := lanczos3 P img width height |}.

End Resize.

(** ** image/draw and font *)

Module Draw.
Import Image.

(** [clip(dst, &r, src, &sp, nil, nil)] *)
Definition clip (dst : Image) (r : Rectangle) (src : Image) (sp : Point)
  : Rectangle * Point :=
  let orig := Min r in
  let r := Intersect r (Bounds dst) in
  let r := Intersect r (Add (Bounds src) (Sub orig sp)) in
  let dx := X (Min r) - X orig in
  let dy := Y (Min r) - Y orig in
  (r, {| X := X sp + dx; Y := Y sp + dy |}).

(** [draw.Draw(dst, r, src, sp, draw.Src)] *)
Definition Draw (dst : Image) (r : Rectangle) (src : Image) (sp : Point)
  : Image :=
  let '(r, sp) := clip dst r src sp in
  if Empty r then dst
  else
    {| Bounds := Bounds dst;
       At := fun x y =>
         if In {| X := x; Y := y |} r
         then At src (X sp + (x - X (Min r))) (Y sp + (y - Y (Min r)))
         else At dst x y |}.

End Draw.

(** [d.DrawString(text)] of [drawText]: a [font.Drawer] with the uniform
    source [col] (opaque) and the face [basicfont.Face7x13], whose masks are
    fully opaque or fully transparent, writes [col] at the pixels of [img]
    that a glyph covers and leaves the others as they are. *)
Definition drawText (P : Platform) (img : Image.Image) (text : string)
    (x y : Z) (col : Color.RGBA) : Image.Image :=
  {| Image.Bounds := Image.Bounds img;
     Image.At := fun px py =>
       if Image.In {| Image.X := px; Image.Y := py |} (Image.Bounds img)
          && glyph_mask P text (x * 64) (y * 64) px py
       then col
       else Image.At img px py |}.

(** ** net/http and os *)

(** [url.Values.Get] and [http.Header.Get]: the first value of the key, or
    the empty string. *)
Definition Get (v : gmap string (list string)) (key : string) : string :=
  match v !! key with
  | Some (x :: _) => x
  | _ => ""
  end.

Record Request := {
  Method : string;
  (** [r.URL.Query()] *)
  Query : gmap string (list string);
  Header : gmap string (list string);
  RemoteAddr : string;
  (** The files of the multipart form, by field name ([r.FormFile]). *)
  FormFile : gmap string (list byte)
}.

Record File := {
  data : list byte;
  modTime : Time
}.

(** The files by path, the clock, and the input and output failures that
    the handlers check for. *)
Record World := {
  files : gmap string File;
  now : Time;
  statFails : bool;
  readFails : bool;
  createFails : bool;
  (** [Some n]: [outFile.Write] fails after [n] bytes. *)
  writeFails : option nat
}.

Inductive Response :=
| (** [http.Error(w, msg, code)] *)
  Error (msg : string) (code : Z)
| (** Status 200, [Content-Type: image/jpeg], and the bytes that
      [jpeg.Encode] gives for [img]. *)
  Jpeg (img : Image.Image)
| (** [w.WriteHeader(code)] and no body. *)
  Status (code : Z).

Definition StatusBadRequest : Z := 400.
Definition StatusUnauthorized : Z := 401.
Definition StatusNotFound : Z := 404.
Definition StatusMethodNotAllowed : Z := 405.
Definition StatusInternalServerError : Z := 500.
Definition StatusOK : Z := 200.

(** The status code of a response. *)
Definition status_of (resp : Response) : Z :=
  match resp with
  | Error _ code => code
  | Jpeg _ => StatusOK
  | Status code => code
  end.

(** A handler either has responded and returned, or goes on. *)
Inductive step (A : Type) :=
| Return (resp : Response)
| Continue (a : A).
Arguments Return {A} resp.
Arguments Continue {A} a.

Definition bind {A B} (c : step A) (k : A -> step B) : step B :=
  match c with
  | Return resp => Return resp
  | Continue a => k a
  end.

Notation "x <- c ;; k" := (bind c (fun x => k))
  (at level 99, c at level 98, right associativity).

Definition run (c : step Response) : Response :=
  match c with
  | Return resp => resp
  | Continue resp => resp
  end.

(** [fmt.Sprintf("%s/%s.jpg", saveDir, filename)] *)
Definition filePath (saveDir filename : string) : string :=
  saveDir ++ "/" ++ filename ++ ".jpg".

(** [jpeg.Encode(buffer, img, nil)] into a [bytes.Buffer] fails only for an
    image of 65536 pixels or more in width or height. *)
Definition jpeg_Encode_ok (img : Image.Image) : bool :=
  negb ((2 ^ 16 <=? Image.Dx (Image.Bounds img))
        || (2 ^ 16 <=? Image.Dy (Image.Bounds img))).

(** ** getter.go: scaledHandler *)

(** The filename check, the same in both handlers. *)
Definition checkFilename (r : Request) : step string :=
  let filename := Get (Query r) "filename" in
  if Str.is_empty filename || negb (Regexp.MatchString validFilename filename)
  then Return (Error "Invalid or missing filename" StatusBadRequest)
  else Continue filename.

(** Open, stat and decode the stored file. *)
Definition loadImage (P : Platform) (saveDir : string) (w : World)
    (filename : string) : step (File * Image.Image) :=
  match files w !! filePath saveDir filename with
  | None => Return (Error "File not found" StatusNotFound)
  | Some imgFile =>
      if statFails w
      then Return (Error "Error getting file info" StatusInternalServerError)
      else
        match jpeg_Decode P (data imgFile) with
        | None =>
            Return (Error "Error decoding the image" StatusInternalServerError)
        | Some img => Continue (imgFile, img)
        end
  end.

(** The box parameters of the query. *)
Definition resolveBox (r : Request) (img : Image.Image)
    : step (Z * Z * Z * Z) :=
  let x1Str := Get (Query r) "x1" in
  let y1Str := Get (Query r) "y1" in
  let x2Str := Get (Query r) "x2" in
  let y2Str := Get (Query r) "y2" in
  x1 <- (if Str.is_empty x1Str then Continue 0
         else match Strconv.Atoi x1Str with
              | Strconv.Ok v => Continue v
              | Strconv.Err _ =>
                  Return (Error "Invalid x1 parameter" StatusBadRequest)
              end) ;;
  y1 <- (if Str.is_empty y1Str then Continue 0
         else match Strconv.Atoi y1Str with
              | Strconv.Ok v => Continue v
              | Strconv.Err _ =>
                  Return (Error "Invalid y1 parameter" StatusBadRequest)
              end) ;;
  x2 <- (if Str.is_empty x2Str
         then Continue (Image.X (Image.Max (Image.Bounds img)))
         else match Strconv.Atoi x2Str with
              | Strconv.Ok v => Continue v
              | Strconv.Err _ =>
                  Return (Error "Invalid x2 parameter" StatusBadRequest)
              end) ;;
  y2 <- (if Str.is_empty y2Str
         then Continue (Image.Y (Image.Max (Image.Bounds img)))
         else match Strconv.Atoi y2Str with
              | Strconv.Ok v => Continue v
              | Strconv.Err _ =>
                  Return (Error "Invalid y2 parameter" StatusBadRequest)
              end) ;;
  Continue (x1, y1, x2, y2).

(** Crop the image. *)
Definition crop (img : Image.Image) (box : Z * Z * Z * Z) : Image.Image :=
  let '(x1, y1, x2, y2) := box in
  Image.SubImage img (Image.Rect x1 y1 x2 y2).

(** The height that the handler asks [resize.Resize] for. *)
Definition newHeight (P : Platform) (width : Z) (subImg : Image.Image) : Z :=
  let scaleFactor :=
    Float64.div (Float64.of_int width)
                (Float64.of_int (Image.Dx (Image.Bounds subImg))) in
  Float64.to_uint (uint_unrep P)
    (Float64.mul (Float64.of_int (Image.Dy (Image.Bounds subImg))) scaleFactor).

(** Scale to the width of the query. *)
Definition scale (P : Platform) (r : Request) (subImg : Image.Image)
    : step Image.Image :=
  let wStr := Get (Query r) "w" in
  if Str.is_empty wStr then Continue subImg
  else
    match Strconv.ParseUint wStr 10 32 with
    | Strconv.Err _ => Return (Error "Invalid w parameter" StatusBadRequest)
    | Strconv.Ok width =>
        Continue (Resize.Resize P width (newHeight P width subImg) subImg)
    end.

(** Convert the subImg to RGBA. *)
Definition toRGBA (subImg : Image.Image) : Image.Image :=
  let rgbaImg := Image.NewRGBA (Image.Bounds subImg) in
  Draw.Draw rgbaImg (Image.Bounds rgbaImg) subImg
            {| Image.X := 0; Image.Y := 0 |}.

(** The crop and scale steps together: from the decoded image and the box
    to the RGBA raster. *)
Definition cropAndScale (P : Platform) (r : Request) (img : Image.Image)
    (box : Z * Z * Z * Z) : step Image.Image :=
  subImg <- scale P r (crop img box) ;;
  Continue (toRGBA subImg).

(** The client address of the label and of the log. *)
Definition clientIP (r : Request) : string :=
  let ip := Get (Header r) "X-Forwarded-For" in
  if Str.is_empty ip then RemoteAddr r else Str.split_first ", " ip.

(** The text of the label. *)
Definition labelText (P : Platform) (w : World) (r : Request)
    (imgFile : File) : string :=
  let fileModTime := time_Format P (modTime imgFile) in
  let currentTime := time_Format P (now w) in
  let label := "FileTime: " ++ fileModTime ++ " CurrentTime: " ++ currentTime in
  let id := Get (Query r) "id" in
  if Str.is_empty id then label
  else
    let ip := clientIP r in
    let userAgent := Get (Header r) "User-Agent" in
    label ++ " IP: " ++ ip ++ " User-Agent: " ++ userAgent.

Definition white : Color.RGBA :=
  {| Color.R := 255; Color.G := 255; Color.B := 255; Color.A := 255 |}.

(** The colour of the label. *)
Definition labelColor (colorParam : string) : Color.RGBA :=
  if Str.is_empty colorParam then white
  else
    match Strconv.ParseUint colorParam 16 32 with
    | Strconv.Ok colHex =>
        {| Color.R := Color.uint8 (Z.shiftr colHex 16);
           Color.G := Color.uint8 (Z.land (Z.shiftr colHex 8) 255);
           Color.B := Color.uint8 (Z.land colHex 255);
           Color.A := 255 |}
    | Strconv.Err _ => white
    end.

(** Draw the time and date if nolabel is not set. *)
Definition label (P : Platform) (w : World) (r : Request) (imgFile : File)
    (rgbaImg : Image.Image) : Image.Image :=
  let nolabel := Get (Query r) "nolabel" in
  if Str.is_empty nolabel then
    let text := labelText P w r imgFile in
    let col := labelColor (Get (Query r) "color") in
    drawText P rgbaImg text 10 20 col
  else rgbaImg.

(** Encode the image and write the response. *)
Definition encode (rgbaImg : Image.Image) : Response :=
  if jpeg_Encode_ok rgbaImg then Jpeg rgbaImg
  else Error "Error encoding the cropped image" StatusInternalServerError.

Definition scaledHandler (P : Platform) (saveDir : string) (w : World)
    (r : Request) : Response :=
  run (
    filename <- checkFilename r ;;
    loaded <- loadImage P saveDir w filename ;;
    let '(imgFile, img) := loaded in
    box <- resolveBox r img ;;
    rgbaImg <- cropAndScale P r img box ;;
    Continue (encode (label P w r imgFile rgbaImg))).

(** ** getter.go: saveHandler *)

(** [io.ReadAll(io.LimitReader(f, maxSize))] *)
Definition readLimited (f : list byte) (maxSize : Z) : list byte :=
  firstn (Z.to_nat maxSize) f.

(** [isValidJPEG] *)
Definition isValidJPEG (P : Platform) (d : list byte) : bool :=
  match jpeg_Decode P d with Some _ => true | None => false end.

(** [os.Create] then [outFile.Write(data)]: the file is created or
    truncated, then written. *)
Definition persist (w : World) (path : string) (d : list byte)
    : Response * gmap string File :=
  if createFails w
  then (Error "Error saving the image" StatusInternalServerError, files w)
  else
    match writeFails w with
    | Some n =>
        (Error "Error writing to file" StatusInternalServerError,
         <[path := {| data := firstn n d; modTime := now w |}]> (files w))
    | None =>
        (Status StatusOK,
         <[path := {| data := d; modTime := now w |}]> (files w))
    end.

(** The checks of [saveHandler] before the file is created: the data to
    store under the filename, or the error response. *)
Definition validateUpload (P : Platform) (maxSize : Z) (bearerToken : string)
    (w : World) (r : Request) : step (string * list byte) :=
  _ <- (if negb (String.eqb (Method r) "POST")
        then Return (Error "Only POST requests are allowed"
                           StatusMethodNotAllowed)
        else Continue tt) ;;
  let authHeader := Get (Header r) "Authorization" in
  _ <- (if Str.is_empty authHeader
           || negb (String.eqb authHeader ("Bearer " ++ bearerToken))
        then Return (Error "Unauthorized" StatusUnauthorized)
        else Continue tt) ;;
  filename <- checkFilename r ;;
  uploadedFile <- match FormFile r !! "image" with
                  | None => Return (Error "Error reading uploaded file"
                                          StatusBadRequest)
                  | Some f => Continue f
                  end ;;
  d <- (if readFails w
        then Return (Error "Error reading file data"
                           StatusInternalServerError)
        else Continue (readLimited uploadedFile maxSize)) ;;
  _ <- (if negb (isValidJPEG P d)
        then Return (Error "Uploaded file is not a valid JPEG"
                           StatusBadRequest)
        else Continue tt) ;;
  Continue (filename, d).

Definition saveHandler (P : Platform) (saveDir : string) (maxSize : Z)
    (bearerToken : string) (w : World) (r : Request)
    : Response * gmap string File :=
  match validateUpload P maxSize bearerToken w r with
  | Return resp => (resp, files w)
  | Continue (filename, d) => persist w (filePath saveDir filename) d
  end.

(** ** The words of the specification *)

Module Spec.

Definition is_letter (c : ascii) : bool :=
  let n := Str.code c in
  ((65 <=? n) && (n <=? 90)) || ((97 <=? n) && (n <=? 122)).

Definition is_digit (c : ascii) : bool :=
  let n := Str.code c in (48 <=? n) && (n <=? 57).

Definition is_hyphen (c : ascii) : bool := Str.code c =? 45.

Definition is_hex_digit (c : ascii) : bool :=
  let n := Str.code c in
  is_digit c || ((65 <=? n) && (n <=? 70)) || ((97 <=? n) && (n <=? 102)).

(** Every byte of [s] satisfies [p]. *)
Fixpoint all_bytes (p : ascii -> bool) (s : string) : bool :=
  match s with
  | EmptyString => true
  | String c s' => p c && all_bytes p s'
  end.

(** The byte [c] occurs in [s]. *)
Fixpoint has_byte (c : ascii) (s : string) : bool :=
  match s with
  | EmptyString => false
  | String c' s' => Ascii.eqb c c' || has_byte c s'
  end.

(** A valid filename: non-empty, and solely ASCII letters, digits and
    hyphens. *)
Definition valid_name (s : string) : bool :=
  negb (Str.is_empty s)
  && all_bytes (fun c => is_letter c || is_digit c || is_hyphen c) s.

(** The value of a hexadecimal digit. *)
Definition hex_digit_value (c : ascii) : Z :=
  let n := Str.code c in
  if is_digit c then n - 48
  else if (65 <=? n) && (n <=? 70) then n - 65 + 10
  else n - 97 + 10.

(** The number that the digits of [s] write in hexadecimal, after [acc]. *)
Fixpoint hex_value_from (acc : Z) (s : string) : Z :=
  match s with
  | EmptyString => acc
  | String c s' => hex_value_from (acc * 16 + hex_digit_value c) s'
  end.

Definition hex_value (s : string) : Z := hex_value_from 0 s.

(** The bits [lo] to [lo + 7] of [v]. *)
Definition bits8 (v lo : Z) : Z := (v / 2 ^ lo) mod 2 ^ 8.


(** A non-negative integer in decimal: digits only, at least one. *)
Definition is_nonneg_integer (s : string) : bool :=
  negb (Str.is_empty s) && all_bytes is_digit s.

(** The number that the digits of [s] write in decimal, after [acc]. *)
Fixpoint dec_value_from (acc : Z) (s : string) : Z :=
  match s with
  | EmptyString => acc
  | String c s' => dec_value_from (acc * 10 + (Str.code c - 48)) s'
  end.

Definition dec_value (s : string) : Z := dec_value_from 0 s.

(** A signed integer in decimal: an optional sign, then digits. *)
Definition is_integer (s : string) : bool :=
  match s with
  | EmptyString => false
  | String c s' =>
      if Ascii.eqb c "-" || Ascii.eqb c "+" then is_nonneg_integer s'
      else is_nonneg_integer s
  end.

Definition integer_value (s : string) : Z :=
  match s with
  | EmptyString => 0
  | String c s' =>
      if Ascii.eqb c "-" then - dec_value s'
      else if Ascii.eqb c "+" then dec_value s'
      else dec_value s
  end.

End Spec.

(** ** Requests that differ in one parameter of the query *)

Definition del_query (key : string) (r : Request) : Request :=
  {| Method := Method r;
     Query := delete key (Query r);
     Header := Header r;
     RemoteAddr := RemoteAddr r;
     FormFile := FormFile r |}.

(** The render pipeline without the label stage. *)
Definition renderUnlabelled (P : Platform) (saveDir : string) (w : World)
    (r : Request) : Response :=
  run (
    filename <- checkFilename r ;;
    loaded <- loadImage P saveDir w filename ;;
    let '(imgFile, img) := loaded in
    box <- resolveBox r img ;;
    rgbaImg <- cropAndScale P r img box ;;
    Continue (encode rgbaImg)).

(** The geometry of a request: the filename, the box and the width. *)
Definition same_geometry (r r' : Request) : Prop :=
  Get (Query r) "filename" = Get (Query r') "filename"
  /\ Get (Query r) "x1" = Get (Query r') "x1"
  /\ Get (Query r) "y1" = Get (Query r') "y1"
  /\ Get (Query r) "x2" = Get (Query r') "x2"
  /\ Get (Query r) "y2" = Get (Query r') "y2"
  /\ Get (Query r) "w" = Get (Query r') "w".

(** The stages of the upload before the file is created. *)
Definition upload_valid (P : Platform) (maxSize : Z) (token : string)
    (r : Request) : Prop :=
  Method r = "POST"
  /\ Get (Header r) "Authorization" = "Bearer " ++ token
  /\ Spec.valid_name (Get (Query r) "filename") = true
  /\ exists f, FormFile r !! "image" = Some f
               /\ isValidJPEG P (readLimited f maxSize) = true.

(** A stage of the upload before the file is created fails. *)
Definition upload_invalid (P : Platform) (maxSize : Z) (token : string)
    (r : Request) : Prop :=
  Method r <> "POST"
  \/ Get (Header r) "Authorization" = ""
  \/ Get (Header r) "Authorization" <> "Bearer " ++ token
  \/ Spec.valid_name (Get (Query r) "filename") = false
  \/ FormFile r !! "image" = None
  \/ exists f, FormFile r !! "image" = Some f
               /\ isValidJPEG P (readLimited f maxSize) = false.

(** ** A small world to run the handlers in *)

Module Example.

Definition grey : Color.RGBA :=
  {| Color.R := 128; Color.G := 128; Color.B := 128; Color.A := 255 |}.

(** A decoded image of 100 by 100 pixels. *)
Definition img100 : Image.Image :=
  {| Image.Bounds := Image.Rect 0 0 100 100; Image.At := fun _ _ => grey |}.

(** A platform whose decoder reads every non-empty file as [img100]. *)
Definition platform : Platform :=
  {| jpeg_Decode := fun d => match d with [] => None | _ => Some img100 end;
     lanczos3 := fun _ _ _ _ _ => grey;
     glyph_mask := fun _ _ _ px py => (px =? 10) && (py =? 10);
     time_Format := fun _ => "2006-01-02 15:04:05";
     uint_unrep := fun _ => 0 |}.

Definition saveDir : string := ".".

(** One stored image, [test]. *)
Definition world : World :=
  {| files := {[ "./test.jpg" := {| data := [x00]; modTime := 0 |} ]};
     now := 0;
     statFails := false;
     readFails := false;
     createFails := false;
     writeFails := None |}.

Definition values (q : list (string * string)) : gmap string (list string) :=
  list_to_map (map (fun kv => (fst kv, [snd kv])) q).

(** [GET /scaled?...] with the parameters [q]. *)
Definition get (q : list (string * string)) : Request :=
  {| Method := "GET";
     Query := values q;
     Header := ∅;
     RemoteAddr := "127.0.0.1:40000";
     FormFile := ∅ |}.

(** [POST /save?filename=...] with the file [f] in the field [image]. *)
Definition post (filename auth : string) (f : list byte) : Request :=
  {| Method := "POST";
     Query := values [("filename", filename)];
     Header := values [("Authorization", auth)];
     RemoteAddr := "127.0.0.1:40000";
     FormFile := {[ "image" := f ]} |}.

Definition token : string := "secret".

End Example.

(** The request passes the filename check, and its file is found and
    decoded: the handler reaches the box parameters with [imgFile] and
    [img]. *)
Definition decoded (P : Platform) (saveDir : string) (w : World) (r : Request)
    (imgFile : File) (img : Image.Image) : Prop :=
  exists filename,
    checkFilename r = Continue filename
    /\ loadImage P saveDir w filename = Continue (imgFile, img).

(** A box parameter is absent or parses. *)
Definition coord_ok (s : string) : bool :=
  Str.is_empty s || Strconv.is_ok (Strconv.Atoi s).

(** The width parameter is absent or parses. *)
Definition width_ok (s : string) : bool :=
  Str.is_empty s || Strconv.is_ok (Strconv.ParseUint s 10 32).

Module Requests.
Import Example.

(** [GET /scaled?filename=test&x1=5&x2=5]: a box of width zero. *)
Definition zero_width : Request :=
  get [("filename", "test"); ("x1", "5"); ("x2", "5")].

(** [GET /scaled?filename=test&x1=-5]: a negative coordinate. *)
Definition negative_x1 : Request :=
  get [("filename", "test"); ("x1", "-5")].

(** [GET /scaled?filename=test&x2=200&w=100]: a box of 200 by 100 on the
    image of 100 by 100, scaled to the width 100. *)
Definition wide_box : Request :=
  get [("filename", "test"); ("x2", "200"); ("w", "100")].

(** [GET /scaled?filename=test&x2=50&y2=50&nolabel=true] *)
Definition unlabelled : Request :=
  get [("filename", "test"); ("x2", "50"); ("y2", "50"); ("nolabel", "true")].

(** [GET /scaled?filename=test&x2=80&y2=60&w=40] *)
Definition scaled : Request :=
  get [("filename", "test"); ("x2", "80"); ("y2", "60"); ("w", "40")].

(** [GET /scaled?filename=test&w=abc] *)
Definition bad_width : Request :=
  get [("filename", "test"); ("w", "abc")].

(** An upload with a wrong token. *)
Definition wrong_token : Request :=
  post "new" "Bearer wrong" [x01; x02].

End Requests.

(** ** The real value of a [float64] *)

Module FloatReal.

(** The power [2 ^ e] of an integer exponent, as a real number. *)
Definition bpow (e : Z) : R := powerRZ 2 e.

(** What the round and sticky bits [r] and [s] say of the part [d] of a
    number that a shift has dropped: zero, below a half, a half, above. *)
Definition loc_ok (r s : bool) (d : R) : Prop :=
  match r, s with
  | false, false => d = 0%R
  | false, true => (0 < d < 1 / 2)%R
  | true, false => d = (1 / 2)%R
  | true, true => (1 / 2 < d < 1)%R
  end.

(** The shift record [mrs] at the exponent [e] stands for the real
    number [x]. *)
Definition located (x : R) (e : Z) (mrs : shr_record) : Prop :=
  0 <= shr_m mrs
  /\ exists d, x = ((IZR (shr_m mrs) + d) * bpow e)%R
               /\ loc_ok (shr_r mrs) (shr_s mrs) d.

(** The unit roundoff of [float64], [2 ^ -53]. *)
Definition eps : R := (/ 9007199254740992)%R.

(** [f] is the positive finite float of mantissa [m] (53 bits) and exponent [e]. *)
Definition fin53 (f : spec_float) (m : positive) (e : Z) : Prop :=
  f = S754_finite false m e /\ Zdigits2 (Zpos m) = 53.

(** The value of the positive float of mantissa [m] and exponent [e]. *)
Definition val (m : positive) (e : Z) : R := (IZR (Zpos m) * bpow e)%R.

End FloatReal.

(** ** The world after an upload *)

(** The world [w] with the files [fs]. *)
Definition with_files (w : World) (fs : gmap string File) : World :=
  {| files := fs;
     now := now w;
     statFails := statFails w;
     readFails := readFails w;
     createFails := createFails w;
     writeFails := writeFails w |}.

(** A box parameter of the query: the default when it is empty, its value
    in decimal otherwise. *)
Definition coord_value (s : string) (dflt : Z) : Z :=
  if Str.is_empty s then dflt else Spec.integer_value s.

(** [sep] occurs in [s]. *)
Definition occurs (sep s : string) : Prop :=
  exists a b, s = a ++ sep ++ b.

(** ** getter.go: main *)

(** The values of the flags after [flag.Parse]. *)
Record Flags := {
  flag_dir : string;
  flag_maxSize : Z;
  flag_token : string;
  flag_port : string;
  flag_ip : string
}.

(** The defaults of the flags. *)
Definition defaultFlags : Flags :=
  {| flag_dir := "./";
     flag_maxSize := 1000000;
     flag_token := "";
     flag_port := "8080";
     flag_ip := "0.0.0.0" |}.

(** A handler registered with [http.HandleFunc]: from the world and a
    request to the response and the files afterwards. *)
Definition Handler : Type := World -> Request -> Response * gmap string File.

Inductive Outcome :=
| (** [log.Fatalf]: the process ends. *)
  Fatal (msg : string)
| (** The server listens on [bindAddress] with the handlers [routes]. *)
  Serving (bindAddress : string) (routes : list (string * Handler)).

(** [main], from the parsed flags; [listenErr] is the error of
    [http.ListenAndServe], if it fails. *)
Definition main (P : Platform) (fl : Flags) (listenErr : option string)
    : Outcome :=
  if Str.is_empty (flag_token fl) then Fatal "Bearer token must be provided."
  else
    let routes : list (string * Handler) :=
      [("/save", saveHandler P (flag_dir fl) (flag_maxSize fl) (flag_token fl));
       ("/scaled", fun w r => (scaledHandler P (flag_dir fl) w r, files w))] in
    let bindAddress := flag_ip fl ++ ":" ++ flag_port fl in
    match listenErr with
    | Some e => Fatal ("Could not start server: " ++ e)
    | None => Serving bindAddress routes
    end.

(** The handler registered for the pattern [path]. *)
Fixpoint route (routes : list (string * Handler)) (path : string)
    : option Handler :=
  match routes with
  | [] => None
  | (p, h) :: rest => if String.eqb p path then Some h else route rest path
  end.

Module Uploads.
Import Example.

(** A valid upload of two bytes as [new]. *)
Definition good : Request := post "new" "Bearer secret" [x01; x02].

(** [GET /scaled?filename=new&nolabel=1] *)
Definition render_new : Request :=
  get [("filename", "new"); ("nolabel", "1")].

(** [GET /scaled?filename=test&nolabel=1] *)
Definition render_test : Request :=
  get [("filename", "test"); ("nolabel", "1")].

(** [GET /scaled?filename=test&x1=10&y1=20&x2=60&y2=80&nolabel=1] *)
Definition offset_crop : Request :=
  get [("filename", "test"); ("x1", "10"); ("y1", "20"); ("x2", "60");
       ("y2", "80"); ("nolabel", "1")].

(** [GET /scaled?filename=test&x1=300&x2=400] *)
Definition outside : Request :=
  get [("filename", "test"); ("x1", "300"); ("x2", "400")].

(** [GET /scaled?filename=test&w=0] *)
Definition width_zero : Request := get [("filename", "test"); ("w", "0")].

(** [GET /scaled?filename=test&w=100] *)
Definition width_same : Request := get [("filename", "test"); ("w", "100")].


(** A world where the write of the file fails after one byte. *)
Definition failing_write : World :=
  {| files := files world;
     now := 7;
     statFails := false;
     readFails := false;
     createFails := false;
     writeFails := Some 1%nat |}.

End Uploads.


(** The raster [out] is [out0] but for pixels of the colour [col]. *)
Definition label_only (col : Color.RGBA) (out out0 : Image.Image) : Prop :=
  Image.Bounds out = Image.Bounds out0
  /\ forall x y, Image.At out x y = Image.At out0 x y
                 \/ Image.At out x y = col.
(** * Properties *)

(** ** The filename validator *)

Module RegexpFacts.
Import Regexp.

Lemma full_match_Alt r1 r2 s :
  full_match (Alt r1 r2) s = full_match r1 s || full_match r2 s.
Proof.
  revert r1 r2. induction s as [|c s IH]; intros r1 r2; simpl; [reflexivity|].
  apply IH.
Qed.

Lemma full_match_Cat_Never r s : full_match (Cat Never r) s = false.
Proof. induction s as [|c s IH]; simpl; [reflexivity | exact IH]. Qed.

Lemma full_match_Star_Class_tail rs s :
  full_match (Cat Eps (Star (Class rs))) s = Spec.all_bytes (in_class rs) s.
Proof.
  induction s as [|c s IH]; simpl; [reflexivity|].
  rewrite full_match_Alt, full_match_Cat_Never. simpl.
  destruct (in_class rs c); simpl; [exact IH | apply full_match_Cat_Never].
Qed.

Lemma full_match_Plus_Class rs s :
  full_match (Plus (Class rs)) s
  = negb (Str.is_empty s) && Spec.all_bytes (in_class rs) s.
Proof.
  destruct s as [|c s]; simpl; [reflexivity|].
  destruct (in_class rs c); simpl;
    [apply full_match_Star_Class_tail | apply full_match_Cat_Never].
Qed.

End RegexpFacts.

Lemma all_bytes_ext p q s :
  (forall c, p c = q c) -> Spec.all_bytes p s = Spec.all_bytes q s.
Proof.
  intros H. induction s as [|c s IH]; simpl; [reflexivity|].
  now rewrite H, IH.
Qed.

Lemma filename_class c :
  Regexp.in_class filenameClass c
  = Spec.is_letter c || Spec.is_digit c || Spec.is_hyphen c.
Proof. destruct c as [[] [] [] [] [] [] [] []]; reflexivity. Qed.

Lemma validFilename_spec s :
  Regexp.MatchString validFilename s = Spec.valid_name s.
Proof.
  unfold Regexp.MatchString, Regexp.match_here, validFilename, Spec.valid_name.
  simpl. rewrite RegexpFacts.full_match_Plus_Class. f_equal.
  apply all_bytes_ext. intros c. apply (filename_class c).
Qed.

Lemma valid_name_nonempty s : Spec.valid_name s = true -> Str.is_empty s = false.
Proof.
  unfold Spec.valid_name. destruct (Str.is_empty s); simpl; congruence.
Qed.

Lemma all_bytes_has_byte p c s :
  p c = false -> Spec.has_byte c s = true -> Spec.all_bytes p s = false.
Proof.
  intros Hp. induction s as [|c' s IH]; simpl; [discriminate|].
  intros H. apply orb_true_iff in H. destruct H as [H|H].
  - apply Ascii.eqb_eq in H. subst c'. now rewrite Hp.
  - rewrite (IH H). apply andb_false_r.
Qed.

Lemma checkFilename_valid r :
  Spec.valid_name (Get (Query r) "filename") = true ->
  checkFilename r = Continue (Get (Query r) "filename").
Proof.
  intros H. unfold checkFilename.
  rewrite validFilename_spec, H, (valid_name_nonempty _ H). reflexivity.
Qed.

Lemma checkFilename_invalid r :
  Spec.valid_name (Get (Query r) "filename") = false ->
  checkFilename r = Return (Error "Invalid or missing filename" StatusBadRequest).
Proof.
  intros H. unfold checkFilename.
  rewrite validFilename_spec, H. now rewrite orb_true_r.
Qed.

(** Case analysis on the scrutinee of the first [match] or [if] of the
    goal. *)
Ltac break_match :=
  match goal with
  | |- context [match ?x with _ => _ end] =>
      lazymatch x with
      | context [match _ with _ => _ end] => fail
      | _ => destruct x eqn:?
      end
  end.

Ltac break_all := repeat (break_match; simpl in *; try congruence).

Lemma scaledHandler_valid_name_not_filename_error P saveDir w r :
  Spec.valid_name (Get (Query r) "filename") = true ->
  scaledHandler P saveDir w r
  <> Error "Invalid or missing filename" StatusBadRequest.
Proof.
  intros H. unfold scaledHandler. rewrite (checkFilename_valid _ H). simpl.
  unfold loadImage. break_all.
  unfold resolveBox. break_all; unfold cropAndScale, scale; break_all;
    unfold encode; break_all.
Qed.

Lemma scaledHandler_filename P saveDir w r :
  scaledHandler P saveDir w r
    = Error "Invalid or missing filename" StatusBadRequest
  <-> Spec.valid_name (Get (Query r) "filename") = false.
Proof.
  split.
  - intros H. destruct (Spec.valid_name (Get (Query r) "filename")) eqn:E;
      [|reflexivity].
    exfalso. exact (scaledHandler_valid_name_not_filename_error _ _ _ _ E H).
  - intros H. unfold scaledHandler. rewrite (checkFilename_invalid _ H).
    reflexivity.
Qed.

Lemma bearer_nonempty token : Str.is_empty ("Bearer " ++ token) = false.
Proof. reflexivity. Qed.

Lemma saveHandler_filename P saveDir maxSize token w r :
  Method r = "POST" ->
  Get (Header r) "Authorization" = "Bearer " ++ token ->
  (saveHandler P saveDir maxSize token w r
     = (Error "Invalid or missing filename" StatusBadRequest, files w)
   <-> Spec.valid_name (Get (Query r) "filename") = false).
Proof.
  intros Hm Ha. unfold saveHandler, validateUpload.
  rewrite Hm, Ha, bearer_nonempty, !String.eqb_refl. simpl.
  split.
  - intros H. destruct (Spec.valid_name (Get (Query r) "filename")) eqn:E;
      [|reflexivity].
    exfalso. rewrite (checkFilename_valid _ E) in H. simpl in H.
    revert H. unfold persist. break_all.
  - intros H. rewrite (checkFilename_invalid _ H). reflexivity.
Qed.

(** C10.  The validator accepts exactly the non-empty strings of ASCII
    letters, digits and hyphens; it rejects the empty string and every
    string with a slash or a dot; and the render and the upload handlers
    both answer [400 Invalid or missing filename] exactly for the names
    that it rejects. *)
Theorem C10_filename_validation (s : string) :
  Regexp.MatchString validFilename s = Spec.valid_name s
  /\ (Spec.valid_name s = true
      <-> s <> "" /\ Spec.all_bytes
            (fun c => Spec.is_letter c || Spec.is_digit c || Spec.is_hyphen c)
            s = true)
  /\ (s = "" \/ Spec.has_byte "/" s = true \/ Spec.has_byte "." s = true ->
      Regexp.MatchString validFilename s = false)
  /\ (forall P saveDir w r,
        Get (Query r) "filename" = s ->
        (scaledHandler P saveDir w r
           = Error "Invalid or missing filename" StatusBadRequest
         <-> Regexp.MatchString validFilename s = false))
  /\ (forall P saveDir maxSize token w r,
        Method r = "POST" ->
        Get (Header r) "Authorization" = "Bearer " ++ token ->
        Get (Query r) "filename" = s ->
        (saveHandler P saveDir maxSize token w r
           = (Error "Invalid or missing filename" StatusBadRequest, files w)
         <-> Regexp.MatchString validFilename s = false)).
Proof.
  split; [apply validFilename_spec|].
  split.
  { unfold Spec.valid_name. destruct s; simpl.
    - split; [discriminate | intros [H _]; congruence].
    - split; [intros H; split; [discriminate | exact H] | intros [_ H]; exact H]. }
  split.
  { rewrite validFilename_spec. unfold Spec.valid_name.
    intros [H | [H | H]].
    - subst s. reflexivity.
    - rewrite (all_bytes_has_byte _ "/"%char s); [apply andb_false_r | reflexivity | exact H].
    - rewrite (all_bytes_has_byte _ "."%char s); [apply andb_false_r | reflexivity | exact H]. }
  split.
  - intros P saveDir w r Hs. rewrite validFilename_spec, <- Hs.
    apply scaledHandler_filename.
  - intros P saveDir maxSize token w r Hm Ha Hs.
    rewrite validFilename_spec, <- Hs.
    now apply saveHandler_filename.
Qed.

(** ** The colour of the label *)

Lemma hex_digit_val c :
  Spec.is_hex_digit c = true ->
  Strconv.digit_val (Str.code c) = Some (Spec.hex_digit_value c)
  /\ 0 <= Spec.hex_digit_value c < 16.
Proof.
  destruct c as [[] [] [] [] [] [] [] []]; intros H; try discriminate H;
    (split; [reflexivity | vm_compute; split; congruence]).
Qed.

Lemma parse_loop_hex s : forall n,
  Spec.all_bytes Spec.is_hex_digit s = true ->
  0 <= n ->
  (n + 1) * 16 ^ Str.len s <= 2 ^ 32 ->
  Strconv.parse_loop 16 (Strconv.maxUint64 / 16 + 1) (2 ^ 32 - 1) s n
    = Strconv.Ok (Spec.hex_value_from n s)
  /\ 0 <= Spec.hex_value_from n s < 2 ^ 32.
Proof.
  induction s as [|c s IH]; intros n Hall Hn Hb.
  - simpl. unfold Str.len in Hb. simpl in Hb. split; [reflexivity | lia].
  - simpl in Hall. apply andb_true_iff in Hall. destruct Hall as [Hc Hall].
    destruct (hex_digit_val c Hc) as [Hd Hr].
    assert (Hlen : Str.len (String c s) = Str.len s + 1).
    { unfold Str.len. simpl String.length. lia. }
    rewrite Hlen in Hb.
    assert (Hs0 : 0 <= Str.len s) by (unfold Str.len; lia).
    rewrite Z.pow_add_r in Hb by lia.
    assert (Hp : 0 < 16 ^ Str.len s) by (apply Z.pow_pos_nonneg; lia).
    change (16 ^ 1) with 16 in Hb.
    set (d := Spec.hex_digit_value c) in *.
    assert (Hn1 : (n * 16 + d + 1) * 16 ^ Str.len s <= 2 ^ 32) by nia.
    assert (Hsmall : n * 16 + d < 2 ^ 32) by nia.
    simpl. rewrite Hd. fold d.
    replace (16 <=? d) with false by (symmetry; apply Z.leb_gt; lia).
    replace (Strconv.maxUint64 / 16 + 1 <=? n) with false
      by (symmetry; apply Z.leb_gt; change (Strconv.maxUint64 / 16 + 1) with (2 ^ 60); lia).
    rewrite (Z.mod_small (n * 16 + d)) by lia.
    replace (n * 16 + d <? n * 16) with false by (symmetry; apply Z.ltb_ge; lia).
    replace (2 ^ 32 - 1 <? n * 16 + d) with false by (symmetry; apply Z.ltb_ge; lia).
    simpl. apply IH; [exact Hall | lia | exact Hn1].
Qed.

Lemma ParseUint_hex s :
  1 <= Str.len s <= 8 ->
  Spec.all_bytes Spec.is_hex_digit s = true ->
  Strconv.ParseUint s 16 32 = Strconv.Ok (Spec.hex_value s)
  /\ 0 <= Spec.hex_value s < 2 ^ 32.
Proof.
  intros Hlen Hall. unfold Strconv.ParseUint.
  destruct s as [|c s]; [unfold Str.len in Hlen; simpl in Hlen; lia|].
  cbv [Str.is_empty]. apply parse_loop_hex; [exact Hall | lia |].
  rewrite Z.mul_1_l.
  change (2 ^ 32) with (16 ^ 8). apply Z.pow_le_mono_r; lia.
Qed.

Lemma rgb_of_bits v :
  0 <= v ->
  Color.uint8 (Z.shiftr v 16) = Spec.bits8 v 16
  /\ Color.uint8 (Z.land (Z.shiftr v 8) 255) = Spec.bits8 v 8
  /\ Color.uint8 (Z.land v 255) = Spec.bits8 v 0.
Proof.
  intros Hv. unfold Color.uint8, Spec.bits8.
  rewrite !Z.shiftr_div_pow2 by lia.
  change 255 with (Z.ones 8). rewrite !Z.land_ones by lia.
  change (2 ^ 8) with 256. change (2 ^ 0) with 1. rewrite Z.div_1_r.
  rewrite !Z.mod_mod by lia. auto.
Qed.

(** C8.  A colour of one to eight hexadecimal digits parses, and the label
    colour is made of the low 24 bits of its value: red from bits 16 to 23,
    green from bits 8 to 15, blue from bits 0 to 7, fully opaque. *)
Theorem C8_color_hex_digits (s : string) :
  1 <= Str.len s <= 8 ->
  Spec.all_bytes Spec.is_hex_digit s = true ->
  Strconv.ParseUint s 16 32 = Strconv.Ok (Spec.hex_value s)
  /\ labelColor s
     = {| Color.R := Spec.bits8 (Spec.hex_value s) 16;
          Color.G := Spec.bits8 (Spec.hex_value s) 8;
          Color.B := Spec.bits8 (Spec.hex_value s) 0;
          Color.A := 255 |}.
Proof.
  intros Hlen Hall.
  destruct (ParseUint_hex s Hlen Hall) as [Hp Hr].
  split; [exact Hp|].
  unfold labelColor. rewrite Hp.
  destruct s as [|c s]; [unfold Str.len in Hlen; simpl in Hlen; lia|].
  cbv [Str.is_empty].
  destruct (rgb_of_bits (Spec.hex_value (String c s))) as (HR & HG & HB); [lia|].
  now rewrite HR, HG, HB.
Qed.

Lemma C8_color_hex_digits_witness :
  labelColor "F"
  = {| Color.R := 0; Color.G := 0; Color.B := 15; Color.A := 255 |}.
Proof.
  refine (eq_trans (proj2 (C8_color_hex_digits "F" _ _)) _).
  - vm_compute. split; congruence.
  - reflexivity.
  - reflexivity.
Defined.

(** ** What the response of the render handler depends on *)

Lemma Get_delete_ne (q : gmap string (list string)) k k' :
  k <> k' -> Get (delete k q) k' = Get q k'.
Proof. intros H. unfold Get. now rewrite lookup_delete_ne. Qed.

Lemma Get_delete_eq (q : gmap string (list string)) k :
  Get (delete k q) k = "".
Proof. unfold Get. now rewrite lookup_delete_eq. Qed.


Lemma renderUnlabelled_congr P saveDir w w' r r' :
  files w = files w' ->
  statFails w = statFails w' ->
  same_geometry r r' ->
  renderUnlabelled P saveDir w r = renderUnlabelled P saveDir w' r'.
Proof.
  intros Hf Hs (H0 & H1 & H2 & H3 & H4 & H5).
  unfold renderUnlabelled, checkFilename, loadImage, resolveBox,
    cropAndScale, scale.
  now rewrite Hf, Hs, H0, H1, H2, H3, H4, H5.
Qed.

Lemma scaledHandler_nolabel P saveDir w r :
  Str.is_empty (Get (Query r) "nolabel") = false ->
  scaledHandler P saveDir w r = renderUnlabelled P saveDir w r.
Proof.
  intros H. unfold scaledHandler, renderUnlabelled, label. now rewrite H.
Qed.

Lemma scaledHandler_congr P saveDir w r r' :
  same_geometry r r' ->
  Get (Query r) "nolabel" = Get (Query r') "nolabel" ->
  Get (Query r) "id" = Get (Query r') "id" ->
  labelColor (Get (Query r) "color") = labelColor (Get (Query r') "color") ->
  Header r = Header r' ->
  RemoteAddr r = RemoteAddr r' ->
  scaledHandler P saveDir w r = scaledHandler P saveDir w r'.
Proof.
  intros (H0 & H1 & H2 & H3 & H4 & H5) Hn Hi Hc Hh Ha.
  unfold scaledHandler, checkFilename, loadImage, resolveBox,
    cropAndScale, scale, label, labelText, clientIP.
  now rewrite H0, H1, H2, H3, H4, H5, Hn, Hi, Hc, Hh, Ha.
Qed.

Lemma is_empty_false s : s <> "" -> Str.is_empty s = false.
Proof. destruct s; [congruence | reflexivity]. Qed.

Lemma non_hex_digit_val c :
  Spec.is_hex_digit c = false ->
  match Strconv.digit_val (Str.code c) with
  | Some d => 16 <= d
  | None => True
  end.
Proof.
  destruct c as [[] [] [] [] [] [] [] []]; intros H; try discriminate H;
    vm_compute; first [exact I | congruence].
Qed.

Lemma parse_loop_non_hex cutoff maxVal s : forall n,
  Spec.all_bytes Spec.is_hex_digit s = false ->
  Strconv.is_ok (Strconv.parse_loop 16 cutoff maxVal s n) = false.
Proof.
  induction s as [|c s IH]; intros n H; simpl in *; [discriminate|].
  destruct (Spec.is_hex_digit c) eqn:Hc.
  - simpl in H. destruct (Strconv.digit_val (Str.code c)); [|reflexivity].
    destruct (16 <=? z); [reflexivity|].
    destruct (cutoff <=? n); [reflexivity|].
    destruct (_ || _); [reflexivity | now apply IH].
  - pose proof (non_hex_digit_val c Hc) as Hd.
    destruct (Strconv.digit_val (Str.code c)) as [d|]; [|reflexivity].
    now replace (16 <=? d) with true by (symmetry; apply Z.leb_le; lia).
Qed.

(** A colour with a byte that is not a hexadecimal digit does not parse. *)
Lemma ParseUint_non_hex s :
  Spec.all_bytes Spec.is_hex_digit s = false ->
  Strconv.is_ok (Strconv.ParseUint s 16 32) = false.
Proof.
  intros H. unfold Strconv.ParseUint.
  destruct (Str.is_empty s); [reflexivity | now apply parse_loop_non_hex].
Qed.

Lemma labelColor_unparsed c :
  Strconv.is_ok (Strconv.ParseUint c 16 32) = false -> labelColor c = white.
Proof.
  unfold labelColor. destruct (Str.is_empty c); [reflexivity|].
  destruct (Strconv.ParseUint c 16 32); [discriminate | reflexivity].
Qed.

(** C7.  A colour that does not parse as hexadecimal (so every colour with
    a byte that is not a hexadecimal digit, as [zzzzzz]) gives the white,
    opaque label and the response of the same request without a colour;
    [FF0000] gives the colour (255, 0, 0), opaque; and with the label
    enabled, every pixel of the raster that a glyph of the label covers has
    the label colour. *)
Theorem C7_color_fallback P saveDir w (r : Request) :
  (Strconv.is_ok (Strconv.ParseUint (Get (Query r) "color") 16 32) = false ->
     labelColor (Get (Query r) "color") = white
     /\ scaledHandler P saveDir w r
        = scaledHandler P saveDir w (del_query "color" r))
  /\ (forall c, Spec.all_bytes Spec.is_hex_digit c = false ->
        Strconv.is_ok (Strconv.ParseUint c 16 32) = false
        /\ labelColor c = white)
  /\ labelColor "zzzzzz" = white
  /\ labelColor "FF0000"
     = {| Color.R := 255; Color.G := 0; Color.B := 0; Color.A := 255 |}
  /\ (forall imgFile rgbaImg px py,
        Get (Query r) "nolabel" = "" ->
        Image.In {| Image.X := px; Image.Y := py |} (Image.Bounds rgbaImg)
          = true ->
        glyph_mask P (labelText P w r imgFile) (10 * 64) (20 * 64) px py
          = true ->
        Image.At (label P w r imgFile rgbaImg) px py
        = labelColor (Get (Query r) "color")).
Proof.
  split; [|split; [|split; [reflexivity | split; [reflexivity|]]]].
  - intros H. split; [now apply labelColor_unparsed|].
    apply scaledHandler_congr; try reflexivity.
    + unfold same_geometry, del_query. simpl.
      rewrite !Get_delete_ne by discriminate. tauto.
    + unfold del_query. simpl. now rewrite Get_delete_ne by discriminate.
    + unfold del_query. simpl. now rewrite Get_delete_ne by discriminate.
    + unfold del_query. simpl. rewrite Get_delete_eq.
      now rewrite labelColor_unparsed.
  - intros c Hc. pose proof (ParseUint_non_hex c Hc) as Hp.
    split; [exact Hp | now apply labelColor_unparsed].
  - intros imgFile rgbaImg px py Hn Hin Hg.
    unfold label. rewrite Hn. simpl. now rewrite Hin, Hg.
Qed.

(** C9.  With a non-empty [nolabel] the response is that of the pipeline
    without the label stage: the encoded raster is the result of the crop
    and scale steps, the same for every request of the same geometry,
    whatever the [id], the [color], the headers and the clock. *)
Theorem C9_nolabel P saveDir w (r : Request) :
  Get (Query r) "nolabel" <> "" ->
  scaledHandler P saveDir w r = renderUnlabelled P saveDir w r
  /\ (forall imgFile rgbaImg, label P w r imgFile rgbaImg = rgbaImg)
  /\ (forall w' r',
        files w = files w' ->
        statFails w = statFails w' ->
        same_geometry r r' ->
        Get (Query r') "nolabel" <> "" ->
        scaledHandler P saveDir w' r' = scaledHandler P saveDir w r).
Proof.
  intros H. apply is_empty_false in H.
  split; [now apply scaledHandler_nolabel|].
  split.
  - intros imgFile rgbaImg. unfold label. now rewrite H.
  - intros w' r' Hf Hs Hg H'. apply is_empty_false in H'.
    rewrite !scaledHandler_nolabel by assumption.
    symmetry. now apply renderUnlabelled_congr.
Qed.

(** ** The upload pipeline *)



Lemma validateUpload_invalid P maxSize token w r :
  upload_invalid P maxSize token r ->
  exists msg code,
    validateUpload P maxSize token w r = Return (Error msg code)
    /\ code <> StatusOK.
Proof.
  unfold validateUpload.
  destruct (String.eqb_spec (Method r) "POST") as [Hm|Hm]; simpl;
    [|intros _; eexists _, _; split; [reflexivity | discriminate]].
  destruct (Str.is_empty (Get (Header r) "Authorization")) eqn:Ea; simpl;
    [intros _; eexists _, _; split; [reflexivity | discriminate]|].
  destruct (String.eqb_spec (Get (Header r) "Authorization")
                            ("Bearer " ++ token)) as [Hb|Hb]; simpl;
    [|intros _; eexists _, _; split; [reflexivity | discriminate]].
  destruct (Spec.valid_name (Get (Query r) "filename")) eqn:Ev;
    [rewrite (checkFilename_valid _ Ev)
    |rewrite (checkFilename_invalid _ Ev); simpl; intros _; eexists _, _;
       split; [reflexivity | discriminate]].
  simpl.
  destruct (FormFile r !! "image") as [f|] eqn:Ef; simpl;
    [|intros _; eexists _, _; split; [reflexivity | discriminate]].
  destruct (readFails w); simpl;
    [intros _; eexists _, _; split; [reflexivity | discriminate]|].
  destruct (isValidJPEG P (readLimited f maxSize)) eqn:Ej; simpl;
    [|intros _; eexists _, _; split; [reflexivity | discriminate]].
  intros [H|[H|[H|[H|[H|(f' & H & H')]]]]]; try congruence.
  rewrite H in Ea. discriminate.
Qed.

Lemma validateUpload_Continue P maxSize token w r filename d :
  validateUpload P maxSize token w r = Continue (filename, d) ->
  upload_valid P maxSize token r
  /\ readFails w = false
  /\ filename = Get (Query r) "filename"
  /\ exists f, FormFile r !! "image" = Some f /\ d = readLimited f maxSize.
Proof.
  unfold validateUpload, upload_valid.
  destruct (String.eqb_spec (Method r) "POST") as [Hm|Hm]; simpl;
    [|discriminate].
  destruct (Str.is_empty (Get (Header r) "Authorization")) eqn:Ea; simpl;
    [discriminate|].
  destruct (String.eqb_spec (Get (Header r) "Authorization")
                            ("Bearer " ++ token)) as [Hb|Hb]; simpl;
    [|discriminate].
  destruct (Spec.valid_name (Get (Query r) "filename")) eqn:Ev;
    [rewrite (checkFilename_valid _ Ev)
    |rewrite (checkFilename_invalid _ Ev); simpl; discriminate].
  simpl.
  destruct (FormFile r !! "image") as [f|] eqn:Ef; simpl; [|discriminate].
  destruct (readFails w); simpl; [discriminate|].
  destruct (isValidJPEG P (readLimited f maxSize)) eqn:Ej; simpl;
    [|discriminate].
  intros H. injection H as <- <-. repeat split; eauto.
Qed.

Lemma validateUpload_valid P maxSize token w r :
  upload_valid P maxSize token r ->
  readFails w = false ->
  exists f, FormFile r !! "image" = Some f
    /\ validateUpload P maxSize token w r
       = Continue (Get (Query r) "filename", readLimited f maxSize).
Proof.
  intros (Hm & Ha & Hv & f & Hf & Hj) Hr. exists f. split; [exact Hf|].
  unfold validateUpload.
  rewrite Hm, Ha, bearer_nonempty, !String.eqb_refl, (checkFilename_valid _ Hv).
  simpl. rewrite Hf. simpl. rewrite Hr. simpl. now rewrite Hj.
Qed.

(** C5.  When a stage before the file is created fails, the response is an
    error and the files are as before; the files change only after every
    check has passed; and an upload that passes them all, without a failure
    of the file system, stores the bytes read under the filename. *)
Theorem C5_no_partial_writes P saveDir maxSize token w (r : Request) :
  upload_invalid P maxSize token r ->
  (exists msg code,
     fst (saveHandler P saveDir maxSize token w r) = Error msg code
     /\ code <> StatusOK)
  /\ snd (saveHandler P saveDir maxSize token w r) = files w
  /\ (forall r',
        snd (saveHandler P saveDir maxSize token w r') <> files w ->
        upload_valid P maxSize token r'
        /\ readFails w = false /\ createFails w = false)
  /\ (forall r',
        upload_valid P maxSize token r' ->
        readFails w = false -> createFails w = false ->
        writeFails w = None ->
        exists f, FormFile r' !! "image" = Some f
          /\ saveHandler P saveDir maxSize token w r'
             = (Status StatusOK,
                <[filePath saveDir (Get (Query r') "filename") :=
                    {| data := readLimited f maxSize; modTime := now w |}]>
                  (files w))).
Proof.
  intros Hinv.
  destruct (validateUpload_invalid P maxSize token w r Hinv)
    as (msg & code & Hv & Hc).
  split; [|split; [|split]].
  - exists msg, code. unfold saveHandler. rewrite Hv. auto.
  - unfold saveHandler. now rewrite Hv.
  - intros r' Hne. unfold saveHandler in Hne.
    destruct (validateUpload P maxSize token w r') as [resp|[filename d]] eqn:E;
      [simpl in Hne; congruence|].
    destruct (validateUpload_Continue _ _ _ _ _ _ _ E) as (Hu & Hr & _).
    split; [exact Hu | split; [exact Hr|]].
    unfold persist in Hne. destruct (createFails w); [simpl in Hne; congruence | reflexivity].
  - intros r' Hu Hr Hcr Hw.
    destruct (validateUpload_valid P maxSize token w r' Hu Hr) as (f & Hf & Hv').
    exists f. split; [exact Hf|].
    unfold saveHandler, persist. now rewrite Hv', Hcr, Hw.
Qed.

(** C6.  A POST whose [Authorization] header is absent or is not
    [Bearer] followed by the token is answered with 401, whatever the other
    parameters, and the files are as before. *)
Theorem C6_unauthorized P saveDir maxSize token w (r : Request) :
  Method r = "POST" ->
  Get (Header r) "Authorization" = ""
  \/ Get (Header r) "Authorization" <> "Bearer " ++ token ->
  saveHandler P saveDir maxSize token w r
  = (Error "Unauthorized" StatusUnauthorized, files w).
Proof.
  intros Hm Ha. unfold saveHandler, validateUpload.
  rewrite Hm, String.eqb_refl. simpl.
  destruct Ha as [Ha|Ha].
  - rewrite Ha. reflexivity.
  - apply String.eqb_neq in Ha. rewrite Ha, orb_true_r. reflexivity.
Qed.

(** ** Rectangles and the crop step *)

Module ImageFacts.
Import Image.

Lemma if_ltb_max a b : (if a <? b then b else a) = Z.max a b.
Proof. destruct (Z.ltb_spec a b); lia. Qed.

Lemma if_ltb_min a b : (if b <? a then b else a) = Z.min a b.
Proof. destruct (Z.ltb_spec b a); lia. Qed.

Lemma Rect_canonical x0 y0 x1 y1 :
  Rect x0 y0 x1 y1
  = {| Min := {| X := Z.min x0 x1; Y := Z.min y0 y1 |};
       Max := {| X := Z.max x0 x1; Y := Z.max y0 y1 |} |}.
Proof.
  unfold Rect.
  destruct (Z.ltb_spec x1 x0), (Z.ltb_spec y1 y0); f_equal; f_equal; lia.
Qed.

Lemma In_true p r :
  In p r = true
  <-> X (Min r) <= X p < X (Max r) /\ Y (Min r) <= Y p < Y (Max r).
Proof.
  unfold In. rewrite !andb_true_iff, !Z.leb_le, !Z.ltb_lt. lia.
Qed.

Lemma Empty_true r :
  Empty r = true <-> X (Max r) <= X (Min r) \/ Y (Max r) <= Y (Min r).
Proof. unfold Empty. rewrite orb_true_iff, !Z.leb_le. tauto. Qed.

Lemma Empty_false r :
  Empty r = false <-> X (Min r) < X (Max r) /\ Y (Min r) < Y (Max r).
Proof. unfold Empty. rewrite orb_false_iff, !Z.leb_gt. tauto. Qed.

Lemma Intersect_meet r s :
  Intersect r s = if Empty (meet r s) then ZR else meet r s.
Proof.
  unfold Intersect, meet. now rewrite !if_ltb_max, !if_ltb_min.
Qed.

Lemma In_Intersect_iff p r s :
  In p (Intersect r s) = true <-> In p r = true /\ In p s = true.
Proof.
  rewrite Intersect_meet.
  destruct (Empty (meet r s)) eqn:E.
  - apply Empty_true in E. rewrite !In_true. unfold meet in E. simpl in *. lia.
  - rewrite !In_true. unfold meet. simpl. lia.
Qed.

Lemma In_Intersect p r s : In p (Intersect r s) = In p r && In p s.
Proof.
  apply eq_true_iff_eq. rewrite andb_true_iff. apply In_Intersect_iff.
Qed.

(** An intersection is empty only as [ZR]. *)
Lemma Intersect_Empty r s :
  Empty (Intersect r s) = true -> Intersect r s = ZR.
Proof.
  rewrite Intersect_meet. destruct (Empty (meet r s)) eqn:E; congruence.
Qed.


Lemma SubImage_Bounds p r : Bounds (SubImage p r) = Intersect r (Bounds p).
Proof.
  unfold SubImage. destruct (Empty (Intersect r (Bounds p))) eqn:E; simpl.
  - symmetry. now apply Intersect_Empty.
  - reflexivity.
Qed.

Lemma SubImage_At p r x y :
  In {| X := x; Y := y |} (Bounds (SubImage p r)) = true ->
  At (SubImage p r) x y = At p x y.
Proof.
  unfold SubImage. destruct (Empty (Intersect r (Bounds p))) eqn:E; simpl.
  - intros H. apply In_true in H. simpl in H. lia.
  - intros H. now rewrite H.
Qed.

End ImageFacts.

Lemma Draw_Bounds dst r src sp :
  Image.Bounds (Draw.Draw dst r src sp) = Image.Bounds dst.
Proof.
  unfold Draw.Draw. destruct (Draw.clip dst r src sp) as [r' sp'].
  now destruct (Image.Empty r').
Qed.

Lemma toRGBA_Bounds subImg :
  Image.Bounds (toRGBA subImg) = Image.Bounds subImg.
Proof. unfold toRGBA. now rewrite Draw_Bounds. Qed.

Lemma label_Bounds P w r imgFile rgbaImg :
  Image.Bounds (label P w r imgFile rgbaImg) = Image.Bounds rgbaImg.
Proof. unfold label. now destruct (Str.is_empty _). Qed.

Lemma crop_Bounds img x1 y1 x2 y2 :
  Image.Bounds (crop img (x1, y1, x2, y2))
  = Image.Intersect (Image.Rect x1 y1 x2 y2) (Image.Bounds img).
Proof. apply ImageFacts.SubImage_Bounds. Qed.

Lemma scaledHandler_decoded P saveDir w r imgFile img :
  decoded P saveDir w r imgFile img ->
  scaledHandler P saveDir w r
  = run (box <- resolveBox r img ;;
         rgbaImg <- cropAndScale P r img box ;;
         Continue (encode (label P w r imgFile rgbaImg))).
Proof.
  intros (filename & Hc & Hl). unfold scaledHandler. now rewrite Hc; simpl; rewrite Hl.
Qed.

Lemma scaledHandler_box P saveDir w r imgFile img box :
  decoded P saveDir w r imgFile img ->
  resolveBox r img = Continue box ->
  scaledHandler P saveDir w r
  = run (subImg <- scale P r (crop img box) ;;
         Continue (encode (label P w r imgFile (toRGBA subImg)))).
Proof.
  intros Hd Hb. rewrite (scaledHandler_decoded _ _ _ _ _ _ Hd), Hb.
  unfold cropAndScale. simpl. now destruct (scale P r (crop img box)).
Qed.

(** C4.  The crop step has no failure: the box is made canonical (minimum
    and maximum swapped where needed) and intersected with the bounds of the
    source image; the sub-image has that intersection as its bounds and the
    pixels of the source there; and the render goes on with it, to the
    scale step and, without a width, to the encoder. *)
Theorem C4_crop_clips P saveDir w (r : Request) imgFile img x1 y1 x2 y2 :
  decoded P saveDir w r imgFile img ->
  resolveBox r img = Continue (x1, y1, x2, y2) ->
  let box := Image.Rect x1 y1 x2 y2 in
  let subImg := crop img (x1, y1, x2, y2) in
  box = {| Image.Min := {| Image.X := Z.min x1 x2; Image.Y := Z.min y1 y2 |};
           Image.Max := {| Image.X := Z.max x1 x2; Image.Y := Z.max y1 y2 |} |}
  /\ Image.Bounds subImg = Image.Intersect box (Image.Bounds img)
  /\ (forall p, Image.In p (Image.Bounds subImg)
                = Image.In p box && Image.In p (Image.Bounds img))
  /\ (forall x y,
        Image.In {| Image.X := x; Image.Y := y |} (Image.Bounds subImg) = true ->
        Image.At subImg x y = Image.At img x y)
  /\ scaledHandler P saveDir w r
     = run (scaled <- scale P r subImg ;;
            Continue (encode (label P w r imgFile (toRGBA scaled))))
  /\ (Get (Query r) "w" = "" ->
      scaledHandler P saveDir w r
        = encode (label P w r imgFile (toRGBA subImg))
      /\ Image.Bounds (label P w r imgFile (toRGBA subImg))
         = Image.Intersect box (Image.Bounds img)).
Proof.
  intros Hd Hb box subImg.
  split; [apply ImageFacts.Rect_canonical|].
  split; [apply crop_Bounds|].
  split; [intros p; unfold subImg; rewrite crop_Bounds; apply ImageFacts.In_Intersect|].
  split; [intros x y; apply ImageFacts.SubImage_At|].
  split; [now apply scaledHandler_box|].
  intros Hw. split.
  - rewrite (scaledHandler_box _ _ _ _ _ _ _ Hd Hb). unfold scale. now rewrite Hw.
  - rewrite label_Bounds, toRGBA_Bounds. apply crop_Bounds.
Qed.

(** ** A box without pixels *)

Lemma Resize_empty P width height img :
  Image.Bounds img = Image.ZR -> Resize.Resize P width height img = img.
Proof.
  intros H. unfold Resize.Resize.
  destruct (Resize.target P width height img) as [wd ht].
  rewrite H. change (Image.Dx Image.ZR) with 0. change (Image.Dy Image.ZR) with 0.
  now destruct ((int_of_uint wd =? 0) && (int_of_uint ht =? 0)).
Qed.

Lemma crop_zero_box img x1 y1 x2 y2 :
  x1 = x2 \/ y1 = y2 ->
  Image.Bounds (crop img (x1, y1, x2, y2)) = Image.ZR.
Proof.
  intros H. rewrite crop_Bounds, ImageFacts.Rect_canonical, ImageFacts.Intersect_meet.
  destruct (Image.Empty _) eqn:E; [reflexivity|].
  apply ImageFacts.Empty_false in E. simpl in E. lia.
Qed.

Lemma scale_ok P r subImg :
  width_ok (Get (Query r) "w") = true ->
  exists scaled, scale P r subImg = Continue scaled
    /\ (Image.Bounds subImg = Image.ZR -> scaled = subImg).
Proof.
  unfold width_ok, scale. destruct (Str.is_empty (Get (Query r) "w")); simpl.
  - intros _. eauto.
  - destruct (Strconv.ParseUint (Get (Query r) "w") 10 32) as [width|e];
      [|discriminate].
    intros _. eexists. split; [reflexivity|]. apply Resize_empty.
Qed.

(** C2 as amended.  A box of width or height zero is no error: the crop
    gives the empty image, the scale step returns it as it is, and the
    response is 200 with the encoding of a raster without pixels. *)
Theorem C2_zero_box_renders P saveDir w (r : Request) imgFile img x1 y1 x2 y2 :
  decoded P saveDir w r imgFile img ->
  resolveBox r img = Continue (x1, y1, x2, y2) ->
  x1 = x2 \/ y1 = y2 ->
  width_ok (Get (Query r) "w") = true ->
  exists out,
    scaledHandler P saveDir w r = Jpeg out
    /\ Image.Bounds out = Image.ZR
    /\ status_of (scaledHandler P saveDir w r) = StatusOK.
Proof.
  intros Hd Hb Hz Hw.
  pose proof (crop_zero_box img x1 y1 x2 y2 Hz) as Hc.
  destruct (scale_ok P r (crop img (x1, y1, x2, y2)) Hw) as (scaled & Hs & He).
  specialize (He Hc). subst scaled.
  rewrite (scaledHandler_box _ _ _ _ _ _ _ Hd Hb), Hs. cbn [bind run].
  assert (HB : Image.Bounds (label P w r imgFile (toRGBA (crop img (x1, y1, x2, y2))))
               = Image.ZR)
    by now rewrite label_Bounds, toRGBA_Bounds.
  unfold encode, jpeg_Encode_ok. rewrite HB.
  change (Image.Dx Image.ZR) with 0. change (Image.Dy Image.ZR) with 0.
  cbn [Z.leb Z.compare Z.pow Z.pow_pos Pos.iter Pos.mul orb negb].
  eexists. split; [reflexivity | split; [exact HB | reflexivity]].
Qed.

Lemma example_decoded q :
  Get (Example.values q) "filename" = "test" ->
  decoded Example.platform Example.saveDir Example.world (Example.get q)
    {| data := [x00]; modTime := 0 |} Example.img100.
Proof.
  intros H. exists "test". split.
  - unfold checkFilename. simpl. rewrite H. reflexivity.
  - reflexivity.
Qed.

Lemma C2_zero_box_renders_witness :
  exists out,
    scaledHandler Example.platform Example.saveDir Example.world
      Requests.zero_width = Jpeg out
    /\ Image.Bounds out = Image.ZR
    /\ status_of (scaledHandler Example.platform Example.saveDir Example.world
                    Requests.zero_width) = StatusOK.
Proof.
  apply (C2_zero_box_renders Example.platform Example.saveDir Example.world
           Requests.zero_width {| data := [x00]; modTime := 0 |}
           Example.img100 5 0 5 100).
  - apply example_decoded. reflexivity.
  - reflexivity.
  - left. reflexivity.
  - reflexivity.
Defined.

(** C2 as stated fails: the box [x1 = x2 = 5] on the stored image of 100 by
    100 pixels is answered with status 200 and a raster of 0 by 0 pixels,
    not with an error. *)
Lemma C2_zero_box_counterexample :
  resolveBox Requests.zero_width Example.img100 = Continue (5, 0, 5, 100)
  /\ (exists out,
        scaledHandler Example.platform Example.saveDir Example.world
          Requests.zero_width = Jpeg out
        /\ Image.Dx (Image.Bounds out) = 0 /\ Image.Dy (Image.Bounds out) = 0)
  /\ ~ (exists msg code,
          scaledHandler Example.platform Example.saveDir Example.world
            Requests.zero_width = Error msg code).
Proof.
  split; [reflexivity|]. split.
  - eexists. split; [reflexivity|]. split; reflexivity.
  - intros (msg & code & H). discriminate H.
Qed.

(** ** The theorems at the requests of the example *)

Lemma C4_crop_clips_witness :
  Image.Bounds (crop Example.img100 (0, 0, 200, 100)) = Image.Rect 0 0 100 100.
Proof.
  destruct (C4_crop_clips Example.platform Example.saveDir Example.world
              Requests.wide_box {| data := [x00]; modTime := 0 |}
              Example.img100 0 0 200 100) as (_ & H & _).
  - apply example_decoded. reflexivity.
  - reflexivity.
  - rewrite H. reflexivity.
Defined.

Lemma C5_no_partial_writes_witness :
  snd (saveHandler Example.platform Example.saveDir 1000000 Example.token
         Example.world Requests.wrong_token)
  = files Example.world.
Proof.
  destruct (C5_no_partial_writes Example.platform Example.saveDir 1000000
              Example.token Example.world Requests.wrong_token) as (_ & H & _).
  - right. right. left. vm_compute. discriminate.
  - exact H.
Defined.

Lemma C6_unauthorized_witness :
  saveHandler Example.platform Example.saveDir 1000000 Example.token
    Example.world Requests.wrong_token
  = (Error "Unauthorized" StatusUnauthorized, files Example.world).
Proof.
  apply C6_unauthorized.
  - reflexivity.
  - right. vm_compute. discriminate.
Defined.

Lemma C9_nolabel_witness :
  scaledHandler Example.platform Example.saveDir Example.world
    Requests.unlabelled
  = renderUnlabelled Example.platform Example.saveDir Example.world
      Requests.unlabelled.
Proof.
  apply (proj1 (C9_nolabel Example.platform Example.saveDir Example.world
                  Requests.unlabelled
                  ltac:(vm_compute; discriminate))).
Defined.

(** ** The integers that [strconv] parses *)

Lemma digit_facts c :
  (Spec.is_digit c = true ->
     Strconv.digit_val (Str.code c) = Some (Str.code c - 48)
     /\ 0 <= Str.code c - 48 <= 9
     /\ (Str.code c - 48) mod 256 = Str.code c - 48)
  /\ (Spec.is_digit c = false ->
        (Strconv.digit_val (Str.code c) = None
         \/ exists d, Strconv.digit_val (Str.code c) = Some d /\ 10 <= d)
        /\ 9 < (Str.code c - 48) mod 256).
Proof.
  destruct c as [[] [] [] [] [] [] [] []];
    (split; intros H; try discriminate H;
     first
       [ split; [reflexivity | split; [vm_compute; split; congruence | reflexivity]]
       | split; [first [left; reflexivity
                       | right; eexists; split; [reflexivity | vm_compute; congruence]]
                | reflexivity] ]).
Qed.

Lemma dec_value_from_bounds s : forall n,
  Spec.all_bytes Spec.is_digit s = true -> 0 <= n ->
  n <= Spec.dec_value_from n s < (n + 1) * 10 ^ Str.len s.
Proof.
  induction s as [|c s IH]; intros n H Hn.
  - unfold Str.len. simpl. lia.
  - simpl in H. apply andb_true_iff in H. destruct H as [Hc Hs].
    destruct (proj1 (digit_facts c) Hc) as (_ & Hd & _).
    specialize (IH (n * 10 + (Str.code c - 48)) Hs ltac:(lia)).
    assert (Hlen : Str.len (String c s) = Str.len s + 1)
      by (unfold Str.len; simpl String.length; lia).
    assert (Hs0 : 0 <= Str.len s) by (unfold Str.len; lia).
    rewrite Hlen, Z.pow_add_r by lia. change (10 ^ 1) with 10.
    assert (Hp : 0 < 10 ^ Str.len s) by (apply Z.pow_pos_nonneg; lia).
    simpl Spec.dec_value_from. nia.
Qed.

Lemma parse_loop_dec maxVal s : forall n,
  0 <= n <= maxVal -> maxVal <= Strconv.maxUint64 ->
  match Strconv.parse_loop 10 (Strconv.maxUint64 / 10 + 1) maxVal s n with
  | Strconv.Ok v =>
      Spec.all_bytes Spec.is_digit s = true
      /\ v = Spec.dec_value_from n s /\ v <= maxVal
  | Strconv.Err _ =>
      ~ (Spec.all_bytes Spec.is_digit s = true
         /\ Spec.dec_value_from n s <= maxVal)
  end.
Proof.
  change (Strconv.maxUint64 / 10 + 1) with 1844674407370955162.
  unfold Strconv.maxUint64.
  induction s as [|c s IH]; intros n Hn Hmax.
  - simpl. repeat split; lia.
  - simpl Strconv.parse_loop. simpl Spec.all_bytes. simpl Spec.dec_value_from.
    destruct (Spec.is_digit c) eqn:Hc.
    + destruct (proj1 (digit_facts c) Hc) as (Hd & Hr & _).
      rewrite Hd. set (d := Str.code c - 48) in *.
      replace (10 <=? d) with false by (symmetry; apply Z.leb_gt; lia).
      destruct (Z.leb_spec 1844674407370955162 n) as [Hcut|Hcut].
      { intros [Hs Hv]. simpl in Hs.
        pose proof (dec_value_from_bounds s (n * 10 + d) Hs ltac:(lia)). lia. }
      destruct (Z.lt_ge_cases (n * 10 + d) (2 ^ 64)) as [Hsmall|Hbig].
      * rewrite (Z.mod_small (n * 10 + d)) by lia.
        replace (n * 10 + d <? n * 10) with false
          by (symmetry; apply Z.ltb_ge; lia).
        destruct (Z.ltb_spec maxVal (n * 10 + d)) as [Hover|Hfit]; simpl orb; cbv iota.
        { intros [Hs Hv]. simpl in Hs.
          pose proof (dec_value_from_bounds s (n * 10 + d) Hs ltac:(lia)). lia. }
        specialize (IH (n * 10 + d) ltac:(lia) Hmax).
        destruct (Strconv.parse_loop 10 1844674407370955162 maxVal s (n * 10 + d));
          simpl andb; tauto.
      * assert (Hw : (n * 10 + d) mod 2 ^ 64 = n * 10 + d - 2 ^ 64).
        { symmetry. apply (Z.mod_unique _ _ 1); lia. }
        rewrite Hw.
        replace (n * 10 + d - 2 ^ 64 <? n * 10) with true
          by (symmetry; apply Z.ltb_lt; lia).
        simpl orb. cbv iota.
        intros [Hs Hv]. simpl in Hs.
        pose proof (dec_value_from_bounds s (n * 10 + d) Hs ltac:(lia)). lia.
    + destruct (proj2 (digit_facts c) Hc) as ([Hd|(d & Hd & Hr)] & _); rewrite Hd.
      * simpl. intros [H _]. discriminate.
      * replace (10 <=? d) with true by (symmetry; apply Z.leb_le; lia).
        simpl. intros [H _]. discriminate.
Qed.

Lemma atoi_fast_loop_dec s : forall n,
  match Strconv.atoi_fast_loop s n with
  | Strconv.Ok v =>
      Spec.all_bytes Spec.is_digit s = true /\ v = Spec.dec_value_from n s
  | Strconv.Err _ => Spec.all_bytes Spec.is_digit s = false
  end.
Proof.
  induction s as [|c s IH]; intros n; simpl; [auto|].
  destruct (Spec.is_digit c) eqn:Hc.
  - destruct (proj1 (digit_facts c) Hc) as (_ & Hr & Hm). rewrite Hm.
    replace (9 <? Str.code c - 48) with false by (symmetry; apply Z.ltb_ge; lia).
    apply IH.
  - destruct (proj2 (digit_facts c) Hc) as (_ & Hm).
    replace (9 <? (Str.code c - 48) mod 256) with true
      by (symmetry; apply Z.ltb_lt; lia).
    reflexivity.
Qed.

Lemma ParseUint_dec s bitSize :
  1 <= bitSize <= 64 ->
  match Strconv.ParseUint s 10 bitSize with
  | Strconv.Ok v =>
      Spec.is_nonneg_integer s = true
      /\ v = Spec.dec_value s /\ 0 <= v < 2 ^ bitSize
  | Strconv.Err _ =>
      ~ (Spec.is_nonneg_integer s = true /\ Spec.dec_value s < 2 ^ bitSize)
  end.
Proof.
  intros Hb. unfold Strconv.ParseUint, Spec.is_nonneg_integer, Spec.dec_value.
  destruct (Str.is_empty s) eqn:E; simpl negb; simpl andb.
  - intros [H _]. discriminate.
  - assert (Hp : 2 ^ 1 <= 2 ^ bitSize <= 2 ^ 64)
      by (split; apply Z.pow_le_mono_r; lia).
    pose proof (parse_loop_dec (2 ^ bitSize - 1) s 0 ltac:(lia)
                  ltac:(unfold Strconv.maxUint64; lia)) as H.
    destruct (Strconv.parse_loop 10 _ _ s 0) as [v|e].
    + destruct H as (Hd & Hv & Hm). repeat split; try assumption; try lia.
      subst v. apply dec_value_from_bounds; [assumption | lia].
    + intros [Hd Hv]. apply H. split; [assumption | lia].
Qed.

Lemma is_nonneg_integer_bounds s :
  Spec.is_nonneg_integer s = true ->
  0 <= Spec.dec_value s < 10 ^ Str.len s.
Proof.
  unfold Spec.is_nonneg_integer, Spec.dec_value.
  intros H. apply andb_true_iff in H. destruct H as [_ H].
  pose proof (dec_value_from_bounds s 0 H ltac:(lia)). lia.
Qed.

Lemma len_String c s : Str.len (String c s) = Str.len s + 1.
Proof. unfold Str.len. simpl String.length. lia. Qed.

Lemma len_nonneg s : 0 <= Str.len s.
Proof. unfold Str.len. lia. Qed.

Lemma len_is_empty s : Str.is_empty s = (Str.len s <? 1).
Proof.
  destruct s; [reflexivity|]. rewrite len_String.
  pose proof (len_nonneg s). symmetry. apply Z.ltb_ge. lia.
Qed.

(** The fast path of [Atoi] on a string of fewer than 19 bytes. *)
Lemma Atoi_fast s :
  0 < Str.len s < 19 ->
  match Strconv.Atoi s with
  | Strconv.Ok v =>
      Spec.is_integer s = true /\ v = Spec.integer_value s
      /\ - 2 ^ 63 <= v < 2 ^ 63
  | Strconv.Err _ => Spec.is_integer s = false
  end.
Proof.
  intros Hlen. unfold Strconv.Atoi.
  replace ((0 <? Str.len s) && (Str.len s <? 19)) with true
    by (symmetry; apply andb_true_iff; rewrite !Z.ltb_lt; lia).
  destruct s as [|c s]; [reflexivity|].
  rewrite len_String in Hlen. pose proof (len_nonneg s) as Hs0.
  assert (Hpow : forall k, 0 <= k <= 18 -> 10 ^ k < 2 ^ 63).
  { intros k Hk. apply Z.le_lt_trans with (10 ^ 18); [|reflexivity].
    apply Z.pow_le_mono_r; lia. }
  unfold Spec.is_integer, Spec.integer_value.
  destruct (Ascii.eqb c "-") eqn:Em; simpl orb; cbv iota.
  - rewrite <- len_is_empty. unfold Spec.is_nonneg_integer.
    destruct (Str.is_empty s) eqn:Ee; simpl; [reflexivity|].
    pose proof (atoi_fast_loop_dec s 0) as H.
    destruct (Strconv.atoi_fast_loop s 0) as [n|e]; [|exact H].
    destruct H as [Hd Hv]. split; [exact Hd|]. split; [now subst n|].
    pose proof (dec_value_from_bounds s 0 Hd ltac:(lia)).
    pose proof (Hpow (Str.len s) ltac:(lia)). lia.
  - destruct (Ascii.eqb c "+") eqn:Ep; cbv iota.
    + rewrite <- len_is_empty. unfold Spec.is_nonneg_integer.
      destruct (Str.is_empty s) eqn:Ee; simpl; [reflexivity|].
      pose proof (atoi_fast_loop_dec s 0) as H.
      destruct (Strconv.atoi_fast_loop s 0) as [n|e]; [|exact H].
      destruct H as [Hd Hv]. split; [exact Hd|]. split; [now subst n|].
      pose proof (dec_value_from_bounds s 0 Hd ltac:(lia)).
      pose proof (Hpow (Str.len s) ltac:(lia)). lia.
    + simpl andb. cbv iota. unfold Spec.is_nonneg_integer.
      cbv [Str.is_empty negb]. rewrite andb_true_l.
      pose proof (atoi_fast_loop_dec (String c s) 0) as H.
      destruct (Strconv.atoi_fast_loop (String c s) 0) as [n|e]; [|exact H].
      destruct H as [Hd Hv]. split; [exact Hd|]. split; [now subst n|].
      pose proof (dec_value_from_bounds (String c s) 0 Hd ltac:(lia)) as Hb.
      rewrite len_String in Hb.
      pose proof (Hpow (Str.len s + 1) ltac:(lia)). unfold Spec.dec_value. lia.
Qed.

Lemma ParseInt10_body body (neg : bool) :
  match
    match Strconv.ParseUint body 10 64 with
    | Strconv.Err Strconv.ErrSyntax => Strconv.Err Strconv.ErrSyntax
    | Strconv.Err Strconv.ErrRange => Strconv.Err Strconv.ErrRange
    | Strconv.Ok un =>
        if negb neg && (2 ^ 63 <=? un) then Strconv.Err Strconv.ErrRange
        else if neg && (2 ^ 63 <? un) then Strconv.Err Strconv.ErrRange
        else Strconv.Ok (if neg then - un else un)
    end
  with
  | Strconv.Ok v =>
      Spec.is_nonneg_integer body = true
      /\ v = (if neg then - Spec.dec_value body else Spec.dec_value body)
      /\ - 2 ^ 63 <= v < 2 ^ 63
  | Strconv.Err _ =>
      ~ (Spec.is_nonneg_integer body = true
         /\ - 2 ^ 63 <= (if neg then - Spec.dec_value body
                         else Spec.dec_value body) < 2 ^ 63)
  end.
Proof.
  pose proof (ParseUint_dec body 64 ltac:(lia)) as H.
  destruct (Strconv.ParseUint body 10 64) as [un|e].
  - destruct H as (Hd & Hv & Hr). subst un.
    destruct neg; simpl negb; simpl andb; cbv iota.
    + destruct (Z.ltb_spec (2 ^ 63) (Spec.dec_value body)).
      * intros [_ Hrange]. lia.
      * repeat split; try assumption; lia.
    + destruct (Z.leb_spec (2 ^ 63) (Spec.dec_value body)).
      * intros [_ Hrange]. lia.
      * repeat split; try assumption; lia.
  - assert (He : ~ (Spec.is_nonneg_integer body = true
                    /\ - 2 ^ 63 <= (if neg then - Spec.dec_value body
                                    else Spec.dec_value body) < 2 ^ 63)).
    { intros [Hd Hrange]. apply H. split; [exact Hd|]. destruct neg; lia. }
    destruct e; exact He.
Qed.

(** [ParseInt(s, 10, 0)], the path of [Atoi] for the other strings. *)
Lemma ParseInt10_dec s :
  match Strconv.ParseInt10 s with
  | Strconv.Ok v =>
      Spec.is_integer s = true /\ v = Spec.integer_value s
      /\ - 2 ^ 63 <= v < 2 ^ 63
  | Strconv.Err _ =>
      ~ (Spec.is_integer s = true /\ - 2 ^ 63 <= Spec.integer_value s < 2 ^ 63)
  end.
Proof.
  unfold Strconv.ParseInt10.
  destruct s as [|c s]; [intros [H _]; discriminate|].
  unfold Spec.is_integer, Spec.integer_value. cbv zeta.
  destruct (Ascii.eqb c "-") eqn:Em.
  - rewrite orb_true_r. simpl orb. cbv iota. exact (ParseInt10_body s true).
  - destruct (Ascii.eqb c "+") eqn:Ep; simpl orb; cbv iota.
    + exact (ParseInt10_body s false).
    + exact (ParseInt10_body (String c s) false).
Qed.

Lemma Atoi_dec s :
  match Strconv.Atoi s with
  | Strconv.Ok v =>
      Spec.is_integer s = true /\ v = Spec.integer_value s
      /\ - 2 ^ 63 <= v < 2 ^ 63
  | Strconv.Err _ =>
      ~ (Spec.is_integer s = true /\ - 2 ^ 63 <= Spec.integer_value s < 2 ^ 63)
  end.
Proof.
  destruct (Z.ltb_spec 0 (Str.len s)) as [H0|H0];
    [destruct (Z.ltb_spec (Str.len s) 19) as [H1|H1]|].
  - pose proof (Atoi_fast s ltac:(lia)) as H.
    destruct (Strconv.Atoi s); [exact H | intros [Hi _]; congruence].
  - unfold Strconv.Atoi.
    replace ((0 <? Str.len s) && (Str.len s <? 19)) with false
      by (symmetry; apply andb_false_iff; right; apply Z.ltb_ge; lia).
    apply ParseInt10_dec.
  - unfold Strconv.Atoi.
    replace ((0 <? Str.len s) && (Str.len s <? 19)) with false
      by (symmetry; apply andb_false_iff; left; apply Z.ltb_ge; lia).
    apply ParseInt10_dec.
Qed.

(** A box parameter is accepted when it is empty or a signed decimal
    integer of the range of [int]. *)
Lemma coord_ok_iff s :
  coord_ok s = true
  <-> s = "" \/ (Spec.is_integer s = true
                 /\ - 2 ^ 63 <= Spec.integer_value s < 2 ^ 63).
Proof.
  unfold coord_ok. pose proof (Atoi_dec s) as H.
  destruct s as [|c s]; [simpl; split; [intros _; now left | reflexivity]|].
  cbv [Str.is_empty]. rewrite orb_false_l.
  destruct (Strconv.Atoi (String c s)) as [v|e]; cbv [Strconv.is_ok].
  - destruct H as (H1 & -> & H2).
    split; [intros _; right; split; [assumption | lia] | reflexivity].
  - split; [discriminate | intros [Hs|Hs]; [discriminate | tauto]].
Qed.

(** The width is accepted when it is empty or an unsigned decimal integer
    below [2 ^ 32]. *)
Lemma width_ok_iff s :
  width_ok s = true
  <-> s = "" \/ (Spec.is_nonneg_integer s = true /\ Spec.dec_value s < 2 ^ 32).
Proof.
  unfold width_ok. pose proof (ParseUint_dec s 32 ltac:(lia)) as H.
  destruct s as [|c s]; [simpl; split; [intros _; now left | reflexivity]|].
  cbv [Str.is_empty]. rewrite orb_false_l.
  destruct (Strconv.ParseUint (String c s) 10 32) as [v|e]; cbv [Strconv.is_ok].
  - destruct H as (H1 & -> & H2).
    split; [intros _; right; split; [assumption | lia] | reflexivity].
  - split; [discriminate | intros [Hs|Hs]; [discriminate | tauto]].
Qed.

(** ** The parameters of the render *)

Lemma coord_block s (dflt : Z) msg :
  let block :=
    if Str.is_empty s then Continue dflt
    else match Strconv.Atoi s with
         | Strconv.Ok v => Continue v
         | Strconv.Err _ => Return (Error msg StatusBadRequest)
         end in
  (coord_ok s = false -> block = Return (Error msg StatusBadRequest))
  /\ (coord_ok s = true -> exists v, block = Continue v).
Proof.
  unfold coord_ok. destruct (Str.is_empty s); simpl.
  - split; [discriminate | eauto].
  - destruct (Strconv.Atoi s); simpl; split; try discriminate; eauto.
Qed.

Lemma width_block P r subImg :
  (width_ok (Get (Query r) "w") = false ->
     scale P r subImg = Return (Error "Invalid w parameter" StatusBadRequest))
  /\ (width_ok (Get (Query r) "w") = true ->
        exists scaled, scale P r subImg = Continue scaled).
Proof.
  unfold width_ok, scale. destruct (Str.is_empty (Get (Query r) "w")); simpl.
  - split; [discriminate | eauto].
  - destruct (Strconv.ParseUint _ 10 32); simpl; split; try discriminate; eauto.
Qed.

(** C3 as amended.  For a request that passes the filename check and whose
    file is found and decoded: the box parameters are read as signed decimal
    integers of the range of [int], the width as an unsigned decimal integer
    below [2 ^ 32], the empty string as an absent parameter; the first of
    [x1], [y1], [x2], [y2], [w] that is present and does not parse so ends
    the render with [400 Invalid <field> parameter]; and when all five are
    accepted the response is that of the encoder. *)
Theorem C3_parameter_errors P saveDir w (r : Request) imgFile img :
  decoded P saveDir w r imgFile img ->
  let q := fun key => Get (Query r) key in
  let resp := scaledHandler P saveDir w r in
  (coord_ok (q "x1") = false ->
     resp = Error "Invalid x1 parameter" StatusBadRequest)
  /\ (coord_ok (q "x1") = true -> coord_ok (q "y1") = false ->
        resp = Error "Invalid y1 parameter" StatusBadRequest)
  /\ (coord_ok (q "x1") = true -> coord_ok (q "y1") = true ->
      coord_ok (q "x2") = false ->
        resp = Error "Invalid x2 parameter" StatusBadRequest)
  /\ (coord_ok (q "x1") = true -> coord_ok (q "y1") = true ->
      coord_ok (q "x2") = true -> coord_ok (q "y2") = false ->
        resp = Error "Invalid y2 parameter" StatusBadRequest)
  /\ (coord_ok (q "x1") = true -> coord_ok (q "y1") = true ->
      coord_ok (q "x2") = true -> coord_ok (q "y2") = true ->
      width_ok (q "w") = false ->
        resp = Error "Invalid w parameter" StatusBadRequest)
  /\ (coord_ok (q "x1") = true -> coord_ok (q "y1") = true ->
      coord_ok (q "x2") = true -> coord_ok (q "y2") = true ->
      width_ok (q "w") = true ->
        exists rgbaImg, resp = encode rgbaImg)
  /\ (forall s, coord_ok s = true
        <-> s = "" \/ (Spec.is_integer s = true
                       /\ - 2 ^ 63 <= Spec.integer_value s < 2 ^ 63))
  /\ (forall s, width_ok s = true
        <-> s = "" \/ (Spec.is_nonneg_integer s = true
                       /\ Spec.dec_value s < 2 ^ 32)).
Proof.
  intros Hd q resp. unfold resp, q.
  rewrite (scaledHandler_decoded _ _ _ _ _ _ Hd). unfold resolveBox.
  destruct (coord_block (Get (Query r) "x1") 0 "Invalid x1 parameter")
    as [Hx1 Hx1'].
  destruct (coord_block (Get (Query r) "y1") 0 "Invalid y1 parameter")
    as [Hy1 Hy1'].
  destruct (coord_block (Get (Query r) "x2")
              (Image.X (Image.Max (Image.Bounds img))) "Invalid x2 parameter")
    as [Hx2 Hx2'].
  destruct (coord_block (Get (Query r) "y2")
              (Image.Y (Image.Max (Image.Bounds img))) "Invalid y2 parameter")
    as [Hy2 Hy2'].
  cbv zeta in *.
  repeat apply conj; try apply coord_ok_iff; try apply width_ok_iff.
  - intros H1. now rewrite (Hx1 H1).
  - intros H1 H2. destruct (Hx1' H1) as [v1 ->]. now rewrite (Hy1 H2).
  - intros H1 H2 H3. destruct (Hx1' H1) as [v1 ->]. destruct (Hy1' H2) as [v2 ->].
    now rewrite (Hx2 H3).
  - intros H1 H2 H3 H4. destruct (Hx1' H1) as [v1 ->].
    destruct (Hy1' H2) as [v2 ->]. destruct (Hx2' H3) as [v3 ->].
    now rewrite (Hy2 H4).
  - intros H1 H2 H3 H4 H5. destruct (Hx1' H1) as [v1 ->].
    destruct (Hy1' H2) as [v2 ->]. destruct (Hx2' H3) as [v3 ->].
    destruct (Hy2' H4) as [v4 ->]. cbn [bind]. unfold cropAndScale.
    now rewrite (proj1 (width_block P r (crop img (v1, v2, v3, v4))) H5).
  - intros H1 H2 H3 H4 H5. destruct (Hx1' H1) as [v1 ->].
    destruct (Hy1' H2) as [v2 ->]. destruct (Hx2' H3) as [v3 ->].
    destruct (Hy2' H4) as [v4 ->]. cbn [bind]. unfold cropAndScale.
    destruct (proj2 (width_block P r (crop img (v1, v2, v3, v4))) H5)
      as [scaled ->].
    cbn [bind run]. eauto.
Qed.

Lemma C3_parameter_errors_witness :
  scaledHandler Example.platform Example.saveDir Example.world
    Requests.bad_width
  = Error "Invalid w parameter" StatusBadRequest.
Proof.
  destruct (C3_parameter_errors Example.platform Example.saveDir Example.world
              Requests.bad_width {| data := [x00]; modTime := 0 |}
              Example.img100) as (_ & _ & _ & _ & H & _).
  - apply example_decoded. reflexivity.
  - apply H; reflexivity.
Defined.

(** C3 as stated fails: [x1=-5] is present and is not a non-negative
    integer, and the render is not ended: the response is 200 with an
    image. *)
Lemma C3_negative_coordinate_counterexample :
  Get (Query Requests.negative_x1) "x1" = "-5"
  /\ Spec.is_nonneg_integer "-5" = false
  /\ Strconv.Atoi "-5" = Strconv.Ok (-5)
  /\ (exists out,
        scaledHandler Example.platform Example.saveDir Example.world
          Requests.negative_x1 = Jpeg out)
  /\ scaledHandler Example.platform Example.saveDir Example.world
       Requests.negative_x1
     <> Error "Invalid x1 parameter" StatusBadRequest.
Proof.
  repeat split; try reflexivity.
  - eexists. reflexivity.
  - discriminate.
Qed.

(** ** The arithmetic of [float64] *)

Module Float64Facts.
Import FloatReal.

Lemma bpow_pos e : (0 < bpow e)%R.
Proof. apply powerRZ_lt. lra. Qed.

Lemma bpow_add a b : bpow (a + b) = (bpow a * bpow b)%R.
Proof. apply powerRZ_add. lra. Qed.

Lemma bpow_succ e : bpow (e + 1) = (2 * bpow e)%R.
Proof. rewrite bpow_add. unfold bpow at 2. simpl. lra. Qed.

Lemma bpow_IZR k : 0 <= k -> bpow k = IZR (2 ^ k).
Proof.
  intros H. destruct k as [|p|p]; [reflexivity | | lia].
  unfold bpow. symmetry. apply (Zpower_pos_powerRZ 2 p).
Qed.

Lemma digits2_pos_bounds p :
  2 ^ (Zpos (digits2_pos p) - 1) <= Zpos p < 2 ^ Zpos (digits2_pos p).
Proof.
  induction p as [p IH|p IH|]; simpl digits2_pos.
  - rewrite Pos2Z.inj_succ.
    replace (Z.succ (Z.pos (digits2_pos p)) - 1) with (Z.pos (digits2_pos p))
      by lia.
    rewrite Z.pow_succ_r by lia.
    replace (2 ^ Z.pos (digits2_pos p))
      with (2 * 2 ^ (Z.pos (digits2_pos p) - 1)) in *
      by (rewrite <- Z.pow_succ_r by lia; f_equal; lia).
    lia.
  - rewrite Pos2Z.inj_succ.
    replace (Z.succ (Z.pos (digits2_pos p)) - 1) with (Z.pos (digits2_pos p))
      by lia.
    rewrite Z.pow_succ_r by lia.
    replace (2 ^ Z.pos (digits2_pos p))
      with (2 * 2 ^ (Z.pos (digits2_pos p) - 1)) in *
      by (rewrite <- Z.pow_succ_r by lia; f_equal; lia).
    lia.
  - simpl. lia.
Qed.

Lemma Zdigits2_bounds m :
  0 < m -> 2 ^ (Zdigits2 m - 1) <= m < 2 ^ Zdigits2 m /\ 0 < Zdigits2 m.
Proof.
  destruct m as [|p|p]; try lia. intros _. simpl. split; [apply digits2_pos_bounds | lia].
Qed.

Lemma Zdigits2_unique m k :
  0 < k -> 2 ^ (k - 1) <= m < 2 ^ k -> Zdigits2 m = k.
Proof.
  intros Hk Hm.
  assert (0 < m) by (pose proof (Z.pow_pos_nonneg 2 (k - 1)); lia).
  destruct (Zdigits2_bounds m H) as [Hd Hp].
  destruct (Z.lt_trichotomy (Zdigits2 m) k) as [Hlt|[Heq|Hgt]]; [|exact Heq|].
  - assert (2 ^ Zdigits2 m <= 2 ^ (k - 1)) by (apply Z.pow_le_mono_r; lia). lia.
  - assert (2 ^ k <= 2 ^ (Zdigits2 m - 1)) by (apply Z.pow_le_mono_r; lia). lia.
Qed.

(** One step of the right shift keeps the number that the record stands
    for, one exponent higher. *)
Lemma shr_1_located x e mrs :
  located x e mrs -> located x (e + 1) (shr_1 mrs).
Proof.
  destruct mrs as [m r s]. unfold located. simpl shr_m. simpl shr_r. simpl shr_s.
  intros (Hm & d & Hx & Hl).
  rewrite bpow_succ.
  assert (Hcases : forall (m' : Z) (b : bool),
     m = 2 * m' + (if b then 1 else 0) -> 0 <= m' ->
     0 <= m' /\ exists d', x = ((IZR m' + d') * (2 * bpow e))%R /\ loc_ok b (r || s) d').
  { intros m' b Hmb Hm'. split; [exact Hm'|].
    exists ((d + (if b then 1 else 0)) / 2)%R. split.
    - rewrite Hx, Hmb, plus_IZR, mult_IZR. destruct b; simpl; lra.
    - destruct b, r, s; simpl in *; lra. }
  destruct m as [|[p|p|]|p]; simpl; try lia.
  - apply (Hcases 0 false); lia.
  - apply (Hcases (Zpos p) true); lia.
  - apply (Hcases (Zpos p) false); lia.
  - apply (Hcases 0 true); lia.
Qed.

Lemma shr_1_m mrs : 0 <= shr_m mrs -> shr_m (shr_1 mrs) = shr_m mrs / 2.
Proof.
  destruct mrs as [m r s]. simpl. intros H.
  destruct m as [|[p|p|]|p]; simpl; try lia; try reflexivity.
  - rewrite Pos2Z.inj_xI. apply (Z.div_unique _ _ _ 1); lia.
  - rewrite Pos2Z.inj_xO. apply (Z.div_unique _ _ _ 0); lia.
Qed.

Lemma iter_pos_located x n : forall e mrs,
  located x e mrs -> located x (e + Zpos n) (SpecFloat.iter_pos shr_1 n mrs)
  /\ shr_m (SpecFloat.iter_pos shr_1 n mrs) = shr_m mrs / 2 ^ Zpos n.
Proof.
  induction n as [n IH|n IH|]; intros e mrs H; simpl SpecFloat.iter_pos.
  - pose proof (shr_1_located _ _ _ H) as H1.
    destruct (IH _ _ H1) as [H2 E2]. destruct (IH _ _ H2) as [H3 E3].
    split.
    + replace (e + Z.pos n~1) with (e + 1 + Z.pos n + Z.pos n) by lia. exact H3.
    + rewrite E3, E2, shr_1_m by apply H.
      assert (Hp : 0 < 2 ^ Z.pos n) by (apply Z.pow_pos_nonneg; lia).
      replace (2 ^ Z.pos n~1) with (2 * 2 ^ Z.pos n * 2 ^ Z.pos n)
        by (replace (Z.pos n~1) with (1 + Z.pos n + Z.pos n) by lia;
            rewrite !Z.pow_add_r by lia; reflexivity).
      rewrite <- !Z.div_div by lia. reflexivity.
  - destruct (IH _ _ H) as [H2 E2]. destruct (IH _ _ H2) as [H3 E3].
    split.
    + replace (e + Z.pos n~0) with (e + Z.pos n + Z.pos n) by lia. exact H3.
    + rewrite E3, E2.
      assert (Hp : 0 < 2 ^ Z.pos n) by (apply Z.pow_pos_nonneg; lia).
      replace (2 ^ Z.pos n~0) with (2 ^ Z.pos n * 2 ^ Z.pos n)
        by (replace (Z.pos n~0) with (Z.pos n + Z.pos n) by lia;
            rewrite !Z.pow_add_r by lia; reflexivity).
      rewrite <- !Z.div_div by lia. reflexivity.
  - split; [now apply shr_1_located | now apply shr_1_m; apply H].
Qed.

Lemma fexp_normal k : -1021 <= k -> fexp 53 1024 k = k - 53.
Proof. intros H. unfold fexp, emin. lia. Qed.

Lemma round_nearest_even_cases m1 mrs d :
  shr_m mrs = m1 ->
  loc_ok (shr_r mrs) (shr_s mrs) d ->
  let m2 := round_nearest_even m1 (loc_of_shr_record mrs) in
  (m2 = m1 \/ m2 = m1 + 1)
  /\ (IZR m1 + d - 1 / 2 <= IZR m2 <= IZR m1 + d + 1 / 2)%R
  /\ (d = 0%R -> m2 = m1).
Proof.
  destruct mrs as [m r s]. simpl. intros -> Hl.
  destruct r, s; simpl in *.
  - split; [now right|]. rewrite plus_IZR. split; lra.
  - destruct (Z.even m1); (split; [auto|]); try rewrite plus_IZR; split; try lra; auto.
  - split; [now left|]. split; lra.
  - split; [now left|]. split; [lra | auto].
Qed.

(** Rounding to nearest even of a number located at a mantissa of 53 bits
    or more, in the normal range: the result is a float of 53 bits within
    the relative error [eps] of the number, and the number itself when
    nothing is dropped. *)
Lemma binary_round_aux_correct m e l x :
  0 < m -> 53 <= Zdigits2 m ->
  -1074 <= Zdigits2 m + e - 53 <= 970 ->
  located x e (shr_record_of_loc m l) ->
  exists m' e',
    binary_round_aux 53 1024 false m e l = S754_finite false m' e'
    /\ Zdigits2 (Zpos m') = 53
    /\ Zdigits2 m + e - 53 <= e' <= Zdigits2 m + e - 52
    /\ (x * (1 - eps) <= IZR (Zpos m') * bpow e' <= x * (1 + eps))%R
    /\ (l = loc_Exact -> Zdigits2 m = 53 -> (IZR (Zpos m') * bpow e' = x)%R).
Proof.
  intros Hm Hd He Hloc.
  destruct (Zdigits2_bounds m Hm) as [Hmb _].
  remember (Zdigits2 m) as dg eqn:Edg.
  remember (dg - 53) as n eqn:En.
  unfold binary_round_aux, shr_fexp. rewrite <- Edg.
  rewrite fexp_normal by lia.
  replace (dg + e - 53 - e) with n by lia.
  (* the first shift *)
  assert (H1 : exists mrs1,
             shr (shr_record_of_loc m l) e n = (mrs1, e + n)
             /\ located x (e + n) mrs1
             /\ shr_m mrs1 = m / 2 ^ n
             /\ (n = 0 -> mrs1 = shr_record_of_loc m l)).
  { unfold shr. destruct n as [|p|p]; try lia.
    - exists (shr_record_of_loc m l). rewrite Z.add_0_r, Z.pow_0_r, Z.div_1_r.
      split; [reflexivity|]. split; [exact Hloc|].
      split; [destruct l as [|[]]; reflexivity | reflexivity].
    - exists (SpecFloat.iter_pos shr_1 p (shr_record_of_loc m l)).
      destruct (iter_pos_located x p e _ Hloc) as [Ha Hb].
      split; [reflexivity|]. split; [exact Ha|].
      split; [rewrite Hb; destruct l as [|[]]; reflexivity | lia]. }
  destruct H1 as (mrs1 & -> & Hloc1 & Hm1 & Hn0).
  remember (e + n) as e1 eqn:Ee1. remember (m / 2 ^ n) as m1 eqn:Em1.
  assert (Hpn : 0 < 2 ^ n) by (apply Z.pow_pos_nonneg; lia).
  assert (Hm1b : 2 ^ 52 <= m1 < 2 ^ 53).
  { assert (E1 : 2 ^ (dg - 1) = 2 ^ n * 2 ^ 52)
      by (rewrite <- Z.pow_add_r by lia; f_equal; lia).
    assert (E2 : 2 ^ dg = 2 ^ n * 2 ^ 53)
      by (rewrite <- Z.pow_add_r by lia; f_equal; lia).
    rewrite Em1. split.
    - apply Z.div_le_lower_bound; lia.
    - apply Z.div_lt_upper_bound; lia. }
  destruct Hloc1 as (_ & d & Hx & Hl).
  rewrite Hm1 in Hx.
  destruct (round_nearest_even_cases m1 mrs1 d Hm1 Hl) as (Hm2 & Hr & Hex).
  rewrite Hm1.
  remember (round_nearest_even m1 (loc_of_shr_record mrs1)) as m2 eqn:Em2.
  cbv zeta in Hm2, Hr, Hex.
  assert (Hbe : (0 < bpow e1)%R) by apply bpow_pos.
  assert (Hd01 : (0 <= d < 1)%R)
    by (destruct (shr_r mrs1), (shr_s mrs1); simpl in Hl; lra).
  assert (Hm1R : (4503599627370496 <= IZR m1)%R)
    by (apply IZR_le; change (2 ^ 52) with 4503599627370496 in Hm1b; lia).
  assert (Hbound : (x * (1 - eps) <= IZR m2 * bpow e1 <= x * (1 + eps))%R).
  { rewrite Hx. unfold eps. split; nra. }
  assert (Hexact : l = loc_Exact -> dg = 53 -> (IZR m2 * bpow e1)%R = x).
  { intros -> Hdg. assert (n = 0) by lia.
    rewrite (Hn0 H) in Hl. simpl in Hl. rewrite Hx.
    rewrite (Hex Hl). rewrite Hl. lra. }
  destruct (Z.eq_dec m2 (2 ^ 53)) as [Hbig|Hsmall].
  - (* the mantissa overflows to 54 bits: one more shift *)
    rewrite Hbig in *.
    exists (4503599627370496%positive), (e1 + 1).
    split.
    { change (Zdigits2 (2 ^ 53)) with 54. rewrite fexp_normal by (lia).
      replace (54 + e1 - 53 - e1) with 1 by lia.
      simpl shr. cbv iota beta.
      replace (e1 + 1 <=? 1024 - 53) with true
        by (symmetry; apply Z.leb_le; lia).
      reflexivity. }
    split; [reflexivity|].
    split; [lia|].
    rewrite bpow_succ.
    change (IZR (2 ^ 53)) with 9007199254740992%R in *.
    split; [lra|]. intros A B. specialize (Hexact A B). lra.
  - assert (Hm2b : 2 ^ 52 <= m2 < 2 ^ 53) by lia.
    assert (Hdig : Zdigits2 m2 = 53) by (apply Zdigits2_unique; lia).
    destruct m2 as [|p2|p2]; try lia.
    exists p2, e1. split.
    { rewrite Hdig, fexp_normal by (lia).
      replace (53 + e1 - 53 - e1) with 0 by lia.
      simpl shr. cbv iota beta. simpl shr_m. cbv iota beta.
      replace (e1 <=? 1024 - 53) with true
        by (symmetry; apply Z.leb_le; lia).
      reflexivity. }
    split; [exact Hdig|].
    split; [lia|].
    split; [exact Hbound | exact Hexact].
Qed.


Lemma iter_xO m d : Zpos (Pos.iter xO m d) = Zpos m * 2 ^ Zpos d.
Proof.
  change (Pos.iter xO m d) with (shift_pos d m).
  rewrite shift_pos_correct. change (Z.pow_pos 2 d) with (2 ^ Zpos d). lia.
Qed.

Lemma located_exact m e :
  0 <= m -> located (IZR m * bpow e) e (shr_record_of_loc m loc_Exact).
Proof.
  intros H. split; [exact H|]. exists 0%R. simpl. split; [lra | reflexivity].
Qed.

(** Rounding of the integer [m] scaled by [2 ^ e]. *)
Lemma binary_round_correct m e :
  -1074 <= Zdigits2 (Zpos m) + e - 53 <= 970 ->
  exists m' e',
    fin53 (binary_round 53 1024 false m e) m' e'
    /\ Zdigits2 (Zpos m) + e - 53 <= e' <= Zdigits2 (Zpos m) + e - 52
    /\ (val m e * (1 - eps) <= val m' e' <= val m e * (1 + eps))%R
    /\ (Zdigits2 (Zpos m) <= 53 -> val m' e' = val m e).
Proof.
  intros Hr. unfold binary_round, shl_align.
  change (Z.pos (digits2_pos m)) with (Zdigits2 (Zpos m)).
  rewrite fexp_normal by lia.
  remember (Zdigits2 (Zpos m)) as dg eqn:Edg.
  destruct (Zdigits2_bounds (Zpos m) ltac:(lia)) as [Hb Hdpos]. rewrite <- Edg in *.
  destruct (dg + e - 53 - e) as [|k|k] eqn:Ek.
  - destruct (binary_round_aux_correct (Zpos m) e loc_Exact (val m e))
      as (m' & e' & H1 & H2 & H3 & H4 & H5);
      try rewrite <- Edg; try lia; [apply located_exact; lia|].
    exists m', e'.
    split; [split; assumption|]. split; [lia|]. split; [exact H4|].
    intros _. apply H5; [reflexivity | lia].
  - destruct (binary_round_aux_correct (Zpos m) e loc_Exact (val m e))
      as (m' & e' & H1 & H2 & H3 & H4 & H5);
      try rewrite <- Edg; try lia; [apply located_exact; lia|].
    exists m', e'.
    split; [split; assumption|]. split; [lia|]. split; [exact H4|].
    intros ?. lia.
  - assert (Hk : Zpos k = 53 - dg) by lia.
    assert (Hdig : Zdigits2 (Zpos (Pos.iter xO m k)) = 53).
    { apply Zdigits2_unique; [lia|]. rewrite iter_xO, Hk.
      change (53 - 1) with 52.
      assert (E1 : 2 ^ 52 = 2 ^ (dg - 1) * 2 ^ (53 - dg))
        by (rewrite <- Z.pow_add_r by lia; f_equal; lia).
      assert (E2 : 2 ^ 53 = 2 ^ dg * 2 ^ (53 - dg))
        by (rewrite <- Z.pow_add_r by lia; f_equal; lia).
      assert (0 < 2 ^ (53 - dg)) by (apply Z.pow_pos_nonneg; lia).
      rewrite E1, E2. nia. }
    assert (Hval : val m e = (IZR (Zpos (Pos.iter xO m k)) * bpow (dg + e - 53))%R).
    { unfold val. rewrite iter_xO, mult_IZR, <- bpow_IZR by lia.
      rewrite Rmult_assoc, <- bpow_add. do 2 f_equal. lia. }
    destruct (binary_round_aux_correct (Zpos (Pos.iter xO m k)) (dg + e - 53)
                loc_Exact (val m e))
      as (m' & e' & H1 & H2 & H3 & H4 & H5);
      try rewrite Hdig; try lia.
    { rewrite Hval. apply located_exact. lia. }
    exists m', e'.
    split; [split; assumption|]. split; [lia|]. split; [exact H4|].
    intros _. now apply H5.
Qed.

(** An integer below [2 ^ 53] converts to the float of the same value. *)
Lemma of_int_correct z :
  0 < z < 2 ^ 53 ->
  exists m e,
    fin53 (Float64.of_int z) m e
    /\ Zdigits2 z - 53 <= e <= Zdigits2 z - 52
    /\ val m e = IZR z.
Proof.
  intros Hz. destruct z as [|p|p]; try lia.
  unfold Float64.of_int, binary_normalize.
  destruct (Zdigits2_bounds (Zpos p) ltac:(lia)) as [Hb Hd].
  assert (Hdle : Zdigits2 (Zpos p) <= 53).
  { destruct (Z.le_gt_cases (Zdigits2 (Zpos p)) 53); [assumption|].
    assert (2 ^ 53 <= 2 ^ (Zdigits2 (Zpos p) - 1)) by (apply Z.pow_le_mono_r; lia).
    lia. }
  destruct (binary_round_correct p 0 ltac:(lia)) as (m & e & H1 & H2 & _ & H4).
  exists m, e. split; [exact H1|]. split; [lia|].
  rewrite (H4 Hdle). unfold val, bpow. simpl. lra.
Qed.

Lemma Zdigits2_range m a b :
  0 <= a -> 2 ^ a <= m < 2 ^ b -> a < Zdigits2 m <= b.
Proof.
  intros Ha Hm.
  assert (0 < m) by (pose proof (Z.pow_pos_nonneg 2 a); lia).
  destruct (Zdigits2_bounds m H) as [Hd Hp].
  split.
  - destruct (Z.lt_ge_cases a (Zdigits2 m)); [assumption|].
    assert (2 ^ Zdigits2 m <= 2 ^ a) by (apply Z.pow_le_mono_r; lia). lia.
  - destruct (Z.le_gt_cases (Zdigits2 m) b); [assumption|].
    assert (2 ^ b <= 2 ^ (Zdigits2 m - 1)) by (apply Z.pow_le_mono_r; lia). lia.
Qed.

Lemma fin53_bounds f m e : fin53 f m e -> 2 ^ 52 <= Zpos m < 2 ^ 53.
Proof.
  intros [_ H]. destruct (Zdigits2_bounds (Zpos m) ltac:(lia)) as [Hb _].
  rewrite H in Hb. exact Hb.
Qed.

(** The location that the division gives to the remainder [r] of a
    division by [m2]. *)
Lemma new_location_ok q m2 r :
  0 < m2 -> 0 <= r < m2 ->
  loc_ok (shr_r (shr_record_of_loc q (new_location m2 r)))
         (shr_s (shr_record_of_loc q (new_location m2 r)))
         (IZR r / IZR m2).
Proof.
  intros Hm Hr.
  assert (Hm' : (0 < IZR m2)%R) by (apply IZR_lt; lia).
  assert (Hd : (IZR r / IZR m2 * IZR m2 = IZR r)%R) by (field; lra).
  remember (IZR r / IZR m2)%R as d eqn:Ed.
  unfold new_location.
  destruct (Z.even m2) eqn:Hev;
    cbv beta delta [new_location_even new_location_odd];
    (destruct (Z.eqb_spec r 0) as [H0|H0];
     [assert (d = 0%R) by (subst r; nra); simpl; assumption|]);
    assert (Hrpos : (0 < IZR r)%R) by (apply IZR_lt; lia);
    assert (Hrm : (IZR r < IZR m2)%R) by (apply IZR_lt; lia).
  - destruct (Z.compare_spec (2 * r) m2) as [Hc|Hc|Hc]; simpl.
    + assert (IZR (2 * r) = IZR m2) by now rewrite Hc.
      rewrite mult_IZR in H. nra.
    + apply IZR_lt in Hc. rewrite mult_IZR in Hc. split; nra.
    + apply IZR_lt in Hc. rewrite mult_IZR in Hc. split; nra.
  - assert (Hne : 2 * r <> m2).
    { intros E. rewrite <- E, Z.even_mul in Hev. discriminate. }
    destruct (Z.compare_spec (2 * r + 1) m2) as [Hc|Hc|Hc]; simpl.
    + assert (Hlt : 2 * r < m2) by lia. apply IZR_lt in Hlt.
      rewrite mult_IZR in Hlt. split; nra.
    + assert (Hlt : 2 * r < m2) by lia. apply IZR_lt in Hlt.
      rewrite mult_IZR in Hlt. split; nra.
    + assert (Hlt : m2 < 2 * r) by lia. apply IZR_lt in Hlt.
      rewrite mult_IZR in Hlt. split; nra.
Qed.

(** The quotient of two positive floats is within the relative error
    [eps] of the quotient of their values. *)
Lemma div_correct f1 m1 e1 f2 m2 e2 :
  fin53 f1 m1 e1 -> fin53 f2 m2 e2 ->
  -400 <= e1 <= 400 -> -400 <= e2 <= 400 ->
  exists m e,
    fin53 (Float64.div f1 f2) m e
    /\ e1 - e2 - 53 <= e <= e1 - e2 - 51
    /\ (val m1 e1 / val m2 e2 * (1 - eps) <= val m e
        <= val m1 e1 / val m2 e2 * (1 + eps))%R.
Proof.
  intros H1 H2 He1 He2.
  pose proof (fin53_bounds _ _ _ H1) as Hb1.
  pose proof (fin53_bounds _ _ _ H2) as Hb2.
  destruct H1 as [-> Hd1]. destruct H2 as [-> Hd2].
  unfold Float64.div, SFdiv, SFdiv_core_binary.
  rewrite Hd1, Hd2, fexp_normal by lia.
  replace (Z.min (53 + e1 - (53 + e2) - 53) (e1 - e2)) with (e1 - e2 - 53) by lia.
  replace (e1 - e2 - (e1 - e2 - 53)) with 53 by lia. cbv iota.
  rewrite Z.shiftl_mul_pow2 by lia.
  pose proof (Z_div_mod (Zpos m1 * 2 ^ 53) (Zpos m2) ltac:(lia)) as Hdm.
  destruct (Z.div_eucl (Zpos m1 * 2 ^ 53) (Zpos m2)) as [q r].
  destruct Hdm as [Hq Hr].
  assert (Hqb : 2 ^ 52 <= q < 2 ^ 54).
  { change (2 ^ 52) with 4503599627370496 in *.
    change (2 ^ 53) with 9007199254740992 in *.
    change (2 ^ 54) with 18014398509481984 in *. nia. }
  assert (Hqpos : 0 < q) by (change (2 ^ 52) with 4503599627370496 in Hqb; lia).
  pose proof (Zdigits2_range q 52 54 ltac:(lia) Hqb) as Hdq.
  set (x := (val m1 e1 / val m2 e2)%R).
  assert (Hloc : located x (e1 - e2 - 53)
                   (shr_record_of_loc q (new_location (Zpos m2) r))).
  { split; [destruct (new_location (Z.pos m2) r) as [|[]]; simpl; lia|].
    exists (IZR r / IZR (Zpos m2))%R. split.
    - replace (shr_m (shr_record_of_loc q (new_location (Z.pos m2) r))) with q
        by (destruct (new_location (Z.pos m2) r) as [|[]]; reflexivity).
      unfold x, val.
      assert (Hm2 : (0 < IZR (Zpos m2))%R) by (apply IZR_lt; lia).
      pose proof (bpow_pos e2) as Hp2.
      assert (E : bpow e1 = (bpow (e1 - e2 - 53) * bpow e2 * IZR (2 ^ 53))%R).
      { rewrite <- bpow_IZR, <- !bpow_add by lia. f_equal. lia. }
      assert (Hq' : (IZR (Zpos m1) * IZR (2 ^ 53) = IZR (Zpos m2) * IZR q + IZR r)%R).
      { rewrite <- !mult_IZR, <- plus_IZR. now f_equal. }
      rewrite E. field_simplify_eq; [|split; lra]. nra.
    - apply new_location_ok; lia. }
  destruct (binary_round_aux_correct q (e1 - e2 - 53)
              (new_location (Zpos m2) r) x Hqpos ltac:(lia) ltac:(lia) Hloc)
    as (m & e & Hr1 & Hr2 & Hr3 & Hr4 & _).
  exists m, e. split; [split; [exact Hr1 | exact Hr2]|]. split; [lia | exact Hr4].
Qed.

(** The product of two positive floats is within the relative error
    [eps] of the product of their values. *)
Lemma mul_correct f1 m1 e1 f2 m2 e2 :
  fin53 f1 m1 e1 -> fin53 f2 m2 e2 ->
  -400 <= e1 <= 400 -> -400 <= e2 <= 400 ->
  exists m e,
    fin53 (Float64.mul f1 f2) m e
    /\ e1 + e2 + 52 <= e <= e1 + e2 + 54
    /\ (val m1 e1 * val m2 e2 * (1 - eps) <= val m e
        <= val m1 e1 * val m2 e2 * (1 + eps))%R.
Proof.
  intros H1 H2 He1 He2.
  pose proof (fin53_bounds _ _ _ H1) as Hb1.
  pose proof (fin53_bounds _ _ _ H2) as Hb2.
  destruct H1 as [-> Hd1]. destruct H2 as [-> Hd2].
  unfold Float64.mul, SFmul. simpl xorb.
  assert (Hpb : 2 ^ 104 <= Zpos (m1 * m2) < 2 ^ 106).
  { rewrite Pos2Z.inj_mul.
    change (2 ^ 52) with 4503599627370496 in *.
    change (2 ^ 53) with 9007199254740992 in *.
    change (2 ^ 104) with (4503599627370496 * 4503599627370496).
    change (2 ^ 106) with (9007199254740992 * 9007199254740992). nia. }
  pose proof (Zdigits2_range _ 104 106 ltac:(lia) Hpb) as Hdp.
  assert (Hloc : located (val m1 e1 * val m2 e2) (e1 + e2)
                   (shr_record_of_loc (Zpos (m1 * m2)) loc_Exact)).
  { replace (val m1 e1 * val m2 e2)%R with (IZR (Zpos (m1 * m2)) * bpow (e1 + e2))%R.
    - apply located_exact. lia.
    - unfold val. rewrite Pos2Z.inj_mul, mult_IZR, bpow_add. ring. }
  destruct (binary_round_aux_correct (Zpos (m1 * m2)) (e1 + e2) loc_Exact _
              ltac:(lia) ltac:(lia) ltac:(lia) Hloc)
    as (m & e & Hr1 & Hr2 & Hr3 & Hr4 & _).
  exists m, e. split; [split; [exact Hr1 | exact Hr2]|]. split; [lia | exact Hr4].
Qed.

Lemma shl_align_fst m e e' :
  e' <= e -> Zpos (fst (shl_align m e e')) = Zpos m * 2 ^ (e - e').
Proof.
  intros H. unfold shl_align. destruct (e' - e) as [|d|d] eqn:E; simpl fst.
  - replace (e - e') with 0 by lia. lia.
  - lia.
  - rewrite iter_xO. f_equal. f_equal. lia.
Qed.

(** The sum of two positive floats is within the relative error [eps] of
    the sum of their values. *)
Lemma add_correct f1 m1 e1 f2 m2 e2 :
  fin53 f1 m1 e1 -> fin53 f2 m2 e2 ->
  -400 <= e1 <= 400 -> -400 <= e2 <= 400 ->
  exists m e,
    fin53 (Float64.add f1 f2) m e
    /\ ((val m1 e1 + val m2 e2) * (1 - eps) <= val m e
        <= (val m1 e1 + val m2 e2) * (1 + eps))%R.
Proof.
  intros H1 H2 He1 He2.
  pose proof (fin53_bounds _ _ _ H1) as Hb1.
  pose proof (fin53_bounds _ _ _ H2) as Hb2.
  destruct H1 as [-> Hd1]. destruct H2 as [-> Hd2].
  unfold Float64.add, SFadd. cbv zeta. unfold cond_Zopp.
  remember (Z.min e1 e2) as ez eqn:Eez.
  assert (Hez : ez <= e1 /\ ez <= e2 /\ -400 <= ez) by lia.
  rewrite !shl_align_fst by lia.
  assert (Hp1 : 0 < 2 ^ (e1 - ez)) by (apply Z.pow_pos_nonneg; lia).
  assert (Hp2 : 0 < 2 ^ (e2 - ez)) by (apply Z.pow_pos_nonneg; lia).
  remember (Z.max e1 e2 - ez) as k eqn:Ek.
  assert (Hu1 : 2 ^ (e1 - ez) <= 2 ^ k) by (apply Z.pow_le_mono_r; lia).
  assert (Hu2 : 2 ^ (e2 - ez) <= 2 ^ k) by (apply Z.pow_le_mono_r; lia).
  remember (Zpos m1 * 2 ^ (e1 - ez) + Zpos m2 * 2 ^ (e2 - ez)) as S eqn:ES.
  assert (HSb : 2 ^ 52 <= S < 2 ^ (54 + k)).
  { rewrite Z.pow_add_r by lia.
    change (2 ^ 54) with 18014398509481984.
    change (2 ^ 52) with 4503599627370496 in *.
    change (2 ^ 53) with 9007199254740992 in *. nia. }
  pose proof (Zdigits2_range S 52 (54 + k) ltac:(lia) HSb) as HdS.
  destruct S as [|pS|pS]; try (change (2 ^ 52) with 4503599627370496 in HSb; lia).
  unfold binary_normalize.
  destruct (binary_round_correct pS ez ltac:(lia)) as (m & e & Hr1 & _ & Hr3 & _).
  exists m, e. split; [exact Hr1|].
  replace (val m1 e1 + val m2 e2)%R with (val pS ez); [exact Hr3|].
  unfold val. rewrite ES, plus_IZR, !mult_IZR, <- !bpow_IZR by lia.
  rewrite Rmult_plus_distr_r, !Rmult_assoc, <- !bpow_add.
  do 2 f_equal; f_equal; lia.
Qed.

(** [uint(f)] of a positive float below [2 ^ 64] is the integer part of
    its value. *)
Lemma to_uint_correct unrep f m e :
  fin53 f m e -> (val m e < 18446744073709551616)%R ->
  let t := Float64.to_uint unrep f in
  0 <= t /\ (IZR t <= val m e < IZR t + 1)%R.
Proof.
  intros [-> _] Hlt. unfold Float64.to_uint, Float64.trunc.
  assert (Hfloor : let a := if 0 <=? e then Zpos m * 2 ^ e else Zpos m / 2 ^ (- e) in
                   0 <= a /\ (IZR a <= val m e < IZR a + 1)%R).
  { destruct (Z.leb_spec 0 e) as [He|He]; cbv zeta.
    - split; [pose proof (Z.pow_pos_nonneg 2 e); lia|].
      unfold val. rewrite mult_IZR, <- bpow_IZR by lia. lra.
    - assert (Hp : 0 < 2 ^ (- e)) by (apply Z.pow_pos_nonneg; lia).
      pose proof (Z.div_mod (Zpos m) (2 ^ (- e)) ltac:(lia)) as Hdm.
      pose proof (Z.mod_pos_bound (Zpos m) (2 ^ (- e)) Hp) as Hmod.
      split; [apply Z.div_pos; lia|].
      assert (Hv : (val m e * IZR (2 ^ (- e)) = IZR (Zpos m))%R).
      { unfold val. rewrite <- bpow_IZR, Rmult_assoc, <- bpow_add by lia.
        replace (e + - e) with 0 by lia. unfold bpow. simpl. lra. }
      assert (HpR : (0 < IZR (2 ^ (- e)))%R) by (apply IZR_lt; lia).
      remember (Zpos m / 2 ^ (- e)) as a eqn:Ea.
      remember (Zpos m mod 2 ^ (- e)) as rr eqn:Er.
      assert (HmR : (IZR (Zpos m) = IZR (2 ^ (- e)) * IZR a + IZR rr)%R)
        by (rewrite <- mult_IZR, <- plus_IZR; now f_equal).
      assert (Hr0 : (0 <= IZR rr)%R) by (apply IZR_le; lia).
      assert (Hr1 : (IZR rr < IZR (2 ^ (- e)))%R) by (apply IZR_lt; lia).
      split; nra. }
  cbv zeta in Hfloor. destruct Hfloor as [Ha Hb].
  set (a := if 0 <=? e then Zpos m * 2 ^ e else Zpos m / 2 ^ (- e)) in *.
  assert (Ha64 : a < 2 ^ 64).
  { apply lt_IZR. change (IZR (2 ^ 64)) with 18446744073709551616%R. lra. }
  cbv zeta.
  replace ((0 <=? a) && (a <? 2 ^ 64)) with true
    by (symmetry; apply andb_true_iff; rewrite Z.leb_le, Z.ltb_lt; lia).
  split; assumption.
Qed.

(** The constant [0.7] is the float nearest to 7 / 10. *)
Lemma c0_7_nearest :
  Float64.c0_7 = Float64.div (Float64.of_int 7) (Float64.of_int 10).
Proof. reflexivity. Qed.

Lemma c0_7_fin53 : fin53 Float64.c0_7 6305039478318694 (-53).
Proof. split; reflexivity. Qed.

Lemma c0_7_val : (val 6305039478318694 (-53) <= 7 / 10)%R.
Proof. unfold val, bpow. simpl. lra. Qed.

Lemma Zdigits2_small z k : 0 < z < 2 ^ k -> 0 < k -> 1 <= Zdigits2 z <= k.
Proof.
  intros Hz Hk. pose proof (Zdigits2_range z 0 k ltac:(lia) ltac:(simpl; lia)). lia.
Qed.


Section Height.
Variable P : Platform.
Variables W H w : Z.
Hypothesis HW : 0 < W < 2 ^ 16.
Hypothesis HH : 0 < H < 2 ^ 16.
Hypothesis Hw : 0 < w < 2 ^ 32.

Let x : R := (IZR H * IZR w / IZR W)%R.





End Height.

End Float64Facts.

(** ** The size of the scaled image *)

Lemma ParseUint_nonempty s base bitSize v :
  Strconv.ParseUint s base bitSize = Strconv.Ok v -> Str.is_empty s = false.
Proof. unfold Strconv.ParseUint. destruct (Str.is_empty s); congruence. Qed.




(** ** The scenarios of the service on the stored image [test] *)

(** [GET /scaled?filename=test&x2=50&y2=50&nolabel=true]: an image of 50 by
    50 pixels. *)
Example scenario_crop :
  exists out,
    scaledHandler Example.platform Example.saveDir Example.world
      Requests.unlabelled = Jpeg out
    /\ Image.Bounds out = Image.Rect 0 0 50 50.
Proof. eexists. split; reflexivity. Qed.

(** [GET /scaled?filename=doesnotexist]: 404. *)
Example scenario_not_found :
  scaledHandler Example.platform Example.saveDir Example.world
    (Example.get [("filename", "doesnotexist")])
  = Error "File not found" StatusNotFound.
Proof. reflexivity. Qed.

(** [GET /scaled?filename=test&w=abc]: 400, naming the width. *)
Example scenario_bad_width :
  scaledHandler Example.platform Example.saveDir Example.world
    Requests.bad_width
  = Error "Invalid w parameter" StatusBadRequest.
Proof. reflexivity. Qed.

(** An upload with the token stores the file and is answered with 200. *)
Example scenario_upload :
  saveHandler Example.platform Example.saveDir 1000000 Example.token
    Example.world (Example.post "new" "Bearer secret" [x01; x02])
  = (Status StatusOK,
     <["./new.jpg" := {| data := [x01; x02]; modTime := 0 |}]>
       (files Example.world)).
Proof. reflexivity. Qed.

(** * More properties of the handlers *)

(** ** The stages of the render before the parameters *)

(** X1.  The render checks the filename first, then looks the file up,
    then reads its information, then decodes it: an invalid filename is
    answered with 400 whatever else the request holds, a valid name without
    a file with 404 even when other parameters are malformed, a failure of
    the file information or of the decoder with 500; only then are the box
    and the width read. *)
Theorem X1_render_stage_order P saveDir w (r : Request) :
  let filename := Get (Query r) "filename" in
  (Spec.valid_name filename = false ->
     scaledHandler P saveDir w r
     = Error "Invalid or missing filename" StatusBadRequest)
  /\ (Spec.valid_name filename = true ->
      files w !! filePath saveDir filename = None ->
        scaledHandler P saveDir w r = Error "File not found" StatusNotFound)
  /\ (forall imgFile,
        Spec.valid_name filename = true ->
        files w !! filePath saveDir filename = Some imgFile ->
        (statFails w = true ->
           scaledHandler P saveDir w r
           = Error "Error getting file info" StatusInternalServerError)
        /\ (statFails w = false -> jpeg_Decode P (data imgFile) = None ->
              scaledHandler P saveDir w r
              = Error "Error decoding the image" StatusInternalServerError)
        /\ (forall img,
              statFails w = false ->
              jpeg_Decode P (data imgFile) = Some img ->
              decoded P saveDir w r imgFile img)).
Proof.
  cbv zeta. split; [|split].
  - intros H. now apply scaledHandler_filename.
  - intros Hv Hn. unfold scaledHandler. rewrite (checkFilename_valid _ Hv).
    cbn [bind]. unfold loadImage. now rewrite Hn.
  - intros imgFile Hv Hf. split; [|split].
    + intros Hs. unfold scaledHandler. rewrite (checkFilename_valid _ Hv).
      cbn [bind]. unfold loadImage. now rewrite Hf, Hs.
    + intros Hs Hd. unfold scaledHandler. rewrite (checkFilename_valid _ Hv).
      cbn [bind]. unfold loadImage. now rewrite Hf, Hs, Hd.
    + intros img Hs Hd. exists (Get (Query r) "filename").
      split; [now apply checkFilename_valid|].
      unfold loadImage. now rewrite Hf, Hs, Hd.
Qed.

(** ** The upload *)

Lemma saveHandler_Continue P saveDir maxSize token w r filename d :
  validateUpload P maxSize token w r = Continue (filename, d) ->
  saveHandler P saveDir maxSize token w r
  = persist w (filePath saveDir filename) d.
Proof. intros H. unfold saveHandler. now rewrite H. Qed.

Lemma saveHandler_Return P saveDir maxSize token w r resp :
  validateUpload P maxSize token w r = Return resp ->
  saveHandler P saveDir maxSize token w r = (resp, files w).
Proof. intros H. unfold saveHandler. now rewrite H. Qed.

Lemma validateUpload_Return_error P maxSize token w r resp :
  validateUpload P maxSize token w r = Return resp ->
  exists msg code, resp = Error msg code /\ code <> StatusOK.
Proof.
  unfold validateUpload, checkFilename.
  repeat (match goal with
          | |- context [if ?b then _ else _] => destruct b
          | |- context [match ?x with Some _ => _ | None => _ end] => destruct x
          end; cbn [bind]);
    intros H; try discriminate H;
    injection H as <-; eexists _, _; (split; [reflexivity | discriminate]).
Qed.

Lemma saveHandler_success P saveDir maxSize token w r :
  fst (saveHandler P saveDir maxSize token w r) = Status StatusOK ->
  upload_valid P maxSize token r
  /\ readFails w = false /\ createFails w = false
  /\ writeFails w = None
  /\ exists f,
       FormFile r !! "image" = Some f
       /\ isValidJPEG P (readLimited f maxSize) = true
       /\ snd (saveHandler P saveDir maxSize token w r)
            !! filePath saveDir (Get (Query r) "filename")
          = Some {| data := readLimited f maxSize; modTime := now w |}.
Proof.
  destruct (validateUpload P maxSize token w r) as [resp|[filename d]] eqn:E.
  - rewrite (saveHandler_Return _ _ _ _ _ _ _ E). simpl.
    destruct (validateUpload_Return_error _ _ _ _ _ _ E) as (m & c & -> & _).
    discriminate.
  - rewrite (saveHandler_Continue _ _ _ _ _ _ _ _ E).
    destruct (validateUpload_Continue _ _ _ _ _ _ _ E)
      as (Hu & Hr & -> & f & Hf & ->).
    unfold persist. destruct (createFails w); [discriminate|].
    destruct (writeFails w); [discriminate|]. simpl. intros _.
    split; [exact Hu|]. split; [exact Hr|].
    split; [reflexivity|]. split; [reflexivity|].
    exists f. split; [exact Hf|]. split; [|apply lookup_insert_eq].
    destruct Hu as (_ & _ & _ & f' & Hf' & Hj). congruence.
Qed.

(** X2.  The upload is answered with 200 exactly when every check passes
    and the file system does not fail; then the file of the name holds the
    bytes read, with the time of the upload. *)
Theorem X2_upload_success_iff P saveDir maxSize token w (r : Request) :
  (fst (saveHandler P saveDir maxSize token w r) = Status StatusOK
   <-> upload_valid P maxSize token r
       /\ readFails w = false /\ createFails w = false
       /\ writeFails w = None)
  /\ (fst (saveHandler P saveDir maxSize token w r) = Status StatusOK ->
      exists f,
        FormFile r !! "image" = Some f
        /\ snd (saveHandler P saveDir maxSize token w r)
             !! filePath saveDir (Get (Query r) "filename")
           = Some {| data := readLimited f maxSize; modTime := now w |}).
Proof.
  split; [split|].
  - intros H.
    destruct (saveHandler_success _ _ _ _ _ _ H) as (H1 & H2 & H3 & H4 & _).
    auto.
  - intros (Hu & Hr & Hc & Hw).
    destruct (validateUpload_valid P maxSize token w r Hu Hr) as (f & _ & Hv).
    rewrite (saveHandler_Continue _ _ _ _ _ _ _ _ Hv).
    unfold persist. now rewrite Hc, Hw.
  - intros H.
    destruct (saveHandler_success _ _ _ _ _ _ H)
      as (_ & _ & _ & _ & f & Hf & _ & Hl).
    eauto.
Qed.

(** X3.  The checks of the upload come in this order: the method, the
    token, the filename, the form field, the read, the JPEG decoder.  A
    request that is not a POST is answered with 405 whatever its token; a
    POST with the token and a valid filename but without the form field
    [image] with 400; a failed read with 500; bytes that do not decode with
    400. *)
Theorem X3_upload_check_order P saveDir maxSize token w (r : Request) :
  (Method r <> "POST" ->
     saveHandler P saveDir maxSize token w r
     = (Error "Only POST requests are allowed" StatusMethodNotAllowed,
        files w))
  /\ (Method r = "POST" ->
      Get (Header r) "Authorization" = "Bearer " ++ token ->
      Spec.valid_name (Get (Query r) "filename") = true ->
      (FormFile r !! "image" = None ->
         saveHandler P saveDir maxSize token w r
         = (Error "Error reading uploaded file" StatusBadRequest, files w))
      /\ (forall f,
            FormFile r !! "image" = Some f ->
            (readFails w = true ->
               saveHandler P saveDir maxSize token w r
               = (Error "Error reading file data" StatusInternalServerError,
                  files w))
            /\ (readFails w = false ->
                isValidJPEG P (readLimited f maxSize) = false ->
                  saveHandler P saveDir maxSize token w r
                  = (Error "Uploaded file is not a valid JPEG"
                           StatusBadRequest, files w)))).
Proof.
  split.
  - intros Hm. apply String.eqb_neq in Hm.
    unfold saveHandler, validateUpload. now rewrite Hm.
  - intros Hm Ha Hv.
    assert (Hpre : validateUpload P maxSize token w r
      = (uploadedFile <- match FormFile r !! "image" with
                         | None => Return (Error "Error reading uploaded file"
                                                 StatusBadRequest)
                         | Some f => Continue f
                         end ;;
         d <- (if readFails w
               then Return (Error "Error reading file data"
                                  StatusInternalServerError)
               else Continue (readLimited uploadedFile maxSize)) ;;
         _ <- (if negb (isValidJPEG P d)
               then Return (Error "Uploaded file is not a valid JPEG"
                                  StatusBadRequest)
               else Continue tt) ;;
         Continue (Get (Query r) "filename", d))).
    { unfold validateUpload.
      rewrite Hm, Ha, bearer_nonempty, !String.eqb_refl,
        (checkFilename_valid _ Hv). reflexivity. }
    split.
    + intros Hn. apply saveHandler_Return. rewrite Hpre, Hn. reflexivity.
    + intros f Hf. split.
      * intros Hr. apply saveHandler_Return. rewrite Hpre, Hf. cbn [bind].
        rewrite Hr. reflexivity.
      * intros Hr Hj. apply saveHandler_Return. rewrite Hpre, Hf. cbn [bind].
        rewrite Hr. cbn [bind]. rewrite Hj. reflexivity.
Qed.

Lemma persist_other w path d path' :
  path' <> path -> snd (persist w path d) !! path' = files w !! path'.
Proof.
  intros H. unfold persist. destruct (createFails w); [reflexivity|].
  destruct (writeFails w); simpl; now rewrite lookup_insert_ne.
Qed.

(** X4.  An upload touches no other file: whatever the request and the
    outcome, every path other than the one of its filename holds after the
    handler what it held before. *)
Theorem X4_upload_touches_one_file P saveDir maxSize token w (r : Request)
    (path : string) :
  path <> filePath saveDir (Get (Query r) "filename") ->
  snd (saveHandler P saveDir maxSize token w r) !! path = files w !! path.
Proof.
  intros Hp.
  destruct (validateUpload P maxSize token w r) as [resp|[filename d]] eqn:E.
  - now rewrite (saveHandler_Return _ _ _ _ _ _ _ E).
  - rewrite (saveHandler_Continue _ _ _ _ _ _ _ _ E).
    destruct (validateUpload_Continue _ _ _ _ _ _ _ E) as (_ & _ & -> & _).
    now apply persist_other.
Qed.

Lemma X4_upload_touches_one_file_witness :
  snd (saveHandler Example.platform Example.saveDir 1000000 Example.token
         Example.world Uploads.good) !! "./test.jpg"
  = files Example.world !! "./test.jpg".
Proof.
  apply (X4_upload_touches_one_file Example.platform Example.saveDir 1000000
           Example.token Example.world Uploads.good "./test.jpg").
  vm_compute. discriminate.
Defined.

Lemma readLimited_length f maxSize :
  Z.of_nat (List.length (readLimited f maxSize)) <= Z.max 0 maxSize
  /\ (Z.of_nat (List.length f) <= maxSize -> readLimited f maxSize = f)
  /\ exists rest, f = (readLimited f maxSize ++ rest)%list.
Proof.
  unfold readLimited. split; [|split].
  - rewrite length_take. lia.
  - intros H. apply take_ge. lia.
  - exists (drop (Z.to_nat maxSize) f). symmetry. apply take_drop.
Qed.

(** X5.  What a successful upload stores is the beginning of the uploaded
    bytes, at most [maxSize] of them (all of them when they are no more
    than [maxSize]), and it is these stored bytes that the decoder has
    accepted: an upload longer than the limit is judged and stored by its
    first [maxSize] bytes. *)
Theorem X5_upload_size_bound P saveDir maxSize token w (r : Request) :
  fst (saveHandler P saveDir maxSize token w r) = Status StatusOK ->
  exists f stored,
    FormFile r !! "image" = Some f
    /\ snd (saveHandler P saveDir maxSize token w r)
         !! filePath saveDir (Get (Query r) "filename") = Some stored
    /\ (exists rest, f = (data stored ++ rest)%list)
    /\ Z.of_nat (List.length (data stored)) <= Z.max 0 maxSize
    /\ (Z.of_nat (List.length f) <= maxSize -> data stored = f)
    /\ isValidJPEG P (data stored) = true
    /\ modTime stored = now w.
Proof.
  intros H.
  destruct (saveHandler_success _ _ _ _ _ _ H)
    as (_ & _ & _ & _ & f & Hf & Hj & Hl).
  destruct (readLimited_length f maxSize) as (H1 & H2 & H3).
  exists f, {| data := readLimited f maxSize; modTime := now w |}.
  repeat split; simpl; assumption.
Qed.

Lemma X5_upload_size_bound_witness :
  exists f stored,
    FormFile Uploads.good !! "image" = Some f
    /\ snd (saveHandler Example.platform Example.saveDir 1 Example.token
              Example.world Uploads.good) !! "./new.jpg" = Some stored
    /\ Z.of_nat (List.length (data stored)) <= 1.
Proof.
  destruct (X5_upload_size_bound Example.platform Example.saveDir 1
              Example.token Example.world Uploads.good)
    as (f & stored & H1 & H2 & _ & H4 & _).
  - reflexivity.
  - exists f, stored. split; [exact H1|]. split; [exact H2 | exact H4].
Defined.

(** ** The path of a filename *)

Lemma append_length (a b : string) :
  String.length (a ++ b) = (String.length a + String.length b)%nat.
Proof.
  induction a as [|c a IH]; [reflexivity|].
  change (String c a ++ b) with (String c (a ++ b)). simpl. now rewrite IH.
Qed.

Lemma append_inv_head (p a b : string) : p ++ a = p ++ b -> a = b.
Proof.
  induction p as [|c p IH]; intros H; [exact H|].
  change (String c (p ++ a) = String c (p ++ b)) in H.
  injection H as H. auto.
Qed.

Lemma append_inv_tail (s a : string) : forall b, a ++ s = b ++ s -> a = b.
Proof.
  induction a as [|c a IH]; intros [|c' b] H.
  - reflexivity.
  - apply (f_equal String.length) in H.
    rewrite !append_length in H. simpl in H. lia.
  - apply (f_equal String.length) in H.
    rewrite !append_length in H. simpl in H. lia.
  - change (String c (a ++ s) = String c' (b ++ s)) in H.
    injection H as -> H. f_equal. now apply IH.
Qed.

Lemma filePath_inj saveDir a b :
  filePath saveDir a = filePath saveDir b -> a = b.
Proof.
  unfold filePath. intros H.
  apply append_inv_head in H. apply append_inv_head in H.
  now apply append_inv_tail in H.
Qed.

(** X6.  Upload, then render: after an upload answered with 200, a render
    of the same filename finds the file and decodes it, so that it is
    answered neither with 404 nor with a decoding error; the image it works
    on is the one decoded from the bytes stored, and the time of the file is
    that of the upload. *)
Theorem X6_upload_then_render P saveDir maxSize token w (r r' : Request) :
  fst (saveHandler P saveDir maxSize token w r) = Status StatusOK ->
  Get (Query r') "filename" = Get (Query r) "filename" ->
  statFails w = false ->
  let w' := with_files w (snd (saveHandler P saveDir maxSize token w r)) in
  exists f img,
    FormFile r !! "image" = Some f
    /\ jpeg_Decode P (readLimited f maxSize) = Some img
    /\ decoded P saveDir w' r'
         {| data := readLimited f maxSize; modTime := now w |} img
    /\ scaledHandler P saveDir w' r' <> Error "File not found" StatusNotFound
    /\ scaledHandler P saveDir w' r'
       <> Error "Error decoding the image" StatusInternalServerError.
Proof.
  intros H Hn Hs w'.
  destruct (saveHandler_success _ _ _ _ _ _ H)
    as ((_ & _ & Hv & _) & _ & _ & _ & f & Hf & Hj & Hl).
  unfold isValidJPEG in Hj.
  destruct (jpeg_Decode P (readLimited f maxSize)) as [img|] eqn:Hd;
    [|discriminate].
  assert (Hdec : decoded P saveDir w' r'
                   {| data := readLimited f maxSize; modTime := now w |} img).
  { exists (Get (Query r') "filename"). split.
    - apply checkFilename_valid. now rewrite Hn.
    - unfold loadImage, w'. cbn [files statFails with_files].
      rewrite Hn, Hl, Hs. cbn [data]. now rewrite Hd. }
  exists f, img. split; [exact Hf|]. split; [exact Hd|].
  split; [exact Hdec|].
  rewrite (scaledHandler_decoded _ _ _ _ _ _ Hdec).
  split; unfold resolveBox, cropAndScale, scale, encode; break_all.
Qed.

Lemma X6_upload_then_render_witness :
  scaledHandler Example.platform Example.saveDir
    (with_files Example.world
       (snd (saveHandler Example.platform Example.saveDir 1000000
               Example.token Example.world Uploads.good)))
    Uploads.render_new
  <> Error "File not found" StatusNotFound.
Proof.
  destruct (X6_upload_then_render Example.platform Example.saveDir 1000000
              Example.token Example.world Uploads.good Uploads.render_new)
    as (f & img & _ & _ & _ & H & _).
  - reflexivity.
  - reflexivity.
  - reflexivity.
  - exact H.
Defined.

Lemma scaledHandler_same_file P saveDir w w' r :
  files w !! filePath saveDir (Get (Query r) "filename")
  = files w' !! filePath saveDir (Get (Query r) "filename") ->
  statFails w = statFails w' ->
  now w = now w' ->
  scaledHandler P saveDir w r = scaledHandler P saveDir w' r.
Proof.
  intros Hf Hs Hn. unfold scaledHandler, checkFilename.
  destruct (_ || _); [reflexivity|]. cbn [bind].
  unfold loadImage. rewrite Hf, Hs.
  destruct (files w' !! _) as [imgFile|]; [|reflexivity].
  destruct (statFails w'); [reflexivity|].
  destruct (jpeg_Decode P (data imgFile)); [|reflexivity].
  cbn [bind]. unfold label, labelText. now rewrite Hn.
Qed.

(** X7.  An upload leaves the renders of the other names as they were:
    whatever the upload and its outcome, a render of a filename other than
    the uploaded one is answered after it as before it. *)
Theorem X7_upload_keeps_other_renders P saveDir maxSize token w
    (r r' : Request) :
  Get (Query r') "filename" <> Get (Query r) "filename" ->
  scaledHandler P saveDir
    (with_files w (snd (saveHandler P saveDir maxSize token w r))) r'
  = scaledHandler P saveDir w r'.
Proof.
  intros Hne. apply scaledHandler_same_file; try reflexivity.
  cbn [files with_files].
  destruct (validateUpload P maxSize token w r) as [resp|[filename d]] eqn:E.
  - now rewrite (saveHandler_Return _ _ _ _ _ _ _ E).
  - rewrite (saveHandler_Continue _ _ _ _ _ _ _ _ E).
    destruct (validateUpload_Continue _ _ _ _ _ _ _ E) as (_ & _ & -> & _).
    apply persist_other. intros Heq. apply filePath_inj in Heq. congruence.
Qed.

Lemma X7_upload_keeps_other_renders_witness :
  scaledHandler Example.platform Example.saveDir
    (with_files Example.world
       (snd (saveHandler Example.platform Example.saveDir 1000000
               Example.token Example.world Uploads.good)))
    Uploads.render_test
  = scaledHandler Example.platform Example.saveDir Example.world
      Uploads.render_test.
Proof.
  apply (X7_upload_keeps_other_renders Example.platform Example.saveDir
           1000000 Example.token Example.world Uploads.good
           Uploads.render_test).
  vm_compute. discriminate.
Defined.

(** X8.  When the checks pass and the file system fails: if the file
    cannot be created the answer is 500 and the files are as before; if the
    write fails after [n] bytes the answer is 500 and the file of the name
    holds the first [n] bytes of the upload, whatever it held before. *)
Theorem X8_upload_io_failure P saveDir maxSize token w (r : Request) :
  upload_valid P maxSize token r ->
  readFails w = false ->
  exists f,
    FormFile r !! "image" = Some f
    /\ (createFails w = true ->
          saveHandler P saveDir maxSize token w r
          = (Error "Error saving the image" StatusInternalServerError,
             files w))
    /\ (forall n,
          createFails w = false -> writeFails w = Some n ->
          fst (saveHandler P saveDir maxSize token w r)
            = Error "Error writing to file" StatusInternalServerError
          /\ snd (saveHandler P saveDir maxSize token w r)
               !! filePath saveDir (Get (Query r) "filename")
             = Some {| data := firstn n (readLimited f maxSize);
                       modTime := now w |}).
Proof.
  intros Hu Hr.
  destruct (validateUpload_valid P maxSize token w r Hu Hr) as (f & Hf & Hv).
  exists f. split; [exact Hf|].
  rewrite (saveHandler_Continue _ _ _ _ _ _ _ _ Hv). unfold persist. split.
  - intros Hc. now rewrite Hc.
  - intros n Hc Hw. rewrite Hc, Hw. simpl. split; [reflexivity|].
    apply lookup_insert_eq.
Qed.

Lemma X8_upload_io_failure_witness :
  snd (saveHandler Example.platform Example.saveDir 1000000 Example.token
         Uploads.failing_write Uploads.good) !! "./new.jpg"
  = Some {| data := [x01]; modTime := 7 |}.
Proof.
  destruct (X8_upload_io_failure Example.platform Example.saveDir 1000000
              Example.token Uploads.failing_write Uploads.good)
    as (f & Hf & _ & H).
  - split; [reflexivity|]. split; [reflexivity|]. split; [reflexivity|].
    exists [x01; x02]. split; reflexivity.
  - reflexivity.
  - destruct (H 1%nat eq_refl eq_refl) as [_ H2].
    injection Hf as <-. exact H2.
Defined.

(** ** The pixels of the RGBA raster *)

Lemma toRGBA_At subImg x y :
  Image.At (toRGBA subImg) x y
  = if Image.In {| Image.X := x; Image.Y := y |} (Image.Bounds subImg)
       && Image.In {| Image.X := x - Image.X (Image.Min (Image.Bounds subImg));
                      Image.Y := y - Image.Y (Image.Min (Image.Bounds subImg)) |}
                   (Image.Bounds subImg)
    then Image.At subImg (x - Image.X (Image.Min (Image.Bounds subImg)))
                         (y - Image.Y (Image.Min (Image.Bounds subImg)))
    else Color.zero.
Proof.
  unfold toRGBA, Draw.Draw, Draw.clip. cbn [Image.NewRGBA Image.Bounds].
  set (b := Image.Bounds subImg).
  set (r2 := Image.Intersect (Image.Intersect b b)
               (Image.Add b (Image.Sub (Image.Min b) {| Image.X := 0; Image.Y := 0 |}))).
  assert (Hin : Image.In {| Image.X := x; Image.Y := y |} r2
                = Image.In {| Image.X := x; Image.Y := y |} b
                  && Image.In {| Image.X := x - Image.X (Image.Min b);
                                 Image.Y := y - Image.Y (Image.Min b) |} b).
  { unfold r2. rewrite !ImageFacts.In_Intersect. rewrite andb_diag. f_equal.
    apply eq_true_iff_eq. rewrite !ImageFacts.In_true. simpl. lia. }
  destruct (Image.Empty r2) eqn:E.
  - cbn [Image.At Image.NewRGBA]. rewrite <- Hin.
    destruct (Image.In _ r2) eqn:Ei; [|reflexivity].
    apply ImageFacts.In_true in Ei. apply ImageFacts.Empty_true in E. lia.
  - cbn [Image.At Image.NewRGBA]. rewrite <- Hin.
    destruct (Image.In _ r2); [|reflexivity].
    f_equal; cbn [Image.X Image.Y]; lia.
Qed.

(** ** The crop *)

Lemma crop_inside_Bounds img x1 y1 x2 y2 :
  Image.X (Image.Min (Image.Bounds img)) <= x1 -> x1 < x2 ->
  x2 <= Image.X (Image.Max (Image.Bounds img)) ->
  Image.Y (Image.Min (Image.Bounds img)) <= y1 -> y1 < y2 ->
  y2 <= Image.Y (Image.Max (Image.Bounds img)) ->
  Image.Bounds (crop img (x1, y1, x2, y2))
  = {| Image.Min := {| Image.X := x1; Image.Y := y1 |};
       Image.Max := {| Image.X := x2; Image.Y := y2 |} |}.
Proof.
  intros. rewrite crop_Bounds, ImageFacts.Rect_canonical, ImageFacts.Intersect_meet.
  destruct (Image.Empty _) eqn:E.
  - apply ImageFacts.Empty_true in E. simpl in E. lia.
  - unfold Image.meet. simpl. f_equal; f_equal; lia.
Qed.

(** X9.  A box that lies inside the image is cropped as it is: the
    sub-image has the corners of the box, so the width [x2 - x1] and the
    height [y2 - y1], and at every pixel of the box the colour of the
    source. *)
Theorem X9_crop_inside_image img x1 y1 x2 y2 :
  Image.X (Image.Min (Image.Bounds img)) <= x1 -> x1 < x2 ->
  x2 <= Image.X (Image.Max (Image.Bounds img)) ->
  Image.Y (Image.Min (Image.Bounds img)) <= y1 -> y1 < y2 ->
  y2 <= Image.Y (Image.Max (Image.Bounds img)) ->
  let subImg := crop img (x1, y1, x2, y2) in
  Image.Bounds subImg
    = {| Image.Min := {| Image.X := x1; Image.Y := y1 |};
         Image.Max := {| Image.X := x2; Image.Y := y2 |} |}
  /\ Image.Dx (Image.Bounds subImg) = x2 - x1
  /\ Image.Dy (Image.Bounds subImg) = y2 - y1
  /\ (forall x y, x1 <= x < x2 -> y1 <= y < y2 ->
        Image.At subImg x y = Image.At img x y).
Proof.
  intros Hx1 Hx Hx2 Hy1 Hy Hy2 subImg.
  pose proof (crop_inside_Bounds img x1 y1 x2 y2 Hx1 Hx Hx2 Hy1 Hy Hy2) as Hb.
  unfold subImg. rewrite Hb. split; [reflexivity|].
  split; [reflexivity|]. split; [reflexivity|].
  intros x y Hxr Hyr. apply ImageFacts.SubImage_At.
  fold (crop img (x1, y1, x2, y2)). rewrite Hb.
  apply ImageFacts.In_true. simpl. lia.
Qed.

Lemma X9_crop_inside_image_witness :
  Image.Dx (Image.Bounds (crop Example.img100 (10, 20, 60, 80))) = 50
  /\ Image.Dy (Image.Bounds (crop Example.img100 (10, 20, 60, 80))) = 60.
Proof.
  destruct (X9_crop_inside_image Example.img100 10 20 60 80)
    as (_ & H1 & H2 & _); try (vm_compute; congruence).
  split; [exact H1 | exact H2].
Defined.




Lemma crop_empty_iff img x1 y1 x2 y2 :
  Image.Bounds (crop img (x1, y1, x2, y2)) = Image.ZR
  <-> forall p, Image.In p (Image.Rect x1 y1 x2 y2)
                && Image.In p (Image.Bounds img) = false.
Proof.
  rewrite crop_Bounds. split.
  - intros H p. rewrite <- ImageFacts.In_Intersect, H.
    destruct (Image.In p Image.ZR) eqn:E; [|reflexivity].
    apply ImageFacts.In_true in E. simpl in E. lia.
  - intros H. rewrite ImageFacts.Intersect_meet.
    destruct (Image.Empty _) eqn:E; [reflexivity|].
    specialize (H (Image.Min (Image.meet (Image.Rect x1 y1 x2 y2)
                                         (Image.Bounds img)))).
    rewrite <- ImageFacts.In_Intersect, ImageFacts.Intersect_meet, E in H.
    apply ImageFacts.Empty_false in E.
    assert (Hin : Image.In (Image.Min (Image.meet (Image.Rect x1 y1 x2 y2)
                                                  (Image.Bounds img)))
                    (Image.meet (Image.Rect x1 y1 x2 y2) (Image.Bounds img))
                  = true) by (apply ImageFacts.In_true; lia).
    congruence.
Qed.

(** X11.  A box shares no pixel with the image exactly when the crop is
    the empty image; such a request is not refused: with a width that is
    absent or parses, it is answered with 200 and a raster of 0 by 0
    pixels. *)
Theorem X11_box_outside_image P saveDir w (r : Request) imgFile img
    x1 y1 x2 y2 :
  decoded P saveDir w r imgFile img ->
  resolveBox r img = Continue (x1, y1, x2, y2) ->
  width_ok (Get (Query r) "w") = true ->
  (Image.Bounds (crop img (x1, y1, x2, y2)) = Image.ZR
   <-> forall p, Image.In p (Image.Rect x1 y1 x2 y2)
                 && Image.In p (Image.Bounds img) = false)
  /\ ((forall p, Image.In p (Image.Rect x1 y1 x2 y2)
                 && Image.In p (Image.Bounds img) = false) ->
      exists out,
        scaledHandler P saveDir w r = Jpeg out
        /\ Image.Bounds out = Image.ZR).
Proof.
  intros Hd Hb Hw. split; [apply crop_empty_iff|].
  intros Hout. apply crop_empty_iff in Hout.
  destruct (scale_ok P r (crop img (x1, y1, x2, y2)) Hw) as (scaled & Hs & He).
  specialize (He Hout). subst scaled.
  rewrite (scaledHandler_box _ _ _ _ _ _ _ Hd Hb), Hs. cbn [bind run].
  assert (HB : Image.Bounds (label P w r imgFile
                               (toRGBA (crop img (x1, y1, x2, y2))))
               = Image.ZR)
    by now rewrite label_Bounds, toRGBA_Bounds.
  unfold encode, jpeg_Encode_ok. rewrite HB.
  change (Image.Dx Image.ZR) with 0. change (Image.Dy Image.ZR) with 0.
  cbn [Z.leb Z.compare Z.pow Z.pow_pos Pos.iter Pos.mul orb negb].
  eexists. split; [reflexivity | exact HB].
Qed.

Lemma X11_box_outside_image_witness :
  Image.Bounds (crop Example.img100 (300, 0, 400, 100)) = Image.ZR.
Proof.
  apply (proj1 (X11_box_outside_image Example.platform Example.saveDir
                  Example.world Uploads.outside
                  {| data := [x00]; modTime := 0 |} Example.img100
                  300 0 400 100
                  ltac:(apply example_decoded; reflexivity)
                  ltac:(reflexivity) ltac:(reflexivity))).
  intros p. apply andb_false_iff.
  destruct (Image.In p (Image.Bounds Example.img100)) eqn:E; [left | now right].
  apply ImageFacts.In_true in E. simpl in E.
  destruct (Image.In p (Image.Rect 300 0 400 100)) eqn:E'; [|reflexivity].
  apply ImageFacts.In_true in E'. simpl in E'. lia.
Defined.

(** ** The pixels of the response *)

Lemma encode_small rgbaImg :
  0 <= Image.Dx (Image.Bounds rgbaImg) < 2 ^ 16 ->
  0 <= Image.Dy (Image.Bounds rgbaImg) < 2 ^ 16 ->
  encode rgbaImg = Jpeg rgbaImg.
Proof.
  intros Hx Hy. unfold encode, jpeg_Encode_ok.
  replace (2 ^ 16 <=? Image.Dx (Image.Bounds rgbaImg)) with false
    by (symmetry; apply Z.leb_gt; lia).
  replace (2 ^ 16 <=? Image.Dy (Image.Bounds rgbaImg)) with false
    by (symmetry; apply Z.leb_gt; lia).
  reflexivity.
Qed.

(** X12.  An unscaled crop is drawn into the raster from the point (0, 0)
    of the sub-image and not from its corner.  For an image with its corner
    at (0, 0), a box inside it, no width and no label, the response is a
    raster with the corners of the box in which the pixel [(x, y)] has the
    colour of the source at [(x - x1, y - y1)] when [2 * x1 <= x] and
    [2 * y1 <= y], and is transparent black otherwise: the crop is the
    source exactly when [x1 = y1 = 0]. *)
Theorem X12_unscaled_crop_pixels P saveDir w (r : Request) imgFile img
    x1 y1 x2 y2 :
  decoded P saveDir w r imgFile img ->
  resolveBox r img = Continue (x1, y1, x2, y2) ->
  Image.Min (Image.Bounds img) = {| Image.X := 0; Image.Y := 0 |} ->
  0 <= x1 -> x1 < x2 -> x2 <= Image.X (Image.Max (Image.Bounds img)) ->
  0 <= y1 -> y1 < y2 -> y2 <= Image.Y (Image.Max (Image.Bounds img)) ->
  Image.X (Image.Max (Image.Bounds img)) < 2 ^ 16 ->
  Image.Y (Image.Max (Image.Bounds img)) < 2 ^ 16 ->
  Get (Query r) "w" = "" ->
  Get (Query r) "nolabel" <> "" ->
  exists out,
    scaledHandler P saveDir w r = Jpeg out
    /\ Image.Bounds out
       = {| Image.Min := {| Image.X := x1; Image.Y := y1 |};
            Image.Max := {| Image.X := x2; Image.Y := y2 |} |}
    /\ (forall x y, x1 <= x < x2 -> y1 <= y < y2 ->
          Image.At out x y
          = if (2 * x1 <=? x) && (2 * y1 <=? y)
            then Image.At img (x - x1) (y - y1)
            else Color.zero)
    /\ (x1 = 0 -> y1 = 0 ->
        forall x y, x1 <= x < x2 -> y1 <= y < y2 ->
          Image.At out x y = Image.At img x y).
Proof.
  intros Hd Hb Hmin Hx1 Hx Hx2 Hy1 Hy Hy2 HX HY Hw Hn.
  assert (Hcb : Image.Bounds (crop img (x1, y1, x2, y2))
                = {| Image.Min := {| Image.X := x1; Image.Y := y1 |};
                     Image.Max := {| Image.X := x2; Image.Y := y2 |} |})
    by (apply crop_inside_Bounds; rewrite ?Hmin; simpl; lia).
  assert (Hresp : scaledHandler P saveDir w r
                  = Jpeg (toRGBA (crop img (x1, y1, x2, y2)))).
  { rewrite (scaledHandler_box _ _ _ _ _ _ _ Hd Hb). unfold scale. rewrite Hw.
    cbn [Str.is_empty bind run]. unfold label.
    rewrite (is_empty_false _ Hn).
    apply encode_small; rewrite toRGBA_Bounds, Hcb;
      unfold Image.Dx, Image.Dy; simpl; lia. }
  assert (Hpix : forall x y, x1 <= x < x2 -> y1 <= y < y2 ->
            Image.At (toRGBA (crop img (x1, y1, x2, y2))) x y
            = if (2 * x1 <=? x) && (2 * y1 <=? y)
              then Image.At img (x - x1) (y - y1)
              else Color.zero).
  { intros x y Hxr Hyr. rewrite toRGBA_At, Hcb. cbn [Image.Min Image.X Image.Y].
    replace (Image.In {| Image.X := x; Image.Y := y |} _) with true
      by (symmetry; apply ImageFacts.In_true; simpl; lia).
    rewrite andb_true_l.
    destruct (Z.leb_spec (2 * x1) x) as [Hxx|Hxx];
      destruct (Z.leb_spec (2 * y1) y) as [Hyy|Hyy]; cbn [andb].
    - replace (Image.In _ _) with true
        by (symmetry; apply ImageFacts.In_true; simpl; lia).
      apply ImageFacts.SubImage_At. fold (crop img (x1, y1, x2, y2)).
      rewrite Hcb. apply ImageFacts.In_true. simpl. lia.
    - replace (Image.In _ _) with false; [reflexivity|].
      symmetry. apply not_true_is_false. rewrite ImageFacts.In_true. simpl. lia.
    - replace (Image.In _ _) with false; [reflexivity|].
      symmetry. apply not_true_is_false. rewrite ImageFacts.In_true. simpl. lia.
    - replace (Image.In _ _) with false; [reflexivity|].
      symmetry. apply not_true_is_false. rewrite ImageFacts.In_true. simpl. lia. }
  exists (toRGBA (crop img (x1, y1, x2, y2))).
  split; [exact Hresp|]. split; [now rewrite toRGBA_Bounds|].
  split; [exact Hpix|].
  intros -> -> x y Hxr Hyr. rewrite (Hpix x y Hxr Hyr).
  replace ((2 * 0 <=? x) && (2 * 0 <=? y)) with true
    by (symmetry; apply andb_true_iff; rewrite !Z.leb_le; lia).
  now rewrite !Z.sub_0_r.
Qed.

Lemma X12_unscaled_crop_pixels_witness :
  exists out,
    scaledHandler Example.platform Example.saveDir Example.world
      Uploads.offset_crop = Jpeg out
    /\ Image.At out 15 50 = Color.zero
    /\ Image.At out 30 50 = Example.grey.
Proof.
  destruct (X12_unscaled_crop_pixels Example.platform Example.saveDir
              Example.world Uploads.offset_crop
              {| data := [x00]; modTime := 0 |} Example.img100 10 20 60 80)
    as (out & H1 & _ & H3 & _);
    try (vm_compute; congruence); try reflexivity.
  - apply example_decoded. reflexivity.
  - exists out. split; [exact H1|]. split.
    + rewrite (H3 15 50); [reflexivity | lia | lia].
    + rewrite (H3 30 50); [reflexivity | lia | lia].
Defined.

Lemma resolveBox_default r img :
  Get (Query r) "x1" = "" -> Get (Query r) "y1" = "" ->
  Get (Query r) "x2" = "" -> Get (Query r) "y2" = "" ->
  resolveBox r img
  = Continue (0, 0, Image.X (Image.Max (Image.Bounds img)),
              Image.Y (Image.Max (Image.Bounds img))).
Proof. intros H1 H2 H3 H4. unfold resolveBox. now rewrite H1, H2, H3, H4. Qed.

(** X13.  Without box and width the whole image is served.  For an image
    with its corner at (0, 0) the response is a raster of the bounds of the
    image; with [nolabel] every pixel has the colour of the source, and
    without it the pixels that a glyph of the label covers have the label
    colour and all the others the colour of the source. *)
Theorem X13_default_render P saveDir w (r : Request) imgFile img :
  decoded P saveDir w r imgFile img ->
  Image.Min (Image.Bounds img) = {| Image.X := 0; Image.Y := 0 |} ->
  0 < Image.X (Image.Max (Image.Bounds img)) < 2 ^ 16 ->
  0 < Image.Y (Image.Max (Image.Bounds img)) < 2 ^ 16 ->
  Get (Query r) "x1" = "" -> Get (Query r) "y1" = "" ->
  Get (Query r) "x2" = "" -> Get (Query r) "y2" = "" ->
  Get (Query r) "w" = "" ->
  exists out,
    scaledHandler P saveDir w r = Jpeg out
    /\ Image.Bounds out = Image.Bounds img
    /\ (forall x y,
          Image.In {| Image.X := x; Image.Y := y |} (Image.Bounds img) = true ->
          Image.At out x y
          = if Str.is_empty (Get (Query r) "nolabel")
               && glyph_mask P (labelText P w r imgFile) (10 * 64) (20 * 64) x y
            then labelColor (Get (Query r) "color")
            else Image.At img x y).
Proof.
  intros Hd Hmin HX HY H1 H2 H3 H4 Hw.
  pose proof (resolveBox_default r img H1 H2 H3 H4) as Hb.
  set (mx := Image.X (Image.Max (Image.Bounds img))) in *.
  set (my := Image.Y (Image.Max (Image.Bounds img))) in *.
  assert (Hbi : Image.Bounds img
                = {| Image.Min := {| Image.X := 0; Image.Y := 0 |};
                     Image.Max := {| Image.X := mx; Image.Y := my |} |}).
  { destruct (Image.Bounds img) as [mn [a b]] eqn:E. simpl in Hmin.
    subst mn. reflexivity. }
  assert (Hcb : Image.Bounds (crop img (0, 0, mx, my)) = Image.Bounds img).
  { rewrite Hbi. apply crop_inside_Bounds; rewrite ?Hbi; simpl; lia. }
  set (out := label P w r imgFile (toRGBA (crop img (0, 0, mx, my)))).
  assert (Hob : Image.Bounds out = Image.Bounds img)
    by (unfold out; now rewrite label_Bounds, toRGBA_Bounds).
  exists out. split; [|split; [exact Hob|]].
  - rewrite (scaledHandler_box _ _ _ _ _ _ _ Hd Hb). unfold scale. rewrite Hw.
    cbn [Str.is_empty bind run]. fold out.
    apply encode_small; rewrite Hob, Hbi; unfold Image.Dx, Image.Dy; simpl; lia.
  - intros x y Hin.
    assert (Hsrc : Image.At (toRGBA (crop img (0, 0, mx, my))) x y
                   = Image.At img x y).
    { rewrite toRGBA_At, Hcb, Hmin. cbn [Image.X Image.Y].
      rewrite !Z.sub_0_r, Hin. cbn [andb].
      apply ImageFacts.SubImage_At. fold (crop img (0, 0, mx, my)).
      now rewrite Hcb. }
    unfold out, label.
    destruct (Str.is_empty (Get (Query r) "nolabel")); cbn [andb].
    + unfold drawText. cbn [Image.At]. rewrite toRGBA_Bounds, Hcb, Hin.
      cbn [andb].
      destruct (glyph_mask P _ _ _ x y); [reflexivity | exact Hsrc].
    + exact Hsrc.
Qed.

Lemma X13_default_render_witness :
  exists out,
    scaledHandler Example.platform Example.saveDir Example.world
      Uploads.render_test = Jpeg out
    /\ Image.Bounds out = Image.Rect 0 0 100 100
    /\ Image.At out 10 10 = Example.grey.
Proof.
  destruct (X13_default_render Example.platform Example.saveDir Example.world
              Uploads.render_test {| data := [x00]; modTime := 0 |}
              Example.img100)
    as (out & H1 & H2 & H3);
    try reflexivity; try (vm_compute; split; congruence).
  - apply example_decoded. reflexivity.
  - exists out. split; [exact H1|]. split; [exact H2|].
    rewrite (H3 10 10); reflexivity.
Defined.

(** ** Every colour *)

Lemma hex_value_from_ge s : forall n,
  Spec.all_bytes Spec.is_hex_digit s = true -> 0 <= n ->
  n <= Spec.hex_value_from n s.
Proof.
  induction s as [|c s IH]; intros n H Hn; simpl in *; [lia|].
  apply andb_true_iff in H. destruct H as [Hc Hs].
  destruct (hex_digit_val c Hc) as [_ Hd].
  specialize (IH (n * 16 + Spec.hex_digit_value c) Hs ltac:(lia)). lia.
Qed.

Lemma parse_loop_hex_full maxVal s : forall n,
  0 <= n <= maxVal -> maxVal <= Strconv.maxUint64 ->
  match Strconv.parse_loop 16 (Strconv.maxUint64 / 16 + 1) maxVal s n with
  | Strconv.Ok v =>
      Spec.all_bytes Spec.is_hex_digit s = true
      /\ v = Spec.hex_value_from n s /\ v <= maxVal
  | Strconv.Err _ =>
      ~ (Spec.all_bytes Spec.is_hex_digit s = true
         /\ Spec.hex_value_from n s <= maxVal)
  end.
Proof.
  change (Strconv.maxUint64 / 16 + 1) with 1152921504606846976.
  unfold Strconv.maxUint64.
  induction s as [|c s IH]; intros n Hn Hmax.
  - simpl. repeat split; lia.
  - simpl Strconv.parse_loop. simpl Spec.all_bytes. simpl Spec.hex_value_from.
    destruct (Spec.is_hex_digit c) eqn:Hc.
    + destruct (hex_digit_val c Hc) as [Hd Hr]. rewrite Hd.
      set (d := Spec.hex_digit_value c) in *.
      replace (16 <=? d) with false by (symmetry; apply Z.leb_gt; lia).
      destruct (Z.leb_spec 1152921504606846976 n) as [Hcut|Hcut].
      { intros [Hs Hv]. simpl in Hs.
        pose proof (hex_value_from_ge s (n * 16 + d) Hs ltac:(lia)). lia. }
      rewrite (Z.mod_small (n * 16 + d)) by lia.
      replace (n * 16 + d <? n * 16) with false
        by (symmetry; apply Z.ltb_ge; lia).
      destruct (Z.ltb_spec maxVal (n * 16 + d)) as [Hover|Hfit];
        simpl orb; cbv iota.
      { intros [Hs Hv]. simpl in Hs.
        pose proof (hex_value_from_ge s (n * 16 + d) Hs ltac:(lia)). lia. }
      specialize (IH (n * 16 + d) ltac:(lia) Hmax).
      destruct (Strconv.parse_loop 16 1152921504606846976 maxVal s (n * 16 + d));
        simpl andb; tauto.
    + pose proof (non_hex_digit_val c Hc) as Hd.
      destruct (Strconv.digit_val (Str.code c)) as [d|].
      * replace (16 <=? d) with true by (symmetry; apply Z.leb_le; lia).
        simpl. intros [H _]. discriminate.
      * simpl. intros [H _]. discriminate.
Qed.

(** X14.  The colour of the label for every value of [color]: a non-empty
    string of hexadecimal digits, of any length, whose value is below
    [2 ^ 32] gives the three low bytes of the value as red, green and blue;
    every other string (empty, with another byte, or of a value of [2 ^ 32]
    or more) gives white.  The colour is always opaque and its components
    are bytes. *)
Theorem X14_label_color_total (s : string) :
  labelColor s
  = (if negb (Str.is_empty s) && Spec.all_bytes Spec.is_hex_digit s
        && (Spec.hex_value s <? 2 ^ 32)
     then {| Color.R := Spec.bits8 (Spec.hex_value s) 16;
             Color.G := Spec.bits8 (Spec.hex_value s) 8;
             Color.B := Spec.bits8 (Spec.hex_value s) 0;
             Color.A := 255 |}
     else white)
  /\ Color.A (labelColor s) = 255
  /\ 0 <= Color.R (labelColor s) <= 255
  /\ 0 <= Color.G (labelColor s) <= 255
  /\ 0 <= Color.B (labelColor s) <= 255.
Proof.
  assert (Heq : labelColor s
    = (if negb (Str.is_empty s) && Spec.all_bytes Spec.is_hex_digit s
          && (Spec.hex_value s <? 2 ^ 32)
       then {| Color.R := Spec.bits8 (Spec.hex_value s) 16;
               Color.G := Spec.bits8 (Spec.hex_value s) 8;
               Color.B := Spec.bits8 (Spec.hex_value s) 0;
               Color.A := 255 |}
       else white)).
  { unfold labelColor, Strconv.ParseUint.
    destruct (Str.is_empty s); [reflexivity|]. cbn [negb andb].
    pose proof (parse_loop_hex_full (2 ^ 32 - 1) s 0 ltac:(lia)
                  ltac:(unfold Strconv.maxUint64; lia)) as H.
    fold (Spec.hex_value s) in H.
    destruct (Strconv.parse_loop 16 _ _ s 0) as [v|e].
    - destruct H as (Hd & -> & Hm). rewrite Hd.
      replace (Spec.hex_value s <? 2 ^ 32) with true
        by (symmetry; apply Z.ltb_lt; lia).
      cbn [andb].
      pose proof (hex_value_from_ge s 0 Hd ltac:(lia)) as H0.
      fold (Spec.hex_value s) in H0.
      destruct (rgb_of_bits (Spec.hex_value s) H0) as (HR & HG & HB).
      now rewrite HR, HG, HB.
    - destruct (Spec.all_bytes Spec.is_hex_digit s); [|reflexivity].
      destruct (Z.ltb_spec (Spec.hex_value s) (2 ^ 32)); [|reflexivity].
      exfalso. apply H. split; [reflexivity | lia]. }
  split; [exact Heq|]. rewrite Heq.
  assert (Hb : forall v lo, 0 <= Spec.bits8 v lo <= 255).
  { intros v lo. unfold Spec.bits8.
    pose proof (Z.mod_pos_bound (v / 2 ^ lo) (2 ^ 8) ltac:(lia)). lia. }
  destruct (_ && _); cbn; repeat split; try lia; try apply Hb.
Qed.

(** ** The address of the client *)

Lemma append_assoc (a b c : string) : (a ++ b) ++ c = a ++ (b ++ c).
Proof.
  induction a as [|x a IH]; [reflexivity|].
  change (String x ((a ++ b) ++ c) = String x (a ++ (b ++ c))). now rewrite IH.
Qed.

Lemma append_nil_r (a : string) : a ++ "" = a.
Proof.
  induction a as [|x a IH]; [reflexivity|].
  change (String x (a ++ "") = String x a). now rewrite IH.
Qed.

Lemma strip_prefix_spec p : forall s t,
  Str.strip_prefix p s = Some t <-> s = p ++ t.
Proof.
  induction p as [|a p IH]; intros s t.
  - simpl. change ("" ++ t) with t. split; congruence.
  - change (String a p ++ t) with (String a (p ++ t)).
    destruct s as [|b s]; simpl; [split; discriminate|].
    destruct (Ascii.eqb_spec a b) as [->|Hne].
    + rewrite IH. split; [intros ->; reflexivity | intros H; now injection H].
    + split; [discriminate | intros H; injection H; congruence].
Qed.

Lemma not_occurs_nil sep : sep <> "" -> ~ occurs sep "".
Proof.
  intros Hsep (a & b & H). apply (f_equal String.length) in H.
  rewrite !append_length in H. destruct sep; [congruence|]. simpl in H. lia.
Qed.

Lemma split_first_spec sep : sep <> "" -> forall s,
  exists rest,
    s = Str.split_first sep s ++ rest
    /\ (rest = "" \/ exists t, rest = sep ++ t)
    /\ ~ occurs sep (Str.split_first sep s).
Proof.
  intros Hsep. induction s as [|c s IH].
  - cbn [Str.split_first]. destruct (Str.strip_prefix sep "") as [t|] eqn:E.
    + apply strip_prefix_spec in E. exists "". split; [reflexivity|].
      split; [now left | now apply not_occurs_nil].
    + exists "". split; [reflexivity|].
      split; [now left | now apply not_occurs_nil].
  - cbn [Str.split_first].
    destruct (Str.strip_prefix sep (String c s)) as [t|] eqn:E.
    + apply strip_prefix_spec in E. exists (String c s).
      split; [reflexivity|]. split; [right; eauto | now apply not_occurs_nil].
    + destruct IH as (rest & Hs & Hrest & Hno). exists rest.
      split; [|split; [exact Hrest|]].
      * change (String c s = String c (Str.split_first sep s ++ rest)).
        now rewrite <- Hs.
      * intros (a & b & H). destruct a as [|x a].
        -- change ("" ++ sep ++ b) with (sep ++ b) in H.
           assert (Hs' : String c s = sep ++ (b ++ rest)).
           { rewrite <- append_assoc, <- H.
             change (String c s = String c (Str.split_first sep s ++ rest)).
             now rewrite <- Hs. }
           apply strip_prefix_spec in Hs'. congruence.
        -- change (String c (Str.split_first sep s)
                   = String x (a ++ sep ++ b)) in H.
           injection H as _ H. apply Hno. now exists a, b.
Qed.

Lemma split_first_no_sep sep : sep <> "" -> forall s,
  ~ occurs sep s -> Str.split_first sep s = s.
Proof.
  intros Hsep s Hno.
  destruct (split_first_spec sep Hsep s) as (rest & Hs & [->|(t & ->)] & _).
  - now rewrite append_nil_r in Hs.
  - exfalso. apply Hno. now exists (Str.split_first sep s), t.
Qed.

(** X15.  The client address of the label is the remote address of the
    connection when the header [X-Forwarded-For] is absent or empty;
    otherwise it is the part of the header before its first [", "] - the
    whole header when it has none - whatever the remote address. *)
Theorem X15_client_address (r : Request) :
  let xff := Get (Header r) "X-Forwarded-For" in
  (xff = "" -> clientIP r = RemoteAddr r)
  /\ (xff <> "" ->
      exists rest,
        xff = clientIP r ++ rest
        /\ (rest = "" \/ exists t, rest = ", " ++ t)
        /\ ~ occurs ", " (clientIP r))
  /\ (xff <> "" -> ~ occurs ", " xff -> clientIP r = xff).
Proof.
  cbv zeta. unfold clientIP. split; [|split].
  - intros ->. reflexivity.
  - intros H. rewrite (is_empty_false _ H).
    apply split_first_spec. discriminate.
  - intros H Hno. rewrite (is_empty_false _ H).
    apply split_first_no_sep; [discriminate | exact Hno].
Qed.

(** ** What the render reads of a request *)

(** X16.  The render reads neither the method nor the form nor the
    [Authorization] header.  Two requests with the same query are answered
    alike whenever [nolabel] is set or [id] is not, whatever their methods,
    headers, remote addresses and forms; and with [id] and the label, they
    are answered alike as soon as they have the same client address and the
    same [User-Agent]. *)
Theorem X16_render_reads_query_only P saveDir w (r r' : Request) :
  Query r = Query r' ->
  (Get (Query r) "nolabel" <> "" \/ Get (Query r) "id" = ""
   \/ (clientIP r = clientIP r'
       /\ Get (Header r) "User-Agent" = Get (Header r') "User-Agent")) ->
  scaledHandler P saveDir w r = scaledHandler P saveDir w r'.
Proof.
  intros Hq H.
  assert (Hl : forall f i, label P w r f i = label P w r' f i).
  { intros f i. unfold label, labelText. rewrite <- Hq.
    destruct H as [H|[H|[H1 H2]]].
    - now rewrite (is_empty_false _ H).
    - now rewrite H.
    - now rewrite H1, H2. }
  unfold scaledHandler, checkFilename, resolveBox, cropAndScale, scale.
  rewrite <- Hq.
  destruct (_ || _); [reflexivity|]. cbn [bind].
  destruct (loadImage P saveDir w _) as [resp|[imgFile img]]; [reflexivity|].
  cbn [bind].
  repeat (match goal with
          | |- context [bind (if ?b then _ else _) _] => destruct b
          | |- context [bind (match ?x with Strconv.Ok _ => _ | Strconv.Err _ => _ end) _] =>
              destruct x
          | |- context [match ?x with Strconv.Ok _ => _ | Strconv.Err _ => _ end] =>
              destruct x
          end; cbn [bind]; try reflexivity);
    cbn [run]; now rewrite Hl.
Qed.

Lemma X16_render_reads_query_only_witness :
  scaledHandler Example.platform Example.saveDir Example.world
    (Example.post "test" "Bearer wrong" [])
  = scaledHandler Example.platform Example.saveDir Example.world
      (Example.get [("filename", "test")]).
Proof.
  apply X16_render_reads_query_only.
  - reflexivity.
  - right. left. reflexivity.
Defined.

(** ** The box of the query *)

Lemma coord_block_value s (dflt : Z) msg :
  coord_ok s = true ->
  (if Str.is_empty s then Continue dflt
   else match Strconv.Atoi s with
        | Strconv.Ok v => Continue v
        | Strconv.Err _ => Return (Error msg StatusBadRequest)
        end)
  = Continue (coord_value s dflt)
  /\ - 2 ^ 63 <= coord_value s 0 < 2 ^ 63.
Proof.
  unfold coord_ok, coord_value. destruct (Str.is_empty s); cbn [orb].
  - intros _. split; [reflexivity | lia].
  - pose proof (Atoi_dec s) as H.
    destruct (Strconv.Atoi s) as [v|e]; [|discriminate].
    destruct H as (_ & -> & Hr). intros _. split; [reflexivity | exact Hr].
Qed.

(** X17.  When the four box parameters are accepted, the box is made of
    their values in decimal - [007] is 7, [+5] is 5, [-5] is -5 - and of
    the defaults 0, 0 and the maximum corner of the image for the empty
    ones; every value given is in the range of [int]. *)
Theorem X17_box_values (r : Request) img :
  let q := fun key => Get (Query r) key in
  coord_ok (q "x1") = true -> coord_ok (q "y1") = true ->
  coord_ok (q "x2") = true -> coord_ok (q "y2") = true ->
  resolveBox r img
  = Continue (coord_value (q "x1") 0, coord_value (q "y1") 0,
              coord_value (q "x2") (Image.X (Image.Max (Image.Bounds img))),
              coord_value (q "y2") (Image.Y (Image.Max (Image.Bounds img))))
  /\ - 2 ^ 63 <= coord_value (q "x1") 0 < 2 ^ 63
  /\ - 2 ^ 63 <= coord_value (q "y1") 0 < 2 ^ 63
  /\ - 2 ^ 63 <= coord_value (q "x2") 0 < 2 ^ 63
  /\ - 2 ^ 63 <= coord_value (q "y2") 0 < 2 ^ 63.
Proof.
  intros q H1 H2 H3 H4. unfold q in *. unfold resolveBox.
  destruct (coord_block_value _ 0 "Invalid x1 parameter" H1) as [-> R1].
  destruct (coord_block_value _ 0 "Invalid y1 parameter" H2) as [-> R2].
  destruct (coord_block_value _ (Image.X (Image.Max (Image.Bounds img)))
              "Invalid x2 parameter" H3) as [-> _].
  destruct (coord_block_value _ (Image.Y (Image.Max (Image.Bounds img)))
              "Invalid y2 parameter" H4) as [-> _].
  destruct (coord_block_value _ 0 "Invalid x2 parameter" H3) as [_ R3].
  destruct (coord_block_value _ 0 "Invalid y2 parameter" H4) as [_ R4].
  cbn [bind]. auto.
Qed.

Lemma X17_box_values_witness :
  resolveBox
    (Example.get [("filename", "test"); ("x1", "007"); ("y1", "+5");
                  ("x2", "-5")])
    Example.img100
  = Continue (7, 5, -5, 100).
Proof.
  apply (proj1 (X17_box_values
                  (Example.get [("filename", "test"); ("x1", "007");
                                ("y1", "+5"); ("x2", "-5")])
                  Example.img100
                  ltac:(reflexivity) ltac:(reflexivity)
                  ltac:(reflexivity) ltac:(reflexivity))).
Defined.

(** ** main *)

(** X18.  The server starts only with a token: without one [main] ends
    before it registers a handler, whatever the other flags, and so it
    does with the defaults of the flags.  When it
    serves, it listens on [ip:port], the handlers are [/save] and
    [/scaled] and no other, and the upload handler answers a POST whose
    [Authorization] header is [Bearer] followed by nothing with 401 and
    stores nothing. *)
Theorem X18_main_requires_token P (fl : Flags) listenErr :
  (flag_token fl = "" ->
     main P fl listenErr = Fatal "Bearer token must be provided.")
  /\ main P defaultFlags listenErr = Fatal "Bearer token must be provided."
  /\ (forall bindAddress routes,
        main P fl listenErr = Serving bindAddress routes ->
        flag_token fl <> ""
        /\ bindAddress = flag_ip fl ++ ":" ++ flag_port fl
        /\ map fst routes = ["/save"; "/scaled"]
        /\ (forall path, path <> "/save" -> path <> "/scaled" ->
              route routes path = None)
        /\ exists save,
             route routes "/save" = Some save
             /\ forall w r,
                  Method r = "POST" ->
                  Get (Header r) "Authorization" = "Bearer " ->
                  save w r = (Error "Unauthorized" StatusUnauthorized,
                              files w)).
Proof.
  split; [|split].
  - intros H. unfold main. now rewrite H.
  - reflexivity.
  - intros bindAddress routes. unfold main.
    destruct (flag_token fl) as [|c t] eqn:Et; [discriminate|].
    cbn [Str.is_empty]. destruct listenErr; [discriminate|].
    intros H. injection H as <- <-.
    split; [discriminate|]. split; [reflexivity|]. split; [reflexivity|].
    split.
    + intros path H1 H2. cbn [route].
      destruct (String.eqb_spec "/save" path); [congruence|].
      destruct (String.eqb_spec "/scaled" path); [congruence|]. reflexivity.
    + eexists. split; [reflexivity|]. intros w r Hm Ha.
      unfold saveHandler, validateUpload. rewrite Hm, Ha.
      reflexivity.
Qed.

(** ** The scale step at the width of the crop, at zero and beyond the encoder *)

Module ScaleFacts.
Import FloatReal Float64Facts.

Lemma one_fin53 : fin53 (Float64.of_int 1) 4503599627370496 (-52).
Proof. split; reflexivity. Qed.

Lemma one_val : val 4503599627370496 (-52) = 1%R.
Proof. unfold val, bpow. simpl. lra. Qed.

(** A float divided by itself is one. *)
Lemma div_self f m e : fin53 f m e -> Float64.div f f = Float64.of_int 1.
Proof.
  intros [-> Hd]. unfold Float64.div, SFdiv, SFdiv_core_binary.
  rewrite Hd. replace (53 + e - (53 + e)) with 0 by lia. rewrite Z.sub_diag.
  change (Z.min (fexp Float64.prec Float64.emax 0) 0) with (-53). change (0 - -53) with 53.
  cbv iota. rewrite Z.shiftl_mul_pow2 by lia.
  pose proof (Z_div_mod (Zpos m * 2 ^ 53) (Zpos m) ltac:(lia)) as Hdm.
  destruct (Z.div_eucl (Zpos m * 2 ^ 53) (Zpos m)) as [q r].
  destruct Hdm as [Hq Hr].
  assert (Hqr : q = 2 ^ 53 /\ r = 0).
  { assert (E : q = 2 ^ 53 \/ q < 2 ^ 53 \/ 2 ^ 53 < q) by lia.
    change (2 ^ 53) with 9007199254740992 in *.
    destruct E as [E|[E|E]]; [split; [exact E | subst q; lia] | nia | nia]. }
  destruct Hqr as [-> ->].
  replace (new_location (Zpos m) 0) with loc_Exact
    by (unfold new_location; destruct (Z.even (Zpos m)); reflexivity).
  reflexivity.
Qed.

(** The product of a float and one has the value of the float. *)
Lemma mul_one f m e :
  fin53 f m e -> -400 <= e <= 400 ->
  exists m' e',
    fin53 (Float64.mul f (Float64.of_int 1)) m' e' /\ val m' e' = val m e.
Proof.
  intros Hf He. pose proof (fin53_bounds _ _ _ Hf) as Hb.
  destruct (mul_correct _ _ _ _ _ _ Hf one_fin53 He ltac:(lia))
    as (m' & e' & F & E & V).
  exists m', e'. split; [exact F|].
  rewrite one_val in V.
  assert (Hk : val m' e' = (IZR (Zpos m' * 2 ^ (e' - e)) * bpow e)%R).
  { unfold val. rewrite mult_IZR, <- bpow_IZR by lia.
    rewrite Rmult_assoc, <- bpow_add. do 2 f_equal. lia. }
  rewrite Hk in *. unfold val in *.
  remember (Zpos m' * 2 ^ (e' - e)) as K eqn:EK.
  pose proof (bpow_pos e) as Hp.
  assert (Hm1 : (IZR (Zpos m) < 9007199254740992)%R)
    by (apply IZR_lt; change 9007199254740992 with (2 ^ 53); lia).
  assert (Hm0 : (0 < IZR (Zpos m))%R) by (apply IZR_lt; lia).
  unfold eps in V. destruct V as [V1 V2].
  assert (L1 : (IZR (Zpos m) * (1 - / 9007199254740992) <= IZR K)%R).
  { apply (Rmult_le_reg_r (bpow e)); [exact Hp | lra]. }
  assert (L2 : (IZR K <= IZR (Zpos m) * (1 + / 9007199254740992))%R).
  { apply (Rmult_le_reg_r (bpow e)); [exact Hp | lra]. }
  assert (Zpos m - 1 < K) by (apply lt_IZR; rewrite minus_IZR; lra).
  assert (K < Zpos m + 1) by (apply lt_IZR; rewrite plus_IZR; lra).
  replace K with (Zpos m) by lia. reflexivity.
Qed.

Lemma to_uint_of_val unrep f m e z :
  fin53 f m e -> 0 <= z < 2 ^ 53 -> val m e = IZR z ->
  Float64.to_uint unrep f = z.
Proof.
  intros F Hz V.
  assert (Hlt : (val m e < 18446744073709551616)%R).
  { rewrite V. apply (Rlt_trans _ (IZR (2 ^ 53))); [apply IZR_lt; lia|].
    change (IZR (2 ^ 53)) with 9007199254740992%R. lra. }
  destruct (to_uint_correct unrep f m e F Hlt) as [T0 [T1 T2]].
  rewrite V in *.
  remember (Float64.to_uint unrep f) as t.
  assert (t <= z) by (apply le_IZR; lra).
  assert (z < t + 1) by (apply lt_IZR; rewrite plus_IZR; lra).
  lia.
Qed.

Section Identity.
Variable P : Platform.
Variable sub : Image.Image.
Let W := Image.Dx (Image.Bounds sub).
Let H := Image.Dy (Image.Bounds sub).
Hypothesis HW : 0 < W < 2 ^ 16.
Hypothesis HH : 0 < H < 2 ^ 16.

(** For the width of the image the handler asks for its height. *)
Lemma newHeight_same : newHeight P W sub = H.
Proof.
  unfold newHeight. fold W H.
  destruct (of_int_correct W ltac:(lia)) as (mW & eW & FW & EW & VW).
  destruct (of_int_correct H ltac:(lia)) as (mH & eH & FH & EH & VH).
  pose proof (Zdigits2_small H 16 HH ltac:(lia)).
  rewrite (div_self _ _ _ FW).
  destruct (mul_one _ _ _ FH ltac:(lia)) as (m' & e' & F & V).
  apply (to_uint_of_val _ _ m' e'); [exact F | lia | congruence].
Qed.

(** For the width zero the handler asks for the height zero. *)
Lemma newHeight_zero : newHeight P 0 sub = 0.
Proof.
  unfold newHeight. fold W H.
  destruct (of_int_correct W ltac:(lia)) as (mW & eW & [-> _] & _).
  destruct (of_int_correct H ltac:(lia)) as (mH & eH & [-> _] & _).
  reflexivity.
Qed.

(** For the width and height zero [resize.Resize] takes the size of the
    image. *)
Lemma target_zero : Resize.target P 0 0 sub = (W, H).
Proof.
  unfold Resize.target, Resize.calcFactors. fold W H. cbn [Z.eqb].
  assert (Hs : forall z, 0 < z < 2 ^ 16 ->
            Float64.to_uint (uint_unrep P)
              (Float64.add Float64.c0_7
                 (Float64.div (Float64.of_int z) (Float64.of_int 1))) = z).
  { intros z Hz.
    destruct (of_int_correct z ltac:(lia)) as (mz & ez & Fz & Ez & Vz).
    pose proof (Zdigits2_small z 16 Hz ltac:(lia)).
    destruct (div_correct _ _ _ _ _ _ Fz one_fin53 ltac:(lia) ltac:(lia))
      as (mq & eq & Fq & Eq & Vq).
    destruct (add_correct _ _ _ _ _ _ c0_7_fin53 Fq ltac:(lia) ltac:(lia))
      as (ms & es & Fs & Vs).
    rewrite one_val, Vz in Vq.
    assert (Hc1 : (69 / 100 <= val 6305039478318694 (-53))%R)
      by (unfold val, bpow; simpl; lra).
    pose proof c0_7_val as Hc2.
    assert (Hz1 : (1 <= IZR z)%R) by (apply IZR_le; lia).
    assert (Hz2 : (IZR z < 65536)%R)
      by (apply IZR_lt; change 65536 with (2 ^ 16); lia).
    unfold eps in *.
    assert (Hlt : (val ms es < 18446744073709551616)%R) by nra.
    destruct (to_uint_correct (uint_unrep P) _ ms es Fs Hlt) as [T0 [T1 T2]].
    remember (Float64.to_uint _ _) as t.
    assert (t < z + 1) by (apply lt_IZR; rewrite plus_IZR; nra).
    assert (z - 1 < t) by (apply lt_IZR; rewrite minus_IZR; nra).
    lia. }
  now rewrite (Hs W HW), (Hs H HH).
Qed.

Lemma Resize_identity width :
  width = 0 \/ width = W ->
  Resize.Resize P width (newHeight P width sub) sub = sub.
Proof.
  assert (Ei : forall z, 0 < z < 2 ^ 16 -> int_of_uint z = z)
    by (intros z Hz; unfold int_of_uint; destruct (Z.ltb_spec z (2 ^ 63)); lia).
  intros [-> | ->]; unfold Resize.Resize.
  - rewrite newHeight_zero, target_zero. fold W H.
    now rewrite !Ei, !Z.eqb_refl by assumption.
  - rewrite newHeight_same.
    unfold Resize.target, Resize.calcFactors. fold W H.
    destruct (Z.eqb_spec W 0); [lia|]. destruct (Z.eqb_spec H 0); [lia|].
    now rewrite !Ei, !Z.eqb_refl by assumption.
Qed.
End Identity.

End ScaleFacts.

Lemma crop_dims img box :
  Image.X (Image.Min (Image.Bounds img)) <= Image.X (Image.Max (Image.Bounds img)) ->
  Image.Y (Image.Min (Image.Bounds img)) <= Image.Y (Image.Max (Image.Bounds img)) ->
  Image.Dx (Image.Bounds img) < 2 ^ 16 ->
  Image.Dy (Image.Bounds img) < 2 ^ 16 ->
  Image.Bounds (crop img box) = Image.ZR
  \/ (0 < Image.Dx (Image.Bounds (crop img box)) < 2 ^ 16
      /\ 0 < Image.Dy (Image.Bounds (crop img box)) < 2 ^ 16).
Proof.
  intros Hx Hy HDx HDy. destruct box as [[[x1 y1] x2] y2].
  rewrite crop_Bounds, ImageFacts.Intersect_meet.
  destruct (Image.Empty _) eqn:E; [now left | right].
  apply ImageFacts.Empty_false in E.
  unfold Image.Dx, Image.Dy, Image.meet in *. simpl in *. lia.
Qed.

Lemma label_del_query P w r key imgFile rgbaImg :
  key <> "nolabel" -> key <> "id" -> key <> "color" ->
  label P w (del_query key r) imgFile rgbaImg = label P w r imgFile rgbaImg.
Proof.
  intros H1 H2 H3. unfold label, labelText, clientIP. cbn [del_query Query Header RemoteAddr].
  now rewrite !Get_delete_ne by assumption.
Qed.

Lemma decoded_del_query P saveDir w r key imgFile img :
  key <> "filename" ->
  decoded P saveDir w r imgFile img ->
  decoded P saveDir w (del_query key r) imgFile img.
Proof.
  intros Hk (filename & Hc & Hl). exists filename. split; [|exact Hl].
  unfold checkFilename in *. cbn [del_query Query].
  now rewrite Get_delete_ne by assumption.
Qed.

Lemma resolveBox_del_w r img :
  resolveBox (del_query "w" r) img = resolveBox r img.
Proof.
  unfold resolveBox. cbn [del_query Query].
  now rewrite !Get_delete_ne by discriminate.
Qed.

(** X19.  The width zero and the width of the crop leave the crop as it
    is.  For a source of fewer than 65536 pixels in width and height and a
    [w] that parses as zero or as the width of the sub-image, the scale
    step returns the sub-image itself, not a resampling of it, and the
    response is that of the same request without [w]. *)
Theorem X19_scale_identity P saveDir w (r : Request) imgFile img box width :
  decoded P saveDir w r imgFile img ->
  resolveBox r img = Continue box ->
  Image.X (Image.Min (Image.Bounds img)) <= Image.X (Image.Max (Image.Bounds img)) ->
  Image.Y (Image.Min (Image.Bounds img)) <= Image.Y (Image.Max (Image.Bounds img)) ->
  Image.Dx (Image.Bounds img) < 2 ^ 16 ->
  Image.Dy (Image.Bounds img) < 2 ^ 16 ->
  Strconv.ParseUint (Get (Query r) "w") 10 32 = Strconv.Ok width ->
  width = 0 \/ width = Image.Dx (Image.Bounds (crop img box)) ->
  scale P r (crop img box) = Continue (crop img box)
  /\ cropAndScale P r img box = Continue (toRGBA (crop img box))
  /\ scaledHandler P saveDir w r
     = scaledHandler P saveDir w (del_query "w" r).
Proof.
  intros Hd Hb Hx Hy HDx HDy Hp Hw.
  assert (Hs : scale P r (crop img box) = Continue (crop img box)).
  { unfold scale. rewrite (ParseUint_nonempty _ _ _ _ Hp), Hp. f_equal.
    destruct (crop_dims img box Hx Hy HDx HDy) as [Hz | [HW HH]].
    - now apply Resize_empty.
    - now apply ScaleFacts.Resize_identity. }
  split; [exact Hs|]. split.
  - unfold cropAndScale. now rewrite Hs.
  - rewrite (scaledHandler_box _ _ _ _ _ _ _ Hd Hb), Hs.
    rewrite (scaledHandler_box P saveDir w (del_query "w" r) imgFile img box).
    + unfold scale at 1. cbn [del_query Query]. rewrite Get_delete_eq.
      cbn [Str.is_empty bind run].
      now rewrite label_del_query by discriminate.
    + now apply decoded_del_query.
    + now rewrite resolveBox_del_w.
Qed.

Lemma X19_scale_identity_witness :
  scaledHandler Example.platform Example.saveDir Example.world
    Uploads.width_same
  = scaledHandler Example.platform Example.saveDir Example.world
      (del_query "w" Uploads.width_same)
  /\ scaledHandler Example.platform Example.saveDir Example.world
       Uploads.width_zero
     = scaledHandler Example.platform Example.saveDir Example.world
         (del_query "w" Uploads.width_zero).
Proof.
  split.
  - apply (X19_scale_identity Example.platform Example.saveDir Example.world
             Uploads.width_same {| data := [x00]; modTime := 0 |}
             Example.img100 (0, 0, 100, 100) 100).
    + apply example_decoded. reflexivity.
    + reflexivity.
    + vm_compute. discriminate.
    + vm_compute. discriminate.
    + reflexivity.
    + reflexivity.
    + reflexivity.
    + right. reflexivity.
  - apply (X19_scale_identity Example.platform Example.saveDir Example.world
             Uploads.width_zero {| data := [x00]; modTime := 0 |}
             Example.img100 (0, 0, 100, 100) 0).
    + apply example_decoded. reflexivity.
    + reflexivity.
    + vm_compute. discriminate.
    + vm_compute. discriminate.
    + reflexivity.
    + reflexivity.
    + reflexivity.
    + left. reflexivity.
Defined.



(** ** The label stage in the pipeline *)

Lemma encode_label P w r imgFile rgbaImg :
  (forall msg code,
     encode (label P w r imgFile rgbaImg) = Error msg code
     <-> encode rgbaImg = Error msg code)
  /\ (forall out,
        encode (label P w r imgFile rgbaImg) = Jpeg out ->
        exists out0,
          encode rgbaImg = Jpeg out0
          /\ label_only (labelColor (Get (Query r) "color")) out out0).
Proof.
  unfold encode, jpeg_Encode_ok. rewrite label_Bounds.
  destruct (negb _).
  - split; [intros; split; discriminate|].
    intros out H. injection H as <-. exists rgbaImg.
    split; [reflexivity|]. split; [apply label_Bounds|].
    intros x y. unfold label, drawText.
    destruct (Str.is_empty _); [|now left].
    cbn [Image.At]. destruct (_ && _); [now right | now left].
  - split; [tauto | discriminate].
Qed.

Lemma label_only_refl col out : label_only col out out.
Proof. split; [reflexivity | now left]. Qed.

Lemma same_response_label_only (resp : Response) col :
  (forall msg code, resp = Error msg code <-> resp = Error msg code)
  /\ (forall out, resp = Jpeg out ->
        exists out0, resp = Jpeg out0 /\ label_only col out out0).
Proof.
  split; [tauto|]. intros out ->. exists out. split; [reflexivity|].
  apply label_only_refl.
Qed.

(** X21.  The label changes neither the status nor the size of a render.
    The response has the error of the pipeline without the label stage, if
    that has one; otherwise its raster has the bounds of the unlabelled
    raster and, at every pixel, either the colour of the unlabelled raster
    or the colour of the label (the glyphs of the face are drawn opaque). *)
Theorem X21_label_keeps_status_and_size P saveDir w (r : Request) :
  (forall msg code,
     scaledHandler P saveDir w r = Error msg code
     <-> renderUnlabelled P saveDir w r = Error msg code)
  /\ (forall out,
        scaledHandler P saveDir w r = Jpeg out ->
        exists out0,
          renderUnlabelled P saveDir w r = Jpeg out0
          /\ label_only (labelColor (Get (Query r) "color")) out out0).
Proof.
  unfold scaledHandler, renderUnlabelled.
  destruct (checkFilename r) as [resp|filename]; cbn [bind run];
    [apply same_response_label_only|].
  destruct (loadImage P saveDir w filename) as [resp|[imgFile img]];
    cbn [bind run]; [apply same_response_label_only|].
  destruct (resolveBox r img) as [resp|box]; cbn [bind run];
    [apply same_response_label_only|].
  destruct (cropAndScale P r img box) as [resp|rgbaImg]; cbn [bind run];
    [apply same_response_label_only|].
  apply encode_label.
Qed.
